(** * SupabaseClient: request construction and session state

    A shallow embedding of [src/odh/supabase.js] (class [SupabaseClient])
    and the properties of its request builder, its CRUD surface and its
    bearer-token life cycle.

    Layout:
    - [Js]: the fragment of JavaScript values and built-in operations the
      class relies on (truthiness, string coercion, property reads,
      [Object.entries], object spread);
    - [URLSearchParams]: the query-string builder of the platform;
    - [SupabaseClient]: the class itself, method by method, in a small
      monad that threads the instance, the object store and the trace of
      effects (allocations, property writes, requests, console lines);
    - [Spec]: the observations on states and traces and the reference
      definitions the statements compare against;
    - [Fixtures]: the concrete clients and backends of the examples;
    - [Comments] and [CommentBoard]: [escapeHtml] and the handlers of
      [comments.js] (in [src/unnamed/part_000]), which drive the client
      from the page;
    - [Observations]: further observations on texts, states and effects;
    - the theorems: the JavaScript fragment, the query-string builder, the
      request builder, the CRUD surface, authentication and sessions,
      escaping, credentials, registration, the query string, writes and
      the comment board.  *)

From Stdlib Require Import ZArith NArith String Ascii List DecimalString Decimal Permutation Sorted Lia.
From stdpp Require Import base tactics option list strings.
Import ListNotations.

Set Warnings "-register-all".
Local Open Scope Z_scope.
#[local] Arguments String.append _ _ : simpl nomatch.

(* ===================================================================== *)
(** * The JavaScript fragment *)
(* ===================================================================== *)

Module Js.

(** Plain data as the class receives and returns it.

    - A string is a sequence of code units; the model covers the strings
      whose code units are below 256, one [ascii] per code unit.
    - [JNum n] is the Number an integer literal [n] denotes: [n] itself
      up to 2^53, the nearest double beyond (the class does no
      arithmetic; it tests Numbers against zero and prints them).
    - [JObj props] lists the own properties of a plain object in creation
      order; a well-formed object has no repeated key ([wf_props]).  The
      values are data, as [JSON.parse] or an object literal over data
      gives them: no property holds a function.
    - Objects that the class only reads are values.  The one object it
      mutates in place, the header map, lives in the store (see
      [SupabaseClient.State]). *)
Inductive JsVal : Type :=
| JUndefined
| JNull
| JBool (b : bool)
| JNum (n : Z)
| JStr (s : string)
| JArr (items : list JsVal)
| JObj (props : list (string * JsVal)).

Abbreviation Props := (list (string * JsVal)).

Definition wf_props (ps : Props) : Prop := NoDup (map fst ps).

(** A thrown value: an [Error] object, by constructor name and message. *)
Record JsError : Type := mkError { name : string; message : string }.

(** [new Error(msg)] *)
Definition new_Error (msg : string) : JsError := mkError "Error" msg.

(** The outcome of evaluating an expression or awaiting a promise. *)
Inductive Outcome (A : Type) : Type :=
| Return (a : A)
| Throw (e : JsError).
Arguments Return {A} a.
Arguments Throw {A} e.

Definition obind {A B} (o : Outcome A) (f : A -> Outcome B) : Outcome B :=
  match o with
  | Return a => f a
  | Throw e => Throw e
  end.

Notation "'let?' x := o 'in' k" := (obind o (fun x => k))
  (at level 10, x name, o at level 100, k at level 200).

(** A loop over [l] that stops at the first exception. *)
Fixpoint ofold {A B} (f : A -> B -> Outcome A) (l : list B) (a : A) : Outcome A :=
  match l with
  | [] => Return a
  | b :: rest => let? a' := f a b in ofold f rest a'
  end.

(** ** ToBoolean *)
Definition truthy (v : JsVal) : bool :=
  match v with
  | JUndefined | JNull => false
  | JBool b => b
  | JNum n => negb (n =? 0)
  | JStr s => negb (String.eqb s EmptyString)
  | JArr _ | JObj _ => true
  end.

(** [a || b] *)
Definition js_or (a b : JsVal) : JsVal := if truthy a then a else b.

(** ** Number::toString *)

(** The decimal digits of an integer, with its sign. *)
Definition decimal (n : Z) : string := NilZero.string_of_int (Z.to_int n).

(** The double nearest to a positive integer, ties going to the even
    significand; 2^1024 stands for the overflow to infinity. *)
Definition nearest_double (n : Z) : Z :=
  let e := Z.log2 n in
  if e <? 53 then n
  else
    let ulp := 2 ^ (e - 52) in
    let q := n / ulp in
    let r := n mod ulp in
    let q' := if 2 * r <? ulp then q
              else if ulp <? 2 * r then q + 1
              else if Z.even q then q else q + 1 in
    q' * ulp.

(** Whether the integer [v] rounds to the double [x], for [x] from 2^53
    on: [v] lies within half a gap of [x], the two midpoints included
    when the significand of [x] is even. *)
Definition rounds_to (x v : Z) : bool :=
  let e := Z.log2 x in
  let up := 2 ^ (e - 52) in
  let down := if x =? 2 ^ e then 2 ^ (e - 53) else up in
  if Z.even (x / up)
  then (2 * x - down <=? 2 * v) && (2 * v <=? 2 * x + up)
  else (2 * x - down <? 2 * v) && (2 * v <? 2 * x + up).

(** The integer with the fewest significant digits that rounds to [x],
    the closest to [x] when there are several: [k] significant digits are
    tried before [k + 1]. *)
Fixpoint shortest_from (fuel : nat) (k : Z) (x d : Z) : Z :=
  match fuel with
  | O => x
  | S fuel' =>
      let p := 10 ^ (d - k) in
      let lo := (x / p) * p in
      let hi := lo + p in
      match rounds_to x lo, rounds_to x hi with
      | true, true =>
          if x - lo <? hi - x then lo
          else if hi - x <? x - lo then hi
          else if Z.even (x / p) then lo else hi
      | true, false => lo
      | false, true => hi
      | false, false => shortest_from fuel' (k + 1) x d
      end
  end.

Definition shortest (x : Z) : Z :=
  let d := Z.of_nat (String.length (decimal x)) in
  shortest_from (Z.to_nat d) 1 x d.

Fixpoint strip_zeros (s : string) : string :=
  match s with
  | EmptyString => EmptyString
  | String c rest =>
      match strip_zeros rest with
      | EmptyString => if Ascii.eqb c "0" then EmptyString else String c EmptyString
      | kept => String c kept
      end
  end.

(** [d.ddde+n] *)
Definition exponent_form (c : Z) : string :=
  let digits := decimal c in
  match strip_zeros digits with
  | EmptyString => digits
  | String first EmptyString =>
      String first ("e+" +:+ decimal (Z.of_nat (String.length digits) - 1))
  | String first rest =>
      String first ("." +:+ rest +:+ "e+" +:+ decimal (Z.of_nat (String.length digits) - 1))
  end.

(** [Number::toString]: the digits of the integer up to 2^53; beyond, the
    shortest digits that identify the double, padded with zeros below
    10^21 and in exponent notation from 10^21 on. *)
Definition Number_toString (n : Z) : string :=
  let sign := if n <? 0 then "-" else EmptyString in
  let x := nearest_double (Z.abs n) in
  if Z.log2 x <? 53 then decimal n
  else if 1024 <=? Z.log2 x then sign +:+ "Infinity"
  else
    let c := shortest x in
    sign +:+ (if c <? 10 ^ 21 then decimal c else exponent_form c).

(** ** ToString *)

Definition index_key (i : nat) : string := NilEmpty.string_of_uint (Nat.to_uint i).

(** [sep.join(parts)] *)
Fixpoint join (sep : string) (parts : list string) : string :=
  match parts with
  | [] => EmptyString
  | [p] => p
  | p :: rest => p +:+ sep +:+ join sep rest
  end.

(** The error of [ToPrimitive] on an object that has no usable
    [toString] and [valueOf]. *)
Definition not_primitive : JsError :=
  mkError "TypeError" "Cannot convert object to primitive value".

(** ** Property keys *)

(** An array index is the canonical decimal rendering of an integer in
    [0, 2^32 - 2]. *)
Definition array_index (k : string) : option N :=
  match NilEmpty.uint_of_string k with
  | Some d =>
      let n := N.of_uint d in
      if String.eqb (NilEmpty.string_of_uint (N.to_uint n)) k && (n <? 4294967295)%N
      then Some n else None
  | None => None
  end.

Definition is_array_index (k : string) : bool :=
  match array_index k with Some _ => true | None => false end.

Definition index_of (k : string) : N :=
  match array_index k with Some n => n | None => 0%N end.

(** ** Own properties *)

Fixpoint lookup_prop (k : string) (ps : Props) : option JsVal :=
  match ps with
  | [] => None
  | (k', v) :: rest => if String.eqb k' k then Some v else lookup_prop k rest
  end.

(** [o.k] on a plain object: the own property, or [undefined]. *)
Definition prop (ps : Props) (k : string) : JsVal :=
  match lookup_prop k ps with Some v => v | None => JUndefined end.

(** [o[k] = v]: an existing property keeps its place, a new one is created
    last. *)
Fixpoint set_prop (ps : Props) (k : string) (v : JsVal) : Props :=
  match ps with
  | [] => [(k, v)]
  | (k', v') :: rest =>
      if String.eqb k' k then (k', v) :: rest else (k', v') :: set_prop rest k v
  end.

Fixpoint insert_by_index (e : string * JsVal) (sorted : Props) : Props :=
  match sorted with
  | [] => [e]
  | e' :: rest =>
      if (index_of (fst e) <=? index_of (fst e'))%N then e :: sorted
      else e' :: insert_by_index e rest
  end.

Definition sort_by_index (ps : Props) : Props :=
  fold_right insert_by_index [] ps.

(** [a] is listed no later than [b] in the array-index block. *)
Definition index_le (a b : string * JsVal) : Prop :=
  (index_of (fst a) <= index_of (fst b))%N.

(** OrdinaryOwnPropertyKeys: array-index keys in ascending numeric order,
    then the other keys in creation order. *)
Definition own_entries (ps : Props) : Props :=
  sort_by_index (List.filter (fun e => is_array_index (fst e)) ps)
  ++ List.filter (fun e => negb (is_array_index (fst e))) ps.

Fixpoint indexed {A : Type} (i : nat) (l : list A) : list (string * A) :=
  match l with
  | [] => []
  | x :: rest => (index_key i, x) :: indexed (S i) rest
  end.

Fixpoint code_units (s : string) : list JsVal :=
  match s with
  | EmptyString => []
  | String c rest => JStr (String c EmptyString) :: code_units rest
  end.

(** The own enumerable string-keyed properties of a value after
    [ToObject]; [undefined] and [null] have none here (the callers that
    must throw on them do so themselves). *)
Definition own_enumerable (v : JsVal) : Props :=
  match v with
  | JObj ps => own_entries ps
  | JArr items => indexed 0 items
  | JStr s => indexed 0 (code_units s)
  | JUndefined | JNull | JBool _ | JNum _ => []
  end.

(** [Object.entries(v)] *)
Definition Object_entries (v : JsVal) : Outcome Props :=
  match v with
  | JUndefined | JNull =>
      Throw (mkError "TypeError" "Cannot convert undefined or null to object")
  | _ => Return (own_enumerable v)
  end.

(** [{...v}] *)
Definition spread (v : JsVal) : Props := own_enumerable v.

(** ** Property reads *)

Definition nth_or_undefined (items : list JsVal) (k : string) : JsVal :=
  match array_index k with
  | Some i => nth (N.to_nat i) items JUndefined
  | None => JUndefined
  end.

(** [v.k] / [v[k]] for the keys the class reads (none of which is found
    on a built-in prototype): reading from [undefined] or [null] throws,
    an array or a string has [length] and its indices, a plain object has
    its own properties, and anything else gives [undefined]. *)
Definition Get (v : JsVal) (k : string) : Outcome JsVal :=
  match v with
  | JUndefined =>
      Throw (mkError "TypeError"
               ("Cannot read properties of undefined (reading '" +:+ k +:+ "')"))
  | JNull =>
      Throw (mkError "TypeError"
               ("Cannot read properties of null (reading '" +:+ k +:+ "')"))
  | JObj ps => Return (prop ps k)
  | JArr items =>
      Return (if String.eqb k "length" then JNum (Z.of_nat (length items))
              else nth_or_undefined items k)
  | JStr s =>
      Return (if String.eqb k "length" then JNum (Z.of_nat (String.length s))
              else nth_or_undefined (code_units s) k)
  | JBool _ | JNum _ => Return JUndefined
  end.

(** ** String coercion *)

(** [ToString], as a template literal or [URLSearchParams.append] applies
    it.  An array renders as its elements joined by commas, with [null]
    and [undefined] elements rendered empty, and fails when an element
    does.  A plain object renders as ["[object Object]"] through
    [Object.prototype.toString], unless it has a [toString] property of
    its own: that property is data and cannot be called, [valueOf] gives
    back the object, and the coercion raises a [TypeError]. *)
Fixpoint ToString (v : JsVal) : Outcome string :=
  match v with
  | JUndefined => Return "undefined"
  | JNull => Return "null"
  | JBool true => Return "true"
  | JBool false => Return "false"
  | JNum n => Return (Number_toString n)
  | JStr s => Return s
  | JArr items =>
      match
        (fix each (l : list JsVal) : Outcome (list string) :=
           match l with
           | [] => Return []
           | x :: rest =>
               match match x with
                     | JUndefined | JNull => Return EmptyString
                     | _ => ToString x
                     end with
               | Return part =>
                   match each rest with
                   | Return parts => Return (part :: parts)
                   | Throw e => Throw e
                   end
               | Throw e => Throw e
               end
           end) items
      with
      | Return parts => Return (join "," parts)
      | Throw e => Throw e
      end
  | JObj props =>
      match lookup_prop "toString" props with
      | Some _ => Throw not_primitive
      | None => Return "[object Object]"
      end
  end.

(** [ToPrimitive]: a primitive is its own; an array or a plain object
    ends, with either hint, in its [toString]. *)
Definition ToPrimitive (v : JsVal) : Outcome JsVal :=
  match v with
  | JArr _ | JObj _ => let? s := ToString v in Return (JStr s)
  | _ => Return v
  end.

(** A parameter default: [f(x = d)] takes [d] when the argument is
    [undefined]. *)
Definition default_arg (v d : JsVal) : JsVal :=
  match v with JUndefined => d | _ => v end.

End Js.

(* ===================================================================== *)
(** * URLSearchParams *)
(* ===================================================================== *)

Module URLSearchParams.

(** The list of name-value pairs held by a [URLSearchParams] object. *)
Definition t : Type := list (string * string).

(** [new URLSearchParams()] *)
Definition empty : t := [].

(** [params.append(name, value)] *)
Definition append (params : t) (name value : string) : t := params ++ [(name, value)].

Definition hex_digit (n : N) : ascii :=
  match String.get (N.to_nat n) "0123456789ABCDEF" with
  | Some c => c
  | None => "0"%char
  end.

(** [%XX] for one byte. *)
Definition percent (b : N) : string :=
  String "%" (String (hex_digit (b / 16)) (String (hex_digit (b mod 16)) EmptyString)).

(** The code units the application/x-www-form-urlencoded serializer leaves
    as they are: ASCII alphanumerics and [*], [-], [.], [_]. *)
Definition unreserved (c : ascii) : bool :=
  let n := N_of_ascii c in
  ((48 <=? n) && (n <=? 57) || (65 <=? n) && (n <=? 90) || (97 <=? n) && (n <=? 122)
   || (n =? 42) || (n =? 45) || (n =? 46) || (n =? 95))%N.

(** One code unit, UTF-8 encoded and percent-encoded; a space becomes [+]. *)
Definition encode_unit (c : ascii) : string :=
  let n := N_of_ascii c in
  if unreserved c then String c EmptyString
  else if (n =? 32)%N then "+"
  else if (n <? 128)%N then percent n
  else percent (192 + n / 64) +:+ percent (128 + n mod 64).

Fixpoint urlencode (s : string) : string :=
  match s with
  | EmptyString => EmptyString
  | String c rest => encode_unit c +:+ urlencode rest
  end.

Definition encode_pair (p : string * string) : string :=
  urlencode (fst p) +:+ "=" +:+ urlencode (snd p).

(** [params.toString()] *)
Definition toString (params : t) : string :=
  Js.join "&" (map encode_pair params).

End URLSearchParams.

(* ===================================================================== *)
(** * The class *)
(* ===================================================================== *)

Module SupabaseClient.
Import Js.

(** ** State, requests and effects *)

Abbreviation loc := nat.

(** The fields of the instance ([this.supabaseUrl], [this.supabaseKey]
    and the reference held in [this.headers]). *)
Record Instance : Type := mkInstance {
  supabaseUrl : string;
  supabaseKey : string;
  headers : loc
}.

(** The instance and the store of mutable objects (header maps). *)
Record State : Type := mkState {
  this : Instance;
  store : list Props
}.

(** The second argument of [fetch]: [headers] is a reference. *)
Record RequestInit : Type := mkInit {
  init_method : string;
  init_headers : loc;
  init_body : JsVal
}.

(** A request as it leaves the client: [fetch] reads the header object
    when it is called. *)
Record Request : Type := mkRequest {
  req_method : string;
  req_url : string;
  req_headers : Props;
  req_body : JsVal
}.

(** What the code reads from a response: [response.ok],
    [response.statusText] and the promise of [response.json()]. *)
Record Response : Type := mkResponse {
  ok : bool;
  statusText : string;
  json : Outcome JsVal
}.

(** The promise returned by [fetch]: resolved with a response (of any
    status), or rejected when the call fails at the transport level. *)
Inductive FetchResult : Type :=
| Resolved (r : Response)
| Rejected (e : JsError).

Inductive Level : Type := LError | LWarn.

(** The effects of a method, in the order they happen. *)
Inductive Event : Type :=
| EvAlloc (l : loc) (o : Props)
| EvWrite (l : loc) (k : string) (v : JsVal)
| EvFetch (r : Request)
| EvConsole (lvl : Level) (text : string) (payload : option JsError).

(** ** The monad of method bodies

    A computation runs from a state to an outcome, a state and the events
    it emitted.  Each async method is run to completion: the model has no
    interleaving of calls at an [await]. *)
Definition M (A : Type) : Type := State -> Outcome A * State * list Event.

Definition ret {A} (a : A) : M A := fun s => (Return a, s, []).

Definition throw {A} (e : JsError) : M A := fun s => (Throw e, s, []).

Definition bind {A B} (m : M A) (f : A -> M B) : M B :=
  fun s =>
    match m s with
    | (Return a, s1, t1) => let '(o, s2, t2) := f a s1 in (o, s2, t1 ++ t2)
    | (Throw e, s1, t1) => (Throw e, s1, t1)
    end.

(** [try { m } catch (error) { h error }] *)
Definition try_catch {A} (m : M A) (h : JsError -> M A) : M A :=
  fun s =>
    match m s with
    | (Return a, s1, t1) => (Return a, s1, t1)
    | (Throw e, s1, t1) => let '(o, s2, t2) := h e s1 in (o, s2, t1 ++ t2)
    end.

Definition lift {A} (o : Outcome A) : M A := fun s => (o, s, []).

Declare Scope js_scope.
Delimit Scope js_scope with js.
Notation "x <- m ;; k" := (bind m (fun x => k))
  (at level 100, m at next level, right associativity) : js_scope.
Notation "m ;; k" := (bind m (fun _ => k))
  (at level 100, right associativity) : js_scope.
Local Open Scope js_scope.

Definition get_this : M Instance := fun s => (Return (this s), s, []).

Definition set_this (i : Instance) : M unit :=
  fun s => (Return tt, mkState i (store s), []).

(** The properties of the object at [l]. *)
Definition deref (l : loc) : M Props :=
  fun s => (Return (default [] (store s !! l)), s, []).

(** A new object with the given properties. *)
Definition alloc (o : Props) : M loc :=
  fun s =>
    let l := length (store s) in
    (Return l, mkState (this s) (store s ++ [o]), [EvAlloc l o]).

(** [o[k] = v] on the object at [l]. *)
Definition assign (l : loc) (k : string) (v : JsVal) : M unit :=
  fun s =>
    (Return tt,
     mkState (this s) (alter (fun o => set_prop o k v) l (store s)),
     [EvWrite l k v]).

(** [console.error(text, error)] *)
Definition console_error (text : string) (error : JsError) : M unit :=
  fun s => (Return tt, s, [EvConsole LError text (Some error)]).

(** [console.warn(text)] *)
Definition console_warn (text : string) : M unit :=
  fun s => (Return tt, s, [EvConsole LWarn text None]).

(** [await response.json()] *)
Definition await_json (response : Response) : M JsVal := lift (json response).

(** The asynchronous methods, as calls with their arguments. *)
Inductive Call : Type :=
| Read (table : string) (options : JsVal)
| Query (table : string) (filters options : JsVal)
| GetById (table : string) (id options : JsVal)
| Insert (table : string) (data : JsVal)
| InsertMany (table : string) (dataArray : JsVal)
| Update (table : string) (filters data : JsVal)
| UpdateById (table : string) (id data : JsVal)
| Delete (table : string) (filters : JsVal)
| DeleteById (table : string) (id : JsVal)
| SignUp (email password data : JsVal)
| SignIn (email password : JsVal)
| SignOut (accessToken : JsVal).

Section Host.

(** The backend behind [fetch], as the test-suite's [mockFetch] is: it
    answers each request. *)
Variable fetch : Request -> FetchResult.

(** [JSON.stringify], on the plain data the class passes to it. *)
Variable JSON_stringify : JsVal -> JsVal.

(** Whether [StringToNumber(s)] is a number above zero; numeric-literal
    parsing is left to the host. *)
Variable StringToNumber_positive : string -> bool.

(** [await fetch(url, init)] *)
Definition await_fetch (url : string) (init : RequestInit) : M Response :=
  fun s =>
    let req := mkRequest (init_method init) url
                 (default [] (store s !! init_headers init)) (init_body init) in
    match fetch req with
    | Resolved r => (Return r, s, [EvFetch req])
    | Rejected e => (Throw e, s, [EvFetch req])
    end.

(** [v > 0]: the operand is brought to a primitive, which may raise,
    and compared as a Number. *)
Definition gt_zero (v : JsVal) : Outcome bool :=
  let? p := ToPrimitive v in
  Return match p with
         | JNum n => 0 <? n
         | JBool b => b
         | JStr s => StringToNumber_positive s
         | _ => false
         end.

(** ** Construction and credentials *)

(** [new SupabaseClient(supabaseUrl, supabaseKey)], in a store [st]. *)
Definition constructor (supabaseUrl supabaseKey : string) (st : list Props)
  : State * list Event :=
  let l := length st in
  let h := [("apikey", JStr supabaseKey);
            ("Authorization", JStr ("Bearer " +:+ supabaseKey));
            ("Content-Type", JStr "application/json");
            ("Prefer", JStr "return=representation")] in
  (mkState (mkInstance supabaseUrl supabaseKey l) (st ++ [h]), [EvAlloc l h]).

Definition setAuthToken (token : JsVal) : M JsVal :=
  this <- get_this ;;
  bearer <- lift (ToString token) ;;
  assign (headers this) "Authorization" (JStr ("Bearer " +:+ bearer)) ;;
  ret JUndefined.

Definition setCredentials (supabaseUrl supabaseKey : string) : M JsVal :=
  h <- alloc [("apikey", JStr supabaseKey);
              ("Authorization", JStr ("Bearer " +:+ supabaseKey));
              ("Content-Type", JStr "application/json");
              ("Prefer", JStr "return=representation")] ;;
  set_this (mkInstance supabaseUrl supabaseKey h) ;;
  ret JUndefined.

(** ** buildUrl *)

(** The statements of [buildUrl] that fill the [URLSearchParams] object
    (filters, select, order, limit, offset, in this order). *)
Definition select_params (options : JsVal) : Outcome URLSearchParams.t :=
  let params := URLSearchParams.empty in
  (* Add filters *)
  let? filters := Get options "filters" in
  let? params :=
    if truthy filters then
      let? entries := Object_entries filters in
      ofold (fun ps '(key, value) =>
               let? text := ToString value in
               Return (URLSearchParams.append ps key ("eq." +:+ text)))
            entries params
    else Return params in
  (* Add select columns *)
  let? select := Get options "select" in
  let? params :=
    if truthy select then
      let? text := ToString select in
      Return (URLSearchParams.append params "select" text)
    else Return params in
  (* Add ordering *)
  let? order := Get options "order" in
  let? params :=
    if truthy order then
      let? column := Get order "column" in
      let orderBy := js_or column (JStr "id") in
      let? direction := Get order "direction" in
      let orderDir := js_or direction (JStr "asc") in
      let? by_ := ToString orderBy in
      let? dir := ToString orderDir in
      Return (URLSearchParams.append params "order" (by_ +:+ "." +:+ dir))
    else Return params in
  (* Add limit *)
  let? limit := Get options "limit" in
  let? params :=
    if truthy limit then
      let? text := ToString limit in
      Return (URLSearchParams.append params "limit" text)
    else Return params in
  (* Add offset for pagination *)
  let? offset := Get options "offset" in
  let? params :=
    if truthy offset then
      let? text := ToString offset in
      Return (URLSearchParams.append params "offset" text)
    else Return params in
  Return params.

Definition buildUrl (table : string) (operation : string) (options : JsVal)
  : M string :=
  let options := default_arg options (JObj []) in
  this <- get_this ;;
  let url := supabaseUrl this +:+ "/rest/v1/" +:+ table in
  if String.eqb operation "select" then
    params <- lift (select_params options) ;;
    let queryString := URLSearchParams.toString params in
    ret (if truthy (JStr queryString) then url +:+ "?" +:+ queryString else url)
  else ret url.

(** ** Reading *)

Definition read (table : string) (options : JsVal) : M JsVal :=
  let options := default_arg options (JObj []) in
  try_catch
    (url <- buildUrl table "select" options ;;
     this <- get_this ;;
     response <- await_fetch url (mkInit "GET" (headers this) JUndefined) ;;
     if negb (ok response) then
       error <- await_json response ;;
       message <- lift (Get error "message") ;;
       text <- lift (ToString (js_or message (JStr (statusText response)))) ;;
       throw (new_Error ("Supabase Error: " +:+ text))
     else
       data <- await_json response ;;
       ret data)
    (fun error =>
       console_error ("Error reading from " +:+ table +:+ ":") error ;;
       throw error).

Definition query (table : string) (filters options : JsVal) : M JsVal :=
  let filters := default_arg filters (JObj []) in
  let options := default_arg options (JObj []) in
  try_catch
    (let queryOptions := JObj (set_prop (spread options) "filters" filters) in
     url <- buildUrl table "select" queryOptions ;;
     this <- get_this ;;
     response <- await_fetch url (mkInit "GET" (headers this) JUndefined) ;;
     if negb (ok response) then
       error <- await_json response ;;
       message <- lift (Get error "message") ;;
       text <- lift (ToString (js_or message (JStr (statusText response)))) ;;
       throw (new_Error ("Supabase Error: " +:+ text))
     else
       data <- await_json response ;;
       ret data)
    (fun error =>
       console_error ("Error querying " +:+ table +:+ ":") error ;;
       throw error).

Definition getById (table : string) (id options : JsVal) : M JsVal :=
  let options := default_arg options (JObj []) in
  try_catch
    (let filters := JObj [("id", id)] in
     results <- query table filters (JObj (set_prop (spread options) "limit" (JNum 1))) ;;
     length <- lift (Get results "length") ;;
     positive <- lift (gt_zero length) ;;
     if positive : bool then lift (Get results "0") else ret JNull)
    (fun error =>
       console_error ("Error getting " +:+ table +:+ " by ID:") error ;;
       throw error).

(** ** Writing *)

Definition insert (table : string) (data : JsVal) : M JsVal :=
  try_catch
    (this <- get_this ;;
     let url := supabaseUrl this +:+ "/rest/v1/" +:+ table in
     response <- await_fetch url
                   (mkInit "POST" (headers this) (JSON_stringify data)) ;;
     if negb (ok response) then
       error <- await_json response ;;
       message <- lift (Get error "message") ;;
       text <- lift (ToString (js_or message (JStr (statusText response)))) ;;
       throw (new_Error ("Supabase Error: " +:+ text))
     else
       result <- await_json response ;;
       ret result)
    (fun error =>
       console_error ("Error inserting into " +:+ table +:+ ":") error ;;
       throw error).

Definition insertMany (table : string) (dataArray : JsVal) : M JsVal :=
  try_catch
    (this <- get_this ;;
     let url := supabaseUrl this +:+ "/rest/v1/" +:+ table in
     response <- await_fetch url
                   (mkInit "POST" (headers this) (JSON_stringify dataArray)) ;;
     if negb (ok response) then
       error <- await_json response ;;
       message <- lift (Get error "message") ;;
       text <- lift (ToString (js_or message (JStr (statusText response)))) ;;
       throw (new_Error ("Supabase Error: " +:+ text))
     else
       result <- await_json response ;;
       ret result)
    (fun error =>
       console_error ("Error inserting multiple records into " +:+ table +:+ ":") error ;;
       throw error).

(** The filter query string of [update] and [delete]. *)
Definition filter_params (entries : Props) : Outcome URLSearchParams.t :=
  ofold (fun ps '(key, value) =>
           let? text := ToString value in
           Return (URLSearchParams.append ps key ("eq." +:+ text)))
        entries URLSearchParams.empty.

Definition update (table : string) (filters data : JsVal) : M JsVal :=
  try_catch
    (this <- get_this ;;
     let url := supabaseUrl this +:+ "/rest/v1/" +:+ table in
     (* Build filter query string *)
     entries <- lift (Object_entries filters) ;;
     params <- lift (filter_params entries) ;;
     let url :=
       if truthy (JStr (URLSearchParams.toString params))
       then url +:+ "?" +:+ URLSearchParams.toString params else url in
     response <- await_fetch url
                   (mkInit "PATCH" (headers this) (JSON_stringify data)) ;;
     if negb (ok response) then
       error <- await_json response ;;
       message <- lift (Get error "message") ;;
       text <- lift (ToString (js_or message (JStr (statusText response)))) ;;
       throw (new_Error ("Supabase Error: " +:+ text))
     else
       result <- await_json response ;;
       ret result)
    (fun error =>
       console_error ("Error updating " +:+ table +:+ ":") error ;;
       throw error).

Definition updateById (table : string) (id data : JsVal) : M JsVal :=
  update table (JObj [("id", id)]) data.

Definition delete (table : string) (filters : JsVal) : M JsVal :=
  try_catch
    (this <- get_this ;;
     let url := supabaseUrl this +:+ "/rest/v1/" +:+ table in
     (* Build filter query string *)
     entries <- lift (Object_entries filters) ;;
     params <- lift (filter_params entries) ;;
     let url :=
       if truthy (JStr (URLSearchParams.toString params))
       then url +:+ "?" +:+ URLSearchParams.toString params else url in
     response <- await_fetch url (mkInit "DELETE" (headers this) JUndefined) ;;
     if negb (ok response) then
       error <- await_json response ;;
       message <- lift (Get error "message") ;;
       text <- lift (ToString (js_or message (JStr (statusText response)))) ;;
       throw (new_Error ("Supabase Error: " +:+ text))
     else
       result <- await_json response ;;
       ret result)
    (fun error =>
       console_error ("Error deleting from " +:+ table +:+ ":") error ;;
       throw error).

Definition deleteById (table : string) (id : JsVal) : M JsVal :=
  delete table (JObj [("id", id)]).

(** ** Authentication *)

Definition signUp (email password data : JsVal) : M JsVal :=
  let data := default_arg data (JObj []) in
  try_catch
    (this <- get_this ;;
     let url := supabaseUrl this +:+ "/auth/v1/signup" in
     response <- await_fetch url
                   (mkInit "POST" (headers this)
                      (JSON_stringify (JObj [("email", email);
                                             ("password", password);
                                             ("data", data)]))) ;;
     if negb (ok response) then
       error <- await_json response ;;
       msg <- lift (Get error "msg") ;;
       message <- lift (Get error "message") ;;
       text <- lift (ToString (js_or (js_or msg message)
                                (JStr (statusText response)))) ;;
       throw (new_Error ("Supabase Auth Error: " +:+ text))
     else
       result <- await_json response ;;
       ret result)
    (fun error =>
       console_error "Error signing up:" error ;;
       throw error).

Definition signIn (email password : JsVal) : M JsVal :=
  try_catch
    (this <- get_this ;;
     let url := supabaseUrl this +:+ "/auth/v1/token?grant_type=password" in
     response <- await_fetch url
                   (mkInit "POST" (headers this)
                      (JSON_stringify (JObj [("email", email);
                                             ("password", password)]))) ;;
     if negb (ok response) then
       error <- await_json response ;;
       error_description <- lift (Get error "error_description") ;;
       msg <- lift (Get error "msg") ;;
       message <- lift (Get error "message") ;;
       text <- lift (ToString (js_or (js_or (js_or error_description msg) message)
                                (JStr (statusText response)))) ;;
       throw (new_Error ("Supabase Auth Error: " +:+ text))
     else
       result <- await_json response ;;
       (* Update Authorization header with the new access token *)
       access_token <- lift (Get result "access_token") ;;
       (if truthy access_token then setAuthToken access_token else ret JUndefined) ;;
       ret result)
    (fun error =>
       console_error "Error signing in:" error ;;
       throw error).

Definition signOut (accessToken : JsVal) : M JsVal :=
  try_catch
    (this <- get_this ;;
     let url := supabaseUrl this +:+ "/auth/v1/logout" in
     stored <- deref (headers this) ;;
     headers' <- alloc (own_entries stored) ;;
     (if truthy accessToken
      then
        bearer <- lift (ToString accessToken) ;;
        assign headers' "Authorization" (JStr ("Bearer " +:+ bearer))
      else ret tt) ;;
     response <- await_fetch url (mkInit "POST" headers' JUndefined) ;;
     (if negb (ok response) then
        error <- await_json response ;;
        msg <- lift (Get error "msg") ;;
        message <- lift (Get error "message") ;;
        text <- lift (ToString (js_or (js_or msg message)
                                 (JStr (statusText response)))) ;;
        console_warn ("Supabase Logout Warning: " +:+ text)
      else ret tt) ;;
     (* Reset Authorization header to anon key *)
     this <- get_this ;;
     assign (headers this) "Authorization" (JStr ("Bearer " +:+ supabaseKey this)) ;;
     ret JUndefined)
    (fun error =>
       console_error "Error signing out:" error ;;
       throw error).

(** ** Dispatch *)

Definition invoke (c : Call) : M JsVal :=
  match c with
  | Read table options => read table options
  | Query table filters options => query table filters options
  | GetById table id options => getById table id options
  | Insert table data => insert table data
  | InsertMany table dataArray => insertMany table dataArray
  | Update table filters data => update table filters data
  | UpdateById table id data => updateById table id data
  | Delete table filters => delete table filters
  | DeleteById table id => deleteById table id
  | SignUp email password data => signUp email password data
  | SignIn email password => signIn email password
  | SignOut accessToken => signOut accessToken
  end.

End Host.
End SupabaseClient.

(* ===================================================================== *)
(** * Reference definitions *)
(* ===================================================================== *)

Module Spec.
Import Js SupabaseClient.

(** ** Observations on states and traces *)

(** The header map the instance holds. *)
Definition stored_headers (s : State) : Props :=
  default [] (store s !! headers (this s)).

(** The stored [Authorization] header. *)
Definition authorization (s : State) : JsVal :=
  prop (stored_headers s) "Authorization".

(** [this.headers] refers to a live, well-formed object. *)
Definition wf_state (s : State) : Prop :=
  exists h, store s !! headers (this s) = Some h /\ wf_props h.

(** The three components of a finished computation. *)
Definition outcome_of {A} (r : Outcome A * State * list Event) : Outcome A := fst (fst r).
Definition state_of {A} (r : Outcome A * State * list Event) : State := snd (fst r).
Definition events_of {A} (r : Outcome A * State * list Event) : list Event := snd r.

(** Whether [needle] occurs in [hay]. *)
Definition contains (needle hay : string) : bool :=
  match String.index 0 needle hay with Some _ => true | None => false end.

(** The requests handed to [fetch], in order. *)
Definition requests (t : list Event) : list Request :=
  omap (fun ev => match ev with EvFetch r => Some r | _ => None end) t.

(** The console lines, in order. *)
Definition console (t : list Event) : list (Level * string * option JsError) :=
  omap (fun ev => match ev with
                  | EvConsole lvl text payload => Some (lvl, text, payload)
                  | _ => None
                  end) t.

(** The property writes made to the object at [l], in order. *)
Definition writes_to (l : loc) (t : list Event) : list (string * JsVal) :=
  omap (fun ev => match ev with
                  | EvWrite l' k v => if Nat.eqb l' l then Some (k, v) else None
                  | _ => None
                  end) t.

(** The [Authorization] header of a request. *)
Definition bearer_of (r : Request) : JsVal := prop (req_headers r) "Authorization".

(** ** Values as text *)

(** [value] is absent: [null] or [undefined]. *)
Definition nullish (v : JsVal) : bool :=
  match v with JUndefined | JNull => true | _ => false end.

(** Whether the string coercion of a value succeeds: every value but a
    plain object with a [toString] property of its own, and an array
    holding one. *)
Fixpoint coercible (v : JsVal) : bool :=
  match v with
  | JArr items => forallb coercible items
  | JObj props => match lookup_prop "toString" props with Some _ => false | None => true end
  | _ => true
  end.

(** The text a coercible value is coerced to. *)
Fixpoint text (v : JsVal) : string :=
  match v with
  | JUndefined => "undefined"
  | JNull => "null"
  | JBool true => "true"
  | JBool false => "false"
  | JNum n => Number_toString n
  | JStr s => s
  | JArr items =>
      join "," (map (fun x => match x with
                              | JUndefined | JNull => EmptyString
                              | _ => text x
                              end) items)
  | JObj _ => "[object Object]"
  end.

(** An integer every digit of which a Number holds. *)
Definition safe_integer (n : Z) : bool := Z.abs n <=? 9007199254740991.

(** Whether a value that can be brought to a primitive is above zero. *)
Definition above_zero (StringToNumber_positive : string -> bool) (v : JsVal) : bool :=
  match v with
  | JNum n => 0 <? n
  | JBool b => b
  | JUndefined | JNull => false
  | JStr s => StringToNumber_positive s
  | JArr _ | JObj _ => StringToNumber_positive (text v)
  end.

(** ** The wire format *)

(** [<baseUrl>/rest/v1/<table>] *)
Definition resource (s : State) (table : string) : string :=
  supabaseUrl (this s) +:+ "/rest/v1/" +:+ table.

(** The equality predicate [k = eq.<v>] of one filter entry. *)
Definition eq_param (e : string * JsVal) : string * string :=
  (fst e, "eq." +:+ text (snd e)).

(** Nothing for no parameter, [?] and the encoded pairs otherwise. *)
Definition query_suffix (params : URLSearchParams.t) : string :=
  match params with
  | [] => EmptyString
  | _ => "?" +:+ URLSearchParams.toString params
  end.

(** A string the serializer leaves as it is. *)
Fixpoint plain (s : string) : bool :=
  match s with
  | EmptyString => true
  | String c rest => URLSearchParams.unreserved c && plain rest
  end.

(** A property of a value that can be read without an exception. *)
Definition field (v : JsVal) (k : string) : JsVal :=
  match Get v k with Return x => x | Throw _ => JUndefined end.

(** The parameters each option contributes. *)
Definition filters_part (filters : JsVal) : URLSearchParams.t :=
  if truthy filters then map eq_param (own_enumerable filters) else [].

Definition select_part (select : JsVal) : URLSearchParams.t :=
  if truthy select then [("select", text select)] else [].

Definition order_column (order : JsVal) : string :=
  if truthy (field order "column") then text (field order "column") else "id".

Definition order_direction (order : JsVal) : string :=
  if truthy (field order "direction") then text (field order "direction") else "asc".

Definition order_part (order : JsVal) : URLSearchParams.t :=
  if truthy order
  then [("order", order_column order +:+ "." +:+ order_direction order)]
  else [].

Definition limit_part (limit : JsVal) : URLSearchParams.t :=
  if truthy limit then [("limit", text limit)] else [].

Definition offset_part (offset : JsVal) : URLSearchParams.t :=
  if truthy offset then [("offset", text offset)] else [].

(** Whether every value [buildUrl] coerces for the options [ps] can be
    coerced: the filter values, the select, limit and offset options and
    the column and direction of the order, each where it is used. *)
Definition filters_coercible (filters : JsVal) : bool :=
  negb (truthy filters) || forallb (fun e => coercible (snd e)) (own_enumerable filters).

Definition option_coercible (v : JsVal) : bool := negb (truthy v) || coercible v.

Definition order_coercible (order : JsVal) : bool :=
  negb (truthy order)
  || (option_coercible (field order "column") && option_coercible (field order "direction")).

Definition options_coercible (ps : Props) : bool :=
  filters_coercible (prop ps "filters") && option_coercible (prop ps "select")
  && order_coercible (prop ps "order") && option_coercible (prop ps "limit")
  && option_coercible (prop ps "offset").

(** The keys of a value's own enumerable properties. *)
Definition keys (v : JsVal) : list string := map fst (own_enumerable v).

(** ** Sign-out *)

(** The header map sent with the logout request: a copy of the stored
    one, with the explicit token when one is given. *)
Definition logout_headers (s : State) (accessToken : JsVal) : Props :=
  if truthy accessToken
  then set_prop (own_entries (stored_headers s)) "Authorization"
         (JStr ("Bearer " +:+ text accessToken))
  else own_entries (stored_headers s).

(** The logout request. *)
Definition logout_request (s : State) (accessToken : JsVal) : Request :=
  mkRequest "POST" (supabaseUrl (this s) +:+ "/auth/v1/logout")
    (logout_headers s accessToken) JUndefined.

(** ** The CRUD surface *)

(** The options [query] hands to the builder: [options] with its
    [filters] entry set to [filters]. *)
Definition with_filters (options filters : JsVal) : JsVal :=
  JObj (set_prop (spread (default_arg options (JObj [])))
          "filters" (default_arg filters (JObj []))).

(** [options] with [limit = 1]. *)
Definition with_limit_one (options : JsVal) : JsVal :=
  JObj (set_prop (spread (default_arg options (JObj []))) "limit" (JNum 1)).

(** The single-key filter [{id: id}]. *)
Definition by_id (id : JsVal) : JsVal := JObj [("id", id)].

(** The first element of a sequence, or the absent value. *)
Definition first_or_absent (rows : list JsVal) : JsVal :=
  match rows with
  | [] => JNull
  | row :: _ => row
  end.

Definition is_crud (c : Call) : bool :=
  match c with
  | Read _ _ | Query _ _ _ | GetById _ _ _ | Insert _ _ | InsertMany _ _
  | Update _ _ _ | UpdateById _ _ _ | Delete _ _ | DeleteById _ _ => true
  | _ => false
  end.

(** What a CRUD call returns for a parsed success body: the body itself,
    except for [getById], which returns the first row of a sequence or the
    absent value. *)
Definition returned (c : Call) (body : JsVal) (o : Outcome JsVal) : Prop :=
  match c with
  | GetById _ _ _ => forall rows, body = JArr rows -> o = Return (first_or_absent rows)
  | _ => o = Return body
  end.

(** The first line of the console entry a failing call writes. *)
Definition log_label (c : Call) : string :=
  match c with
  | Read table _ => "Error reading from " +:+ table +:+ ":"
  | Query table _ _ => "Error querying " +:+ table +:+ ":"
  | GetById table _ _ => "Error getting " +:+ table +:+ " by ID:"
  | Insert table _ => "Error inserting into " +:+ table +:+ ":"
  | InsertMany table _ => "Error inserting multiple records into " +:+ table +:+ ":"
  | Update table _ _ | UpdateById table _ _ => "Error updating " +:+ table +:+ ":"
  | Delete table _ | DeleteById table _ => "Error deleting from " +:+ table +:+ ":"
  | SignUp _ _ _ => "Error signing up:"
  | SignIn _ _ => "Error signing in:"
  | SignOut _ => "Error signing out:"
  end.

Section Descriptor.
Variable JSON_stringify : JsVal -> JsVal.

(** The request descriptor (method, URL, headers, body) of a call, when
    one can be built. *)
Definition descriptor (c : Call) (s : State) : Outcome Request :=
  let select table options :=
    let? params := select_params options in
    Return (mkRequest "GET" (resource s table +:+ query_suffix params)
              (stored_headers s) JUndefined) in
  let filtered method table filters body :=
    let? entries := Object_entries filters in
    let? params := filter_params entries in
    Return (mkRequest method (resource s table +:+ query_suffix params)
              (stored_headers s) body) in
  match c with
  | Read table options => select table (default_arg options (JObj []))
  | Query table filters options => select table (with_filters options filters)
  | GetById table id options =>
      select table (with_filters (with_limit_one options) (by_id id))
  | Insert table data | InsertMany table data =>
      Return (mkRequest "POST" (resource s table) (stored_headers s) (JSON_stringify data))
  | Update table filters data => filtered "PATCH" table filters (JSON_stringify data)
  | UpdateById table id data => filtered "PATCH" table (by_id id) (JSON_stringify data)
  | Delete table filters => filtered "DELETE" table filters JUndefined
  | DeleteById table id => filtered "DELETE" table (by_id id) JUndefined
  | SignUp email password data =>
      Return (mkRequest "POST" (supabaseUrl (this s) +:+ "/auth/v1/signup")
                (stored_headers s)
                (JSON_stringify (JObj [("email", email); ("password", password);
                                       ("data", default_arg data (JObj []))])))
  | SignIn email password =>
      Return (mkRequest "POST"
                (supabaseUrl (this s) +:+ "/auth/v1/token?grant_type=password")
                (stored_headers s)
                (JSON_stringify (JObj [("email", email); ("password", password)])))
  | SignOut accessToken =>
      let? _ := if truthy accessToken then ToString accessToken else Return EmptyString in
      Return (logout_request s accessToken)
  end.

End Descriptor.

(** Response classification: the parsed body on a success status; on a
    failure status an error whose message is the [message] field of the
    parsed body, or the status text when the body has none, when that
    can be read and coerced. *)
Definition classify (res : FetchResult) : Outcome JsVal :=
  match res with
  | Rejected e => Throw e
  | Resolved r =>
      let? body := json r in
      if ok r then Return body
      else
        let? message := Get body "message" in
        let? text := ToString (js_or message (JStr (statusText r))) in
        Throw (new_Error ("Supabase Error: " +:+ text))
  end.

(** One round trip: the request is sent, the response classified, and a
    failure logged under [label]. *)
Definition round_trip (fetch : Request -> FetchResult) (label : string)
    (built : Outcome Request) (s : State) : Outcome JsVal * State * list Event :=
  match built with
  | Throw e => (Throw e, s, [EvConsole LError label (Some e)])
  | Return req =>
      match classify (fetch req) with
      | Return v => (Return v, s, [EvFetch req])
      | Throw e => (Throw e, s, [EvFetch req; EvConsole LError label (Some e)])
      end
  end.

(** The state once the copy has been made. *)
Definition after_copy (s : State) (accessToken : JsVal) : State :=
  mkState (this s) (store s ++ [logout_headers s accessToken]).

(** The state when the token cannot be written into the copy. *)
Definition after_alloc (s : State) : State :=
  mkState (this s) (store s ++ [own_entries (stored_headers s)]).

(** The effects of making the copy. *)
Definition copy_events (s : State) (accessToken : JsVal) : list Event :=
  EvAlloc (length (store s)) (own_entries (stored_headers s))
  :: (if truthy accessToken
      then [EvWrite (length (store s)) "Authorization"
              (JStr ("Bearer " +:+ text accessToken))]
      else []).

Definition anon_bearer (s : State) : JsVal :=
  JStr ("Bearer " +:+ supabaseKey (this s)).

(** The state once the stored [Authorization] header has been reset. *)
Definition reset (s : State) : State :=
  mkState (this s)
    (alter (fun o => set_prop o "Authorization" (anon_bearer s))
       (headers (this s)) (store s)).

(** What a refusal body is reported as: its [msg], else its [message],
    else the status text. *)
Definition logout_reason (r : Response) (body : JsVal) : JsVal :=
  js_or (js_or (field body "msg") (field body "message")) (JStr (statusText r)).

Definition logout_warning (r : Response) (body : JsVal) : string :=
  "Supabase Logout Warning: " +:+ text (logout_reason r body).

(** What the answer to the logout request amounts to: nothing to report,
    a warning for a rejection with a readable body, or an exception. *)
Definition logout_answer (r : Response) : Outcome (option JsVal) :=
  if ok r then Return None
  else
    let? body := json r in
    let? _ := Get body "msg" in
    let? _ := ToString (logout_reason r body) in
    Return (Some body).

(** The state once [setAuthToken(token)] has run. *)
Definition with_token (s : State) (token : JsVal) : State :=
  mkState (this s)
    (alter (fun o => set_prop o "Authorization" (JStr ("Bearer " +:+ text token)))
       (headers (this s)) (store s)).

(** ** Sessions *)

(** A call that sends the stored header map as it is. *)
Definition uses_stored_headers (c : Call) : bool :=
  match c with
  | SignOut accessToken => negb (truthy accessToken)
  | _ => true
  end.

(** A call that never writes the stored header map. *)
Definition keeps_credentials (c : Call) : bool :=
  match c with
  | SignIn _ _ | SignOut _ => false
  | _ => true
  end.

(** A caller issuing calls one after the other, each against the backend
    of the moment, and handling every outcome itself. *)
Fixpoint session (JSON_stringify : JsVal -> JsVal)
    (StringToNumber_positive : string -> bool)
    (calls : list ((Request -> FetchResult) * Call)) (s : State)
  : State * list Event :=
  match calls with
  | [] => (s, [])
  | (fetch, c) :: rest =>
      let '(_, s1, t1) := invoke fetch JSON_stringify StringToNumber_positive c s in
      let '(s2, t2) := session JSON_stringify StringToNumber_positive rest s1 in
      (s2, t1 ++ t2)
  end.

End Spec.

(** Concrete clients, backends and inputs for the examples. *)
Module Fixtures.
Import Js SupabaseClient.

(** A client as the test-suite builds it. *)
Definition test_client : State :=
  fst (constructor "https://test.supabase.co" "test-key" []).

(** The same client holding the token of a signed-in user. *)
Definition signed_in_client : State :=
  snd (fst (setAuthToken (JStr "user-jwt") test_client)).

(** A backend that gives the same answer to every request, as the
    [mockFetch] functions of the test-suite do. *)
Definition backend (answer : FetchResult) : Request -> FetchResult :=
  fun _ => answer.

Definition status (ok : bool) (statusText : string) (body : JsVal) : FetchResult :=
  Resolved (mkResponse ok statusText (Return body)).

(** A response whose body is not JSON. *)
Definition unparseable (ok : bool) (statusText : string) : FetchResult :=
  Resolved (mkResponse ok statusText
              (Throw (mkError "SyntaxError" "Unexpected token < in JSON at position 0"))).

(** The connection could not be made. *)
Definition network_down : FetchResult :=
  Rejected (mkError "TypeError" "Failed to fetch").

(** The host functions of the examples, none of which depends on how a
    body is serialized or reads a string as a number. *)
Definition any_serializer : JsVal -> JsVal := fun _ => JStr "<json>".
Definition no_numeric_strings : string -> bool := fun _ => false.

End Fixtures.

(* ===================================================================== *)
(** * The comment board *)
(* ===================================================================== *)

(** The utility of [comments.js] that prepares user text for
    [innerHTML]. *)
Module Comments.
Import Js.

(** [s.replace(/c/g, by)] for a single character [c] and a replacement
    text without [$]. *)
Fixpoint replace_all (c : ascii) (by_ : string) (s : string) : string :=
  match s with
  | EmptyString => EmptyString
  | String d rest =>
      (if Ascii.eqb d c then by_ else String d EmptyString) +:+ replace_all c by_ rest
  end.

(** The double quote. *)
Definition dquote : ascii := "034"%char.

Definition escapeHtml (text : JsVal) : Outcome string :=
  if negb (truthy text) then Return EmptyString
  else
    match text with
    | JStr s =>
        Return (replace_all "'" "&#039;"
                  (replace_all dquote "&quot;"
                     (replace_all ">" "&gt;"
                        (replace_all "<" "&lt;"
                           (replace_all "&" "&amp;" s)))))
    | _ => Throw (mkError "TypeError" "text.replace is not a function")
    end.

End Comments.

(** The handlers of [comments.js].  The page is seen through what a
    handler does to it: every [document.getElementById] of the script is
    taken to find its element, the form controls hold strings, and
    [localStorage] has room for the one item the script keeps.  As in
    the client, an awaited call runs to completion; a call that is not
    awaited ([loadComments()] in [submitComment]) is recorded where it
    is started, and what it does is the function's own run. *)
Module CommentBoard.
Import Js SupabaseClient Comments.

(** What a handler does, in the order it happens. *)
Inductive Effect : Type :=
| Client (e : Event)                        (* an effect of the Supabase client *)
| PreventDefault                            (* event.preventDefault() *)
| Alert (text : string)                     (* alert(text) *)
| Display (id mode : string)                (* element.style.display = mode *)
| TextContent (id text : string)            (* element.textContent = text *)
| InnerHTML (id html : string)              (* element.innerHTML = html *)
| AppendChild (id className html : string)  (* a new [div] appended to the element *)
| Value (id text : string)                  (* element.value = text *)
| SetItem (key text : string)               (* localStorage.setItem(key, text) *)
| RemoveItem (key : string)                 (* localStorage.removeItem(key) *)
| ConsoleError (text : string) (error : JsError)
| Started (function : string).              (* an async function called without [await] *)

(** The globals of the script and the item it keeps in [localStorage]. *)
Record Page : Type := mkPage {
  supabase : State;
  currentUser : JsVal;
  tripPlannerUser : option string
}.

(** A handler runs from a page to an outcome, a page and its effects. *)
Definition Handler (A : Type) : Type := Page -> Outcome A * Page * list Effect.

Definition pret {A} (a : A) : Handler A := fun p => (Return a, p, []).

Definition pthrow {A} (e : JsError) : Handler A := fun p => (Throw e, p, []).

Definition pbind {A B} (m : Handler A) (f : A -> Handler B) : Handler B :=
  fun p =>
    match m p with
    | (Return a, p1, t1) => let '(o, p2, t2) := f a p1 in (o, p2, t1 ++ t2)
    | (Throw e, p1, t1) => (Throw e, p1, t1)
    end.

(** [try { m } catch (error) { h error }] *)
Definition ptry {A} (m : Handler A) (h : JsError -> Handler A) : Handler A :=
  fun p =>
    match m p with
    | (Return a, p1, t1) => (Return a, p1, t1)
    | (Throw e, p1, t1) => let '(o, p2, t2) := h e p1 in (o, p2, t1 ++ t2)
    end.

Definition plift {A} (o : Outcome A) : Handler A := fun p => (o, p, []).

Definition effect (e : Effect) : Handler unit := fun p => (Return tt, p, [e]).

(** [await supabase.method(...)] *)
Definition await {A} (m : M A) : Handler A :=
  fun p =>
    let '(o, s, t) := m (supabase p) in
    (o, mkPage s (currentUser p) (tripPlannerUser p), map Client t).

Definition read_currentUser : Handler JsVal := fun p => (Return (currentUser p), p, []).

Definition write_currentUser (v : JsVal) : Handler unit :=
  fun p => (Return tt, mkPage (supabase p) v (tripPlannerUser p), []).

Definition localStorage_setItem (text : string) : Handler unit :=
  fun p => (Return tt, mkPage (supabase p) (currentUser p) (Some text),
            [SetItem "tripPlannerUser" text]).

Definition localStorage_removeItem : Handler unit :=
  fun p => (Return tt, mkPage (supabase p) (currentUser p) None,
            [RemoveItem "tripPlannerUser"]).

Declare Scope page_scope.
Delimit Scope page_scope with page.
Notation "x <- m ;; k" := (pbind m (fun x => k))
  (at level 100, m at next level, right associativity) : page_scope.
Notation "m ;; k" := (pbind m (fun _ => k))
  (at level 100, right associativity) : page_scope.
Local Open Scope page_scope.

(** [array.forEach(f)] *)
Fixpoint forEach {A} (f : A -> Handler unit) (items : list A) : Handler unit :=
  match items with
  | [] => pret tt
  | item :: rest => f item ;; forEach f rest
  end.

(** ** String helpers *)

(** The white space and line terminators among the code units below
    256: tab, line feed, vertical tab, form feed, carriage return, space
    and no-break space. *)
Definition is_space (c : ascii) : bool :=
  let n := nat_of_ascii c in
  (Nat.eqb n 9 || Nat.eqb n 10 || Nat.eqb n 11 || Nat.eqb n 12 || Nat.eqb n 13
   || Nat.eqb n 32 || Nat.eqb n 160)%bool.

Fixpoint trimStart (s : string) : string :=
  match s with
  | EmptyString => EmptyString
  | String c rest => if is_space c then trimStart rest else s
  end.

Fixpoint trimEnd (s : string) : string :=
  match s with
  | EmptyString => EmptyString
  | String c rest =>
      match trimEnd rest with
      | EmptyString => if is_space c then EmptyString else String c EmptyString
      | kept => String c kept
      end
  end.

(** [s.trim()] *)
Definition trim (s : string) : string := trimEnd (trimStart s).

(** ** Markup *)

Definition newline : string := String "010" EmptyString.

Fixpoint spaces (n : nat) : string :=
  match n with
  | O => EmptyString
  | S m => String " " (spaces m)
  end.

(** An attribute value between double quotes. *)
Definition quoted (v : string) : string :=
  String dquote (v +:+ String dquote EmptyString).

Definition business_badge : string :=
  "<span class=" +:+ quoted "business-badge" +:+ ">Shop Owner</span>".

(** The template literal assigned to [card.innerHTML], with its four
    interpolations. *)
Definition card_html (nickname badge date content : string) : string :=
  newline +:+ spaces 16 +:+ "<div class=" +:+ quoted "comment-header" +:+ ">"
  +:+ newline +:+ spaces 20 +:+ "<div class=" +:+ quoted "comment-author" +:+ ">"
  +:+ newline +:+ spaces 24 +:+ nickname
  +:+ newline +:+ spaces 24 +:+ badge
  +:+ newline +:+ spaces 20 +:+ "</div>"
  +:+ newline +:+ spaces 20 +:+ "<div class=" +:+ quoted "comment-date" +:+ ">"
  +:+ date +:+ "</div>"
  +:+ newline +:+ spaces 16 +:+ "</div>"
  +:+ newline +:+ spaces 16 +:+ "<div class=" +:+ quoted "comment-body" +:+ ">"
  +:+ newline +:+ spaces 20 +:+ content
  +:+ newline +:+ spaces 16 +:+ "</div>"
  +:+ newline +:+ spaces 12.

Section Host.

Variable fetch : Request -> FetchResult.
Variable JSON_stringify : JsVal -> JsVal.
Variable StringToNumber_positive : string -> bool.

(** [new Date().toISOString()], the clock being the host's. *)
Variable now : string.

(** [new Date(p).toLocaleDateString()] for a primitive [p]: the date the
    host reads from it, in the host's locale. *)
Variable toLocaleDateString : JsVal -> string.

(** [document.getElementById(id).value], what the controls hold when the
    handler starts. *)
Variable value : string -> string.

(** [v && v.length > 0], as a condition. *)
Definition has_rows (v : JsVal) : Handler bool :=
  if truthy v then
    length <- plift (Get v "length") ;;
    plift (gt_zero StringToNumber_positive length)
  else pret false.

(** ** Session display *)

Definition updateUIForLoggedInUser : Handler unit :=
  effect (Display "authButtons" "none") ;;
  effect (Display "userControls" "block") ;;
  user <- read_currentUser ;;
  nickname <- plift (Get user "nickname") ;;
  greeted <- plift (ToString nickname) ;;
  effect (TextContent "userGreeting" ("Welcome, " +:+ greeted)) ;;
  effect (Display "commentInputSection" "block") ;;
  effect (Display "loginPrompt" "none").

Definition updateUIForLoggedOutUser : Handler unit :=
  effect (Display "authButtons" "block") ;;
  effect (Display "userControls" "none") ;;
  effect (Display "commentInputSection" "none") ;;
  effect (Display "loginPrompt" "block").

Definition logout : Handler JsVal :=
  localStorage_removeItem ;;
  write_currentUser JNull ;;
  updateUIForLoggedOutUser ;;
  effect (Alert "Logged out successfully") ;;
  pret JUndefined.

Definition closeRegisterForm : Handler unit := effect (Display "registerModal" "none").

Definition closeLoginForm : Handler unit := effect (Display "loginModal" "none").

(** ** Registration and login *)

Definition handleRegister : Handler JsVal :=
  effect PreventDefault ;;
  let nickname := value "nickname" in
  let email := value "email" in
  let password := value "password" in
  let type := value "accountType" in
  let businessName := value "businessName" in
  ptry
    ((* Check if user already exists *)
     existingUsers <- await (query fetch "users" (JObj [("nickname", JStr nickname)])
                               JUndefined) ;;
     taken <- has_rows existingUsers ;;
     if taken : bool then
       effect (Alert "Nickname already taken") ;;
       pret JUndefined
     else
       let newUser :=
         JObj [("nickname", JStr nickname);
               ("email", JStr email);
               ("password", JStr password);
               ("role", JStr type);
               ("business_name",
                if String.eqb type "business" then JStr businessName else JNull);
               ("created_at", JStr now)] in
       result <- await (insert fetch JSON_stringify "users" newUser) ;;
       inserted <- has_rows result ;;
       if inserted : bool then
         effect (Alert "Registration successful! Please login.") ;;
         closeRegisterForm ;;
         pret JUndefined
       else
         effect (Alert "Registration request sent. Please try logging in.") ;;
         closeRegisterForm ;;
         pret JUndefined)
    (fun error =>
       effect (ConsoleError "Registration error:" error) ;;
       effect (Alert ("Registration failed: " +:+ message error)) ;;
       pret JUndefined).

Definition handleLogin : Handler JsVal :=
  effect PreventDefault ;;
  let nickname := value "loginNickname" in
  let password := value "loginPassword" in
  ptry
    (users <- await (query fetch "users"
                       (JObj [("nickname", JStr nickname); ("password", JStr password)])
                       JUndefined) ;;
     found <- has_rows users ;;
     if found : bool then
       first <- plift (Get users "0") ;;
       write_currentUser first ;;
       user <- read_currentUser ;;
       stored <- plift (ToString (JSON_stringify user)) ;;
       localStorage_setItem stored ;;
       updateUIForLoggedInUser ;;
       closeLoginForm ;;
       effect (Alert "Login successful!") ;;
       pret JUndefined
     else
       effect (Alert "Invalid nickname or password") ;;
       pret JUndefined)
    (fun error =>
       effect (ConsoleError "Login error:" error) ;;
       effect (Alert ("Login failed: " +:+ message error)) ;;
       pret JUndefined).

(** ** Comments *)

(** The body of the [forEach] callback of [loadComments]. *)
Definition render (comment : JsVal) : Handler unit :=
  created_at <- plift (Get comment "created_at") ;;
  (* new Date(value) first brings an object to a primitive *)
  primitive <- plift (ToPrimitive created_at) ;;
  let date := toLocaleDateString primitive in
  user_role <- plift (Get comment "user_role") ;;
  let isBusiness :=
    match user_role with JStr role => String.eqb role "business" | _ => false end in
  user_nickname <- plift (Get comment "user_nickname") ;;
  nickname <- plift (escapeHtml user_nickname) ;;
  content <- plift (Get comment "content") ;;
  body <- plift (escapeHtml content) ;;
  effect (AppendChild "commentsList" "comment-card"
            (card_html nickname (if isBusiness then business_badge else EmptyString)
               date body)).

Definition loadComments : Handler JsVal :=
  effect (InnerHTML "commentsList" "<p>Loading comments...</p>") ;;
  ptry
    ((* Fetch comments ordered by date (descending) *)
     comments <- await (read fetch "comments"
                          (JObj [("order", JObj [("column", JStr "created_at");
                                                 ("direction", JStr "desc")]);
                                 ("limit", JNum 50)])) ;;
     effect (InnerHTML "commentsList" EmptyString) ;;
     none <- (if negb (truthy comments) then pret true
              else
                length <- plift (Get comments "length") ;;
                pret (match length with JNum 0 => true | _ => false end)) ;;
     if none : bool then
       effect (InnerHTML "commentsList" "<p>No comments yet. Be the first to share!</p>") ;;
       pret JUndefined
     else
       match comments with
       | JArr items => forEach render items ;; pret JUndefined
       | _ => pthrow (mkError "TypeError" "comments.forEach is not a function")
       end)
    (fun error =>
       effect (ConsoleError "Error loading comments:" error) ;;
       effect (InnerHTML "commentsList"
                 "<p>Error loading comments. Please try again later.</p>") ;;
       pret JUndefined).

Definition submitComment : Handler JsVal :=
  user <- read_currentUser ;;
  if negb (truthy user) then
    effect (Alert "Please login to post a comment") ;;
    pret JUndefined
  else
    let content := trim (value "commentText") in
    if negb (truthy (JStr content)) then
      effect (Alert "Please write something!") ;;
      pret JUndefined
    else
      ptry
        (user <- read_currentUser ;;
         user_id <- plift (Get user "id") ;;
         user_nickname <- plift (Get user "nickname") ;;
         user_role <- plift (Get user "role") ;;
         let newComment :=
           JObj [("user_id", user_id);
                 ("user_nickname", user_nickname);
                 ("user_role", user_role);
                 ("content", JStr content);
                 ("created_at", JStr now)] in
         await (insert fetch JSON_stringify "comments" newComment) ;;
         effect (Value "commentText" EmptyString) ;;
         (* Reload comments to show the new one *)
         effect (Started "loadComments") ;;
         effect (Alert "Comment posted!") ;;
         pret JUndefined)
        (fun error =>
           effect (ConsoleError "Error posting comment:" error) ;;
           effect (Alert ("Failed to post comment: " +:+ message error)) ;;
           pret JUndefined).

End Host.
End CommentBoard.

(** Observations used by the statements on the remaining code. *)
Module Observations.
Import Js SupabaseClient Spec Comments CommentBoard.

(** The characters of a string. *)
Definition chars (s : string) : list ascii := list_ascii_of_string s.

(** The number of occurrences of [c] in [s]. *)
Definition occurrences (c : ascii) (s : string) : nat :=
  length (List.filter (Ascii.eqb c) (chars s)).

(** The characters a serialized query string is made of: the unreserved
    ones, [+] and [%] from the encoding, and the separators [=] and [&]. *)
Definition query_char (c : ascii) : bool :=
  URLSearchParams.unreserved c
  || Ascii.eqb c "+" || Ascii.eqb c "%" || Ascii.eqb c "=" || Ascii.eqb c "&".

(** The characters an encoded name or value is made of. *)
Definition encoded_char (c : ascii) : bool :=
  URLSearchParams.unreserved c || Ascii.eqb c "+" || Ascii.eqb c "%".

(** The five characters [escapeHtml] rewrites. *)
Definition markup_char (c : ascii) : bool :=
  Ascii.eqb c "&" || Ascii.eqb c "<" || Ascii.eqb c ">" || Ascii.eqb c dquote
  || Ascii.eqb c "'".

(** The four characters that open a tag or close an attribute value. *)
Definition raw_markup (c : ascii) : bool :=
  Ascii.eqb c "<" || Ascii.eqb c ">" || Ascii.eqb c dquote || Ascii.eqb c "'".

(** The entity of a markup character; any other character stands for
    itself. *)
Definition entity (c : ascii) : string :=
  if Ascii.eqb c "&" then "&amp;"
  else if Ascii.eqb c "<" then "&lt;"
  else if Ascii.eqb c ">" then "&gt;"
  else if Ascii.eqb c dquote then "&quot;"
  else if Ascii.eqb c "'" then "&#039;"
  else String c EmptyString.

(** One pass over the text, each character replaced by its entity. *)
Fixpoint escaped (s : string) : string :=
  match s with
  | EmptyString => EmptyString
  | String c rest => entity c +:+ escaped rest
  end.

(** The header map every instance holds: the four fixed headers, in the
    order the constructor writes them, with some bearer value. *)
Definition header_map (key : string) (bearer : JsVal) : Props :=
  [("apikey", JStr key);
   ("Authorization", bearer);
   ("Content-Type", JStr "application/json");
   ("Prefer", JStr "return=representation")].

(** The stored header map has that shape, with the API key of the
    instance. *)
Definition canonical (s : State) : Prop :=
  exists bearer,
    store s !! headers (this s) = Some (header_map (supabaseKey (this s)) bearer).

(** A parsed body that has no [length]: a number, a boolean, or an
    object without that property. *)
Definition lengthless (body : JsVal) : bool :=
  match body with
  | JNum _ | JBool _ => true
  | JObj o => match lookup_prop "length" o with None => true | Some _ => false end
  | _ => false
  end.

(** A number or a boolean. *)
Definition number_or_boolean (v : JsVal) : bool :=
  match v with JNum _ | JBool _ => true | _ => false end.

(** ** The comment board *)

(** The three components of a finished handler. *)
Definition result_of {A} (r : Outcome A * Page * list Effect) : Outcome A := fst (fst r).
Definition page_of {A} (r : Outcome A * Page * list Effect) : Page := snd (fst r).
Definition effects_of {A} (r : Outcome A * Page * list Effect) : list Effect := snd r.

(** The texts of the alerts, in order. *)
Definition alerts (t : list Effect) : list string :=
  omap (fun e => match e with Alert text => Some text | _ => None end) t.

(** The requests the client handed to [fetch], in order. *)
Definition sent (t : list Effect) : list Request :=
  omap (fun e => match e with Client (EvFetch r) => Some r | _ => None end) t.

(** What one effect does to the content of the element [id]: an
    assignment to [innerHTML] replaces it, an appended child comes
    last. *)
Definition shown_step (id : string) (held : list string) (e : Effect) : list string :=
  match e with
  | InnerHTML id' html =>
      if String.eqb id' id
      then (if String.eqb html EmptyString then [] else [html])
      else held
  | AppendChild id' _ html => if String.eqb id' id then held ++ [html] else held
  | _ => held
  end.

(** What the element [id] holds once the effects have happened, as the
    markup assigned to it followed by that of the children appended
    since. *)
Definition shown (id : string) (t : list Effect) : list string :=
  fold_left (shown_step id) t [].

(** The options [loadComments] reads the comments with. *)
Definition newest_first : JsVal :=
  JObj [("order", JObj [("column", JStr "created_at"); ("direction", JStr "desc")]);
        ("limit", JNum 50)].

(** An answer that counts as holding rows: truthy, with a [length]
    above zero. *)
Definition holds_rows (StringToNumber_positive : string -> bool) (v : JsVal) : bool :=
  truthy v && above_zero StringToNumber_positive (field v "length").

(** Whether [v && v.length > 0] can be evaluated: the [length] of a
    truthy [v] can be brought to a primitive. *)
Definition countable (v : JsVal) : bool :=
  negb (truthy v) || coercible (field v "length").

(** A value as [new Date] reads it: a primitive as it is, an array or an
    object as its text. *)
Definition primitive_of (v : JsVal) : JsVal :=
  match v with
  | JArr _ | JObj _ => JStr (text v)
  | _ => v
  end.

(** A text consisting of white space only. *)
Definition blank (s : string) : bool := forallb is_space (chars s).

(** A value [escapeHtml] accepts: a string, or anything falsy. *)
Definition text_like (v : JsVal) : bool :=
  match v with JStr _ => true | _ => negb (truthy v) end.

(** The escaped form of an accepted value. *)
Definition escaped_text (v : JsVal) : string :=
  match v with JStr s => escaped s | _ => EmptyString end.

(** A comment [loadComments] can render: it is an object whose date can
    be brought to a primitive and whose nickname and content
    [escapeHtml] accepts. *)
Definition displayable (comment : JsVal) : bool :=
  negb (nullish comment)
  && coercible (field comment "created_at")
  && text_like (field comment "user_nickname")
  && text_like (field comment "content").

Definition badge_of (comment : JsVal) : string :=
  match field comment "user_role" with
  | JStr role => if String.eqb role "business" then business_badge else EmptyString
  | _ => EmptyString
  end.

(** The card of a comment: the template around the escaped nickname and
    content, the badge and the date. *)
Definition card_of (toLocaleDateString : JsVal -> string) (comment : JsVal) : string :=
  card_html (escaped_text (field comment "user_nickname")) (badge_of comment)
    (toLocaleDateString (primitive_of (field comment "created_at")))
    (escaped_text (field comment "content")).

(** The markup of the children appended to the element [id], in
    order. *)
Definition children (id : string) (t : list Effect) : list string :=
  omap (fun e => match e with
                 | AppendChild id' _ html => if String.eqb id' id then Some html else None
                 | _ => None
                 end) t.

(** Appending the card of a comment to the list. *)
Definition appended (toLocaleDateString : JsVal -> string) (comment : JsVal) : Effect :=
  AppendChild "commentsList" "comment-card" (card_of toLocaleDateString comment).

(** The number of characters of [s] that open or close a tag or an
    attribute value. *)
Definition markup_count (s : string) : nat := length (List.filter raw_markup (chars s)).

(** The longest prefix of displayable comments. *)
Fixpoint displayable_prefix (comments : list JsVal) : list JsVal :=
  match comments with
  | [] => []
  | comment :: rest =>
      if displayable comment then comment :: displayable_prefix rest else []
  end.

End Observations.

(* ===================================================================== *)
(** * Properties of the JavaScript fragment *)
(* ===================================================================== *)

Section JsFacts.
Import Js.

Lemma insert_by_index_perm e l : Permutation (insert_by_index e l) (e :: l).
Proof.
  induction l as [|e' l IH]; simpl; [reflexivity|].
  destruct (index_of e.1 <=? index_of e'.1)%N; [reflexivity|].
  rewrite IH. apply perm_swap.
Qed.

Lemma sort_by_index_perm l : Permutation (sort_by_index l) l.
Proof.
  induction l as [|e l IH]; simpl; [reflexivity|].
  rewrite insert_by_index_perm. by constructor.
Qed.

Lemma filter_split_perm {A} (f : A -> bool) l :
  Permutation (List.filter f l ++ List.filter (fun x => negb (f x)) l) l.
Proof.
  induction l as [|x l IH]; simpl; [reflexivity|].
  destruct (f x); simpl.
  - by constructor.
  - rewrite <- Permutation_middle. by constructor.
Qed.

Lemma insert_by_index_hd e a l :
  index_le a e -> HdRel index_le a l -> HdRel index_le a (insert_by_index e l).
Proof.
  intros Hae Hal. destruct l as [|b l]; simpl; [by constructor|].
  destruct (index_of e.1 <=? index_of b.1)%N; constructor; [done|].
  by inversion Hal.
Qed.

Lemma insert_by_index_sorted e l :
  Sorted index_le l -> Sorted index_le (insert_by_index e l).
Proof.
  induction 1 as [|b l Hs IH Hhd]; simpl; [by repeat constructor|].
  destruct (index_of e.1 <=? index_of b.1)%N eqn:E.
  - apply N.leb_le in E. constructor; [by constructor|by constructor].
  - apply N.leb_gt in E. constructor; [done|].
    apply insert_by_index_hd; [|done]. unfold index_le. lia.
Qed.

(** The array-index block of an enumeration ascends. *)
Lemma sort_by_index_sorted l : Sorted index_le (sort_by_index l).
Proof.
  induction l as [|e l IH]; simpl; [constructor|]. by apply insert_by_index_sorted.
Qed.

(** [Object.entries] enumerates every own property once. *)
Lemma own_entries_perm ps : Permutation (own_entries ps) ps.
Proof.
  unfold own_entries. rewrite sort_by_index_perm. apply filter_split_perm.
Qed.

(** Without array-index keys the enumeration is the creation order. *)
Lemma own_entries_no_index ps :
  Forall (fun e => is_array_index (fst e) = false) ps -> own_entries ps = ps.
Proof.
  intros H. unfold own_entries.
  assert (List.filter (fun e => is_array_index e.1) ps = []) as ->.
  { induction H as [|e l He _ IH]; simpl; [done|]. by rewrite He. }
  simpl. induction H as [|e l He _ IH]; simpl; [done|].
  rewrite He. simpl. by rewrite IH.
Qed.

Lemma lookup_prop_In k v ps : lookup_prop k ps = Some v -> In (k, v) ps.
Proof.
  induction ps as [|[k' v'] ps IH]; simpl; [done|].
  destruct (String.eqb_spec k' k) as [->|Hne].
  - intros [= ->]. by left.
  - intros H. right. auto.
Qed.

Lemma In_lookup_prop k v ps : wf_props ps -> In (k, v) ps -> lookup_prop k ps = Some v.
Proof.
  unfold wf_props. induction ps as [|[k' v'] ps IH]; simpl; [done|].
  intros Hnd Hin. apply NoDup_cons in Hnd as [Hk Hnd].
  destruct (String.eqb_spec k' k) as [->|Hne].
  - destruct Hin as [[= ->]|Hin]; [done|].
    exfalso. apply Hk. apply list_elem_of_In. apply (in_map fst) in Hin. exact Hin.
  - destruct Hin as [[= Hkk _]|Hin]; [done|]. auto.
Qed.

Lemma lookup_prop_perm k ps qs :
  wf_props ps -> Permutation ps qs -> lookup_prop k qs = lookup_prop k ps.
Proof.
  intros Hwf Hp.
  assert (wf_props qs) as Hwfq.
  { unfold wf_props in *. by rewrite <- Hp. }
  destruct (lookup_prop k ps) as [v|] eqn:E.
  - apply In_lookup_prop; [done|]. eapply Permutation_in; [exact Hp|].
    by apply lookup_prop_In.
  - destruct (lookup_prop k qs) as [v|] eqn:E'; [|done].
    apply lookup_prop_In in E'. apply Permutation_sym in Hp.
    eapply Permutation_in in E'; [|exact Hp].
    apply In_lookup_prop in E'; [|done]. congruence.
Qed.

(** Reading a property of a well-formed object does not depend on the
    order in which its properties are enumerated. *)
Lemma prop_own_entries ps k : wf_props ps -> prop (own_entries ps) k = prop ps k.
Proof.
  intros Hwf. unfold prop.
  rewrite (lookup_prop_perm k ps (own_entries ps)); [done|done|].
  symmetry. apply own_entries_perm.
Qed.

Lemma wf_props_own_entries ps : wf_props ps -> wf_props (own_entries ps).
Proof.
  unfold wf_props. intros H. by rewrite own_entries_perm.
Qed.

Lemma lookup_set_prop_eq ps k v : lookup_prop k (set_prop ps k v) = Some v.
Proof.
  induction ps as [|[k' v'] ps IH]; simpl.
  - by rewrite String.eqb_refl.
  - destruct (String.eqb_spec k' k) as [->|Hne]; simpl.
    + by rewrite String.eqb_refl.
    + apply String.eqb_neq in Hne. by rewrite Hne.
Qed.

Lemma lookup_set_prop_ne ps k k' v :
  k <> k' -> lookup_prop k' (set_prop ps k v) = lookup_prop k' ps.
Proof.
  intros Hne. induction ps as [|[k0 v0] ps IH]; simpl.
  - apply String.eqb_neq in Hne. by rewrite Hne.
  - destruct (String.eqb_spec k0 k) as [->|Hne0]; simpl.
    + apply String.eqb_neq in Hne. by rewrite Hne.
    + by rewrite IH.
Qed.

Lemma prop_set_prop_eq ps k v : prop (set_prop ps k v) k = v.
Proof. unfold prop. by rewrite lookup_set_prop_eq. Qed.

Lemma prop_set_prop_ne ps k k' v : k <> k' -> prop (set_prop ps k v) k' = prop ps k'.
Proof. intros. unfold prop. by rewrite lookup_set_prop_ne. Qed.

Lemma set_prop_keys ps k v :
  map fst (set_prop ps k v) = if decide (k ∈ map fst ps) then map fst ps else map fst ps ++ [k].
Proof.
  induction ps as [|[k0 v0] ps IH].
  - cbn [set_prop map fst]. destruct (decide (k ∈ [])) as [H|H]; [|done].
    by apply elem_of_nil in H.
  - cbn [set_prop]. destruct (String.eqb_spec k0 k) as [->|Hne0]; cbn [map fst].
    + destruct (decide (k ∈ k :: map fst ps)) as [H|H]; [done|].
      exfalso. apply H. apply elem_of_cons. by left.
    + rewrite IH. destruct (decide (k ∈ map fst ps)) as [Hin|Hnin];
        destruct (decide (k ∈ k0 :: map fst ps)) as [H|H]; try done.
      * exfalso. apply H. apply elem_of_cons. by right.
      * apply elem_of_cons in H as [H|H]; [by subst|done].
Qed.

Lemma wf_props_set_prop ps k v : wf_props ps -> wf_props (set_prop ps k v).
Proof.
  unfold wf_props. intros H. rewrite set_prop_keys.
  destruct (decide (k ∈ map fst ps)); [done|].
  apply NoDup_app. split; [done|]. split.
  - intros x Hx Hx'. apply list_elem_of_singleton in Hx'. by subst.
  - apply NoDup_singleton.
Qed.

(** Induction on values, through arrays and objects. *)
Lemma JsVal_nested_ind (P : JsVal -> Prop) :
  P JUndefined -> P JNull -> (forall b, P (JBool b)) -> (forall n, P (JNum n)) ->
  (forall s, P (JStr s)) ->
  (forall items, Forall P items -> P (JArr items)) ->
  (forall props, Forall (fun e => P (snd e)) props -> P (JObj props)) ->
  forall v, P v.
Proof.
  intros Hu Hn Hb Hz Hs Ha Ho.
  fix IH 1. intros [| |b|n|s|items|props].
  - exact Hu.
  - exact Hn.
  - apply Hb.
  - apply Hz.
  - apply Hs.
  - apply Ha. induction items as [|x items IHl]; constructor; [apply IH|exact IHl].
  - apply Ho. induction props as [|[k x] props IHl]; constructor; [apply IH|exact IHl].
Qed.

End JsFacts.

(* ===================================================================== *)
(** * String coercion *)
(* ===================================================================== *)

Section Coercion.
Import Js SupabaseClient Spec.

(** String coercion either gives the text of the value or raises the one
    [TypeError], and which of the two is decided by [coercible]. *)
Lemma ToString_text v :
  ToString v = if coercible v then Return (text v) else Throw not_primitive.
Proof.
  induction v as [| |[]|n|s|items IH|props _] using JsVal_nested_ind; try reflexivity.
  - cbn [ToString coercible text].
    match goal with
    | |- match ?each items with _ => _ end = _ =>
        assert (each items
                = if forallb coercible items
                  then Return (map (fun x => match x with
                                             | JUndefined | JNull => EmptyString
                                             | _ => text x
                                             end) items)
                  else Throw not_primitive) as ->
    end.
    { induction IH as [|x items Hx _ IHl]; [reflexivity|].
      cbn [forallb map]. rewrite IHl.
      destruct x; try (rewrite Hx); cbn [coercible andb];
        try (destruct (forallb coercible items); reflexivity).
      - destruct (forallb coercible items0); cbn [andb];
          destruct (forallb coercible items); reflexivity.
      - destruct (lookup_prop "toString" props); cbn [andb];
          destruct (forallb coercible items); reflexivity. }
    by destruct (forallb coercible items).
  - cbn [ToString coercible text]. by destruct (lookup_prop "toString" props).
Qed.

Lemma ToString_coercible v : coercible v = true -> ToString v = Return (text v).
Proof. intros H. by rewrite ToString_text, H. Qed.

Lemma ToString_refused v : coercible v = false -> ToString v = Throw not_primitive.
Proof. intros H. by rewrite ToString_text, H. Qed.

(** A primitive is always coercible. *)
Lemma coercible_primitive v :
  (forall items, v <> JArr items) -> (forall props, v <> JObj props) -> coercible v = true.
Proof. intros Ha Ho. destruct v; try reflexivity; [by destruct (Ha items)|by destruct (Ho props)]. Qed.

Lemma gt_zero_above StringToNumber_positive v :
  gt_zero StringToNumber_positive v
  = if coercible v then Return (above_zero StringToNumber_positive v)
    else Throw not_primitive.
Proof.
  unfold gt_zero, ToPrimitive.
  destruct v as [| |b|n|s|items|props]; try reflexivity;
    rewrite ToString_text; by destruct (coercible _).
Qed.

Lemma Get_not_nullish body k : nullish body = false -> Get body k = Return (field body k).
Proof. by destruct body. Qed.

Lemma Get_nullish body k : nullish body = true -> exists e, Get body k = Throw e.
Proof. destruct body; try discriminate; intros _; eexists; reflexivity. Qed.

End Coercion.

(* ===================================================================== *)
(** * Properties of the query-string builder *)
(* ===================================================================== *)

Section UrlFacts.
Import Js SupabaseClient Spec.

Lemma append_empty_inv (a b : string) : a +:+ b = EmptyString -> a = EmptyString /\ b = EmptyString.
Proof. destruct a; simpl; [done|discriminate]. Qed.

Lemma append_empty_r (a : string) : a +:+ EmptyString = a.
Proof. induction a as [|c a IH]; [done|]. simpl. by rewrite IH. Qed.

Lemma join_empty_inv sep p ps : join sep (p :: ps) = EmptyString -> p = EmptyString.
Proof.
  destruct ps as [|q ps]; simpl; [done|].
  intros H. by apply append_empty_inv in H as [-> _].
Qed.

Lemma encode_pair_nonempty p : URLSearchParams.encode_pair p <> EmptyString.
Proof.
  unfold URLSearchParams.encode_pair. intros H.
  apply append_empty_inv in H as [_ H]. discriminate.
Qed.

(** A query string is empty exactly when there is no parameter. *)
Lemma toString_empty_inv params : URLSearchParams.toString params = EmptyString -> params = [].
Proof.
  destruct params as [|p ps]; [done|].
  unfold URLSearchParams.toString. simpl map. intros H.
  apply join_empty_inv in H. by apply encode_pair_nonempty in H.
Qed.

Lemma truthy_toString params :
  truthy (JStr (URLSearchParams.toString params)) = match params with [] => false | _ => true end.
Proof.
  destruct params as [|p ps]; [done|]. simpl.
  destruct (String.eqb_spec (URLSearchParams.toString (p :: ps)) EmptyString) as [H|H]; [|done].
  by apply toString_empty_inv in H.
Qed.

(** The suffix [buildUrl], [update] and [delete] add to the resource URL. *)
Lemma query_suffix_correct base params :
  (if truthy (JStr (URLSearchParams.toString params))
   then base +:+ "?" +:+ URLSearchParams.toString params else base)
  = base +:+ query_suffix params.
Proof.
  rewrite truthy_toString. destruct params; [|done].
  cbn [query_suffix]. by rewrite append_empty_r.
Qed.

(** The loop over the filter entries: one parameter per entry, unless a
    value cannot be coerced. *)
Lemma ofold_eq_params entries acc :
  ofold (fun ps '(key, value) =>
           let? text := ToString value in
           Return (URLSearchParams.append ps key ("eq." +:+ text))) entries acc
  = if forallb (fun e => coercible (snd e)) entries
    then Return (acc ++ map eq_param entries)
    else Throw not_primitive.
Proof.
  revert acc. induction entries as [|[k v] es IH]; intros acc; cbn [ofold forallb map snd].
  - by rewrite app_nil_r.
  - rewrite ToString_text. destruct (coercible v); cbn [obind andb]; [|reflexivity].
    rewrite IH. unfold URLSearchParams.append, eq_param. cbn [fst snd].
    by rewrite <- app_assoc.
Qed.

Lemma filter_params_eq entries :
  filter_params entries
  = if forallb (fun e => coercible (snd e)) entries
    then Return (map eq_param entries)
    else Throw not_primitive.
Proof. unfold filter_params. by rewrite ofold_eq_params. Qed.

Lemma urlencode_app a b :
  URLSearchParams.urlencode (a +:+ b)
  = URLSearchParams.urlencode a +:+ URLSearchParams.urlencode b.
Proof.
  induction a as [|c a IH]; [done|]. simpl. rewrite IH.
  generalize (URLSearchParams.encode_unit c). intros u.
  induction u as [|d u IHu]; [done|]. simpl. by rewrite IHu.
Qed.

Lemma urlencode_plain s : plain s = true -> URLSearchParams.urlencode s = s.
Proof.
  induction s as [|c s IH]; [done|]. simpl.
  intros [Hc Hs]%andb_true_iff. unfold URLSearchParams.encode_unit.
  rewrite Hc, (IH Hs). reflexivity.
Qed.

(** A filter on plain text is written literally, as [k=eq.v]. *)
Lemma encode_eq_param_plain k v :
  plain k = true -> plain (text v) = true ->
  URLSearchParams.encode_pair (eq_param (k, v)) = k +:+ "=eq." +:+ text v.
Proof.
  intros Hk Hv. unfold URLSearchParams.encode_pair, eq_param. cbn [fst snd].
  rewrite urlencode_app, (urlencode_plain k Hk), (urlencode_plain _ Hv). reflexivity.
Qed.

Lemma Object_entries_truthy v :
  truthy v = true -> Object_entries v = Return (own_enumerable v).
Proof. by destruct v. Qed.

Lemma Get_truthy v k : truthy v = true -> Get v k = Return (field v k).
Proof. by destruct v. Qed.

(** One guarded [params.append(name, option)]. *)
Lemma append_option (params : URLSearchParams.t) name v :
  (if truthy v then
     let? text := ToString v in
     Return (URLSearchParams.append params name text)
   else Return params)
  = if option_coercible v
    then Return (params ++ if truthy v then [(name, text v)] else [])
    else Throw not_primitive.
Proof.
  unfold option_coercible. destruct (truthy v); cbn [negb orb].
  - rewrite ToString_text. by destruct (coercible v).
  - by rewrite app_nil_r.
Qed.

(** The parameters [buildUrl] emits for an options object: one block per
    recognised option, in the order of the source, unless one of the
    values it coerces cannot be coerced. *)
Lemma select_params_object ps :
  select_params (JObj ps)
  = if options_coercible ps
    then Return (filters_part (prop ps "filters") ++ select_part (prop ps "select")
                 ++ order_part (prop ps "order") ++ limit_part (prop ps "limit")
                 ++ offset_part (prop ps "offset"))
    else Throw not_primitive.
Proof.
  unfold select_params, options_coercible. cbn [Get obind].
  assert ((if truthy (prop ps "filters") then
             let? entries := Object_entries (prop ps "filters") in
             ofold (fun ps0 '(key, value) =>
                      let? text := ToString value in
                      Return (URLSearchParams.append ps0 key ("eq." +:+ text)))
                   entries URLSearchParams.empty
           else Return URLSearchParams.empty)
          = if filters_coercible (prop ps "filters")
            then Return (filters_part (prop ps "filters"))
            else Throw not_primitive) as ->.
  { unfold filters_coercible, filters_part. destruct (truthy (prop ps "filters")) eqn:Ef.
    - rewrite (Object_entries_truthy _ Ef). cbn [obind negb orb].
      by rewrite ofold_eq_params.
    - reflexivity. }
  destruct (filters_coercible (prop ps "filters")); cbn [obind andb]; [|reflexivity].
  rewrite append_option. fold (select_part (prop ps "select")).
  destruct (option_coercible (prop ps "select")); cbn [obind andb]; [|reflexivity].
  assert (forall params : URLSearchParams.t,
             (if truthy (prop ps "order") then
                let? column := Get (prop ps "order") "column" in
                let? direction := Get (prop ps "order") "direction" in
                let? by_ := ToString (js_or column (JStr "id")) in
                let? dir := ToString (js_or direction (JStr "asc")) in
                Return (URLSearchParams.append params "order" (by_ +:+ "." +:+ dir))
              else Return params)
             = if order_coercible (prop ps "order")
               then Return (params ++ order_part (prop ps "order"))
               else Throw not_primitive) as Horder.
  { intros params. unfold order_coercible, order_part, order_column, order_direction,
      option_coercible, js_or.
    destruct (truthy (prop ps "order")) eqn:Eo; cbn [negb orb]; [|by rewrite app_nil_r].
    rewrite !(Get_truthy _ _ Eo). cbn [obind].
    destruct (truthy (field (prop ps "order") "column")),
      (truthy (field (prop ps "order") "direction")); cbn [negb orb andb];
      rewrite !ToString_text; cbn [coercible text];
      repeat match goal with
             | |- context [coercible ?v] => destruct (coercible v)
             end; reflexivity. }
  unfold obind at 1. cbv beta. rewrite Horder.
  destruct (order_coercible (prop ps "order")); cbn [obind andb]; [|reflexivity].
  rewrite append_option. fold (limit_part (prop ps "limit")).
  destruct (option_coercible (prop ps "limit")); cbn [obind andb]; [|reflexivity].
  rewrite append_option. fold (offset_part (prop ps "offset")).
  destruct (option_coercible (prop ps "offset")); cbn [obind andb]; [|reflexivity].
  by rewrite <- !app_assoc.
Qed.

(** [buildUrl] on an options object touches nothing, and gives the URL
    unless a value cannot be coerced. *)
Lemma buildUrl_select_object table ps s :
  buildUrl table "select" (JObj ps) s
  = (if options_coercible ps
     then Return (resource s table
                  +:+ query_suffix (filters_part (prop ps "filters")
                                    ++ select_part (prop ps "select")
                                    ++ order_part (prop ps "order")
                                    ++ limit_part (prop ps "limit")
                                    ++ offset_part (prop ps "offset")))
     else Throw not_primitive,
     s, []).
Proof.
  unfold buildUrl, bind, lift, get_this, ret. cbn [default_arg String.eqb Ascii.eqb].
  cbn [Bool.eqb]. rewrite select_params_object.
  destruct (options_coercible ps); [|reflexivity].
  rewrite query_suffix_correct. reflexivity.
Qed.

End UrlFacts.

(* ===================================================================== *)
(** * The request builder *)
(* ===================================================================== *)

Section RequestBuilder.
Import Js SupabaseClient Spec Fixtures.

Lemma forallb_perm {A} (f : A -> bool) (l l' : list A) :
  Permutation l l' -> forallb f l = forallb f l'.
Proof.
  induction 1 as [|x l l' _ IH|x y l|l l' l'' _ IH1 _ IH2]; cbn [forallb].
  - reflexivity.
  - by rewrite IH.
  - by destruct (f x), (f y).
  - by rewrite IH1.
Qed.

(** On an integer every digit of which a Number holds, [Number::toString]
    gives the decimal digits. *)
Lemma Number_toString_safe n : safe_integer n = true -> Number_toString n = decimal n.
Proof.
  unfold safe_integer, Number_toString. intros Hn%Z.leb_le.
  assert (Z.log2 (Z.abs n) < 53) as Hlog.
  { destruct (Z.eq_dec (Z.abs n) 0) as [->|Hne]; [done|].
    apply Z.log2_lt_pow2; lia. }
  unfold nearest_double. apply Z.ltb_lt in Hlog. by rewrite !Hlog.
Qed.

(** C5, as stated, fails: the filter set built by inserting [status] and
    then [7] is encoded with [7] first, because [Object.entries] lists
    array-index keys before the others; the insertion order would give
    [?status=eq.active&7=eq.1]. *)
Lemma filters_enumerated_index_first :
  let F := [("status", JStr "active"); ("7", JNum 1)] in
  buildUrl "trips" "select" (JObj [("filters", JObj F)]) test_client
  = (Return "https://test.supabase.co/rest/v1/trips?7=eq.1&status=eq.active",
     test_client, [])
  /\ resource test_client "trips" +:+ query_suffix (map eq_param F)
     = "https://test.supabase.co/rest/v1/trips?status=eq.active&7=eq.1"
  /\ "https://test.supabase.co/rest/v1/trips?7=eq.1&status=eq.active"
     <> resource test_client "trips" +:+ query_suffix (map eq_param F).
Proof. repeat split; [vm_compute; reflexivity.. | vm_compute; discriminate]. Qed.

(** C5 (amended): for every filter set [F] whose values can all be
    string-coerced, the URL built by
    [buildUrl(table, "select", {filters: F})] is the resource URL followed
    by one parameter [k=eq.v] per entry [k -> v] of [F] (value
    string-coerced) and nothing else; the parameters follow the order in
    which [Object.entries] enumerates [F], that is the array-index keys in
    ascending numeric order and then the other keys in insertion order, so
    the insertion order is kept whenever no key is an array index.  A
    key and a value made of unreserved characters appear literally, as
    [k=eq.v].  When a value of [F] cannot be coerced (a plain object with
    a [toString] property of its own, or an array holding one),
    [buildUrl] raises a [TypeError] instead. *)
Theorem buildUrl_filters table F s :
  buildUrl table "select" (JObj [("filters", JObj F)]) s
  = (if forallb (fun e => coercible (snd e)) F
     then Return (resource s table +:+ query_suffix (map eq_param (own_entries F)))
     else Throw not_primitive,
     s, [])
  /\ (forall v, ToString v = if coercible v then Return (text v) else Throw not_primitive)
  /\ Permutation (own_entries F) F
  /\ own_entries F
     = sort_by_index (List.filter (fun e => is_array_index (fst e)) F)
       ++ List.filter (fun e => negb (is_array_index (fst e))) F
  /\ Sorted index_le (sort_by_index (List.filter (fun e => is_array_index (fst e)) F))
  /\ (Forall (fun e => is_array_index (fst e) = false) F -> own_entries F = F)
  /\ (forall k v, plain k = true -> plain (text v) = true ->
      URLSearchParams.encode_pair (eq_param (k, v)) = k +:+ "=eq." +:+ text v).
Proof.
  split; [|split; [|split; [|split; [|split; [|split]]]]];
    [|apply ToString_text| | | | |apply encode_eq_param_plain].
  - rewrite buildUrl_select_object.
    unfold options_coercible, filters_coercible, option_coercible, order_coercible.
    unfold prop. cbn [lookup_prop String.eqb Ascii.eqb Bool.eqb].
    unfold filters_part, select_part, order_part, limit_part, offset_part.
    cbn [truthy own_enumerable negb orb andb].
    rewrite (forallb_perm _ _ _ (own_entries_perm F)), !andb_true_r.
    by rewrite !app_nil_r.
  - apply own_entries_perm.
  - reflexivity.
  - apply sort_by_index_sorted.
  - apply own_entries_no_index.
Qed.

Lemma buildUrl_filters_witness :
  let F := [("user_id", JNum 1); ("status", JStr "active")] in
  (Forall (fun e => is_array_index (fst e) = false) F /\ own_entries F = F)
  /\ (plain "status" = true /\ plain (text (JStr "active")) = true
      /\ URLSearchParams.encode_pair (eq_param ("status", JStr "active"))
         = "status=eq.active")
  /\ buildUrl "trips" "select" (JObj [("filters", JObj F)]) test_client
     = (Return "https://test.supabase.co/rest/v1/trips?user_id=eq.1&status=eq.active",
        test_client, []).
Proof.
  intros F.
  destruct (buildUrl_filters "trips" F test_client) as (Hurl & _ & _ & _ & _ & Hkeep & Hplain).
  assert (Forall (fun e => is_array_index (fst e) = false) F) as H by (repeat constructor).
  split; [split; [exact H|exact (Hkeep H)]|].
  split; [split; [reflexivity|]; split; [reflexivity|];
          exact (Hplain "status" (JStr "active") eq_refl eq_refl)|].
  rewrite Hurl. reflexivity.
Defined.

(** C6, as stated, fails: without any order option a filter on a column
    named [order] puts an [order] parameter into the URL, and with an
    order object the URL then holds two of them. *)
Lemma filter_on_order_column_emits_order :
  let F := JObj [("order", JStr "x")] in
  let O := JObj [("column", JStr "date")] in
  prop [("filters", F)] "order" = JUndefined
  /\ buildUrl "trips" "select" (JObj [("filters", F)]) test_client
     = (Return "https://test.supabase.co/rest/v1/trips?order=eq.x", test_client, [])
  /\ buildUrl "trips" "select" (JObj [("filters", F); ("order", O)]) test_client
     = (Return "https://test.supabase.co/rest/v1/trips?order=eq.x&order=date.asc",
        test_client, []).
Proof. repeat split; vm_compute; reflexivity. Qed.

(** C6 (amended): for every options object passed to [buildUrl] with
    operation ["select"] whose values can be string-coerced: when the
    order option is absent (or falsy) the URL is built from the filter,
    select, limit and offset parameters alone, so an [order] parameter
    appears in it only when the filter set has a key named [order]; when
    an order object is supplied the URL contains, between the select and
    the limit parameters, the parameter [order=<column>.<direction>], with
    column ["id"] and direction ["asc"] when the respective field is
    missing, and this is the only [order] parameter unless the filter set
    has a key named [order]. *)
Theorem buildUrl_order table ps s :
  options_coercible ps = true ->
  let front := filters_part (prop ps "filters") ++ select_part (prop ps "select") in
  let back := limit_part (prop ps "limit") ++ offset_part (prop ps "offset") in
  (~ In "order" (keys (prop ps "filters")) ->
     Forall (fun p => fst p <> "order") (front ++ back))
  /\ (truthy (prop ps "order") = false ->
      buildUrl table "select" (JObj ps) s
      = (Return (resource s table +:+ query_suffix (front ++ back)), s, []))
  /\ (forall o, prop ps "order" = JObj o ->
      buildUrl table "select" (JObj ps) s
      = (Return (resource s table
                 +:+ query_suffix
                       (front
                        ++ [("order", order_column (JObj o) +:+ "."
                                      +:+ order_direction (JObj o))]
                        ++ back)), s, [])
      /\ (~ In "order" (keys (prop ps "filters")) ->
          length (List.filter (fun p => String.eqb (fst p) "order")
                    (front
                     ++ [("order", order_column (JObj o) +:+ "."
                                   +:+ order_direction (JObj o))]
                     ++ back)) = 1%nat)
      /\ (lookup_prop "column" o = None -> order_column (JObj o) = "id")
      /\ (lookup_prop "direction" o = None -> order_direction (JObj o) = "asc")
      /\ (forall c, prop o "column" = JStr c -> c <> EmptyString -> order_column (JObj o) = c)
      /\ (forall d, prop o "direction" = JStr d -> d <> EmptyString ->
          order_direction (JObj o) = d)).
Proof.
  intros Hco front back.
  assert (~ In "order" (keys (prop ps "filters")) ->
          Forall (fun p => fst p <> "order") front
          /\ Forall (fun p => fst p <> "order") back) as Hnone.
  { intros Hno. subst front back.
    unfold filters_part, select_part, limit_part, offset_part.
    rewrite !Forall_app. repeat split.
    + destruct (truthy (prop ps "filters")); [|constructor].
      unfold keys in Hno. apply Forall_forall. intros p Hp Heq.
      apply list_elem_of_In, in_map_iff in Hp as (e & <- & He).
      apply Hno. apply in_map_iff. exists e. by split.
    + destruct (truthy (prop ps "select")); repeat constructor. done.
    + destruct (truthy (prop ps "limit")); repeat constructor. done.
    + destruct (truthy (prop ps "offset")); repeat constructor. done. }
  assert (forall l : URLSearchParams.t,
             Forall (fun p => fst p <> "order") l ->
             List.filter (fun p => String.eqb (fst p) "order") l = []) as Hfilter.
  { intros l Hl. induction Hl as [|p l Hp _ IH]; [done|]. cbn [List.filter].
    apply String.eqb_neq in Hp. by rewrite Hp. }
  split; [|split].
  - intros Hno. apply Forall_app. by apply Hnone.
  - intros Ho. rewrite buildUrl_select_object, Hco. unfold order_part. rewrite Ho.
    subst front back. by rewrite <- app_assoc.
  - intros o Ho. split; [|split; [|repeat split]].
    + rewrite buildUrl_select_object, Hco. unfold order_part. rewrite Ho.
      cbn [truthy]. subst front back. by rewrite <- !app_assoc.
    + intros Hno. destruct (Hnone Hno) as [Hf Hb].
      rewrite !List.filter_app, (Hfilter _ Hf), (Hfilter _ Hb). reflexivity.
    + intros Hc. unfold order_column, field, prop. cbn [Get]. unfold prop. by rewrite Hc.
    + intros Hd. unfold order_direction, field, prop. cbn [Get]. unfold prop. by rewrite Hd.
    + intros c Hc Hne. unfold order_column, field. cbn [Get]. rewrite Hc.
      cbn [truthy text]. apply String.eqb_neq in Hne. by rewrite Hne.
    + intros d Hd Hne. unfold order_direction, field. cbn [Get]. rewrite Hd.
      cbn [truthy text]. apply String.eqb_neq in Hne. by rewrite Hne.
Qed.

Lemma buildUrl_order_witness :
  let o := [("column", JStr "date")] in
  let ps := [("order", JObj o); ("limit", JNum 5)] in
  (options_coercible ps = true
   /\ ~ In "order" (keys (prop ps "filters"))
   /\ Forall (fun p => fst p <> "order")
        ((filters_part (prop ps "filters") ++ select_part (prop ps "select"))
         ++ limit_part (prop ps "limit") ++ offset_part (prop ps "offset")))
  /\ (options_coercible [("limit", JNum 5)] = true
      /\ truthy (prop [("limit", JNum 5)] "order") = false
      /\ buildUrl "trips" "select" (JObj [("limit", JNum 5)]) test_client
         = (Return "https://test.supabase.co/rest/v1/trips?limit=5", test_client, []))
  /\ (prop ps "order" = JObj o
      /\ lookup_prop "direction" o = None
      /\ order_direction (JObj o) = "asc"
      /\ order_column (JObj o) = "date"
      /\ buildUrl "trips" "select" (JObj ps) test_client
         = (Return "https://test.supabase.co/rest/v1/trips?order=date.asc&limit=5",
            test_client, [])).
Proof.
  intros o ps.
  destruct (buildUrl_order "trips" ps test_client eq_refl) as (Hno & _ & Hobj).
  destruct (buildUrl_order "trips" [("limit", JNum 5)] test_client eq_refl)
    as (_ & Habs & _).
  destruct (Hobj o eq_refl) as (Hurl & _ & _ & Hdir & Hcol & _).
  assert (~ In "order" (keys (prop ps "filters"))) as Hk by (intros []).
  split; [split; [reflexivity|]; split; [exact Hk|exact (Hno Hk)]|].
  split; [split; [reflexivity|]; split; [reflexivity|]|].
  - rewrite (Habs eq_refl). reflexivity.
  - split; [reflexivity|]. split; [reflexivity|].
    split; [exact (Hdir eq_refl)|].
    split; [apply (Hcol "date" eq_refl); discriminate|].
    rewrite Hurl. reflexivity.
Defined.

(** C7, as stated, fails: a supplied offset of 0 is not appended; the URL
    built for [{offset: 0}] is the bare resource URL, not
    [...?offset=0]. *)
Lemma buildUrl_offset_zero_omitted :
  buildUrl "trips" "select" (JObj [("offset", JNum 0)]) test_client
  = (Return "https://test.supabase.co/rest/v1/trips", test_client, [])
  /\ "https://test.supabase.co/rest/v1/trips"
     <> "https://test.supabase.co/rest/v1/trips?offset=0".
Proof. split; [vm_compute; reflexivity | discriminate]. Qed.

(** C7 (amended): for every options object passed to [buildUrl] with
    operation ["select"] whose values can be string-coerced, the URL ends
    with the [limit] parameter and then the [offset] parameter, each
    appended, string-coerced, when the option is truthy, and omitted when
    the option is absent, [null], [undefined] or another falsy value: 0,
    the empty string or [false].  A number is appended as
    [Number::toString] prints it, which is its decimal rendering for
    every integer of magnitude up to 2^53 - 1.  In particular an offset
    of 0 emits no parameter.  When a value cannot be coerced, [buildUrl]
    raises a [TypeError]. *)
Theorem buildUrl_limit_offset table ps s :
  let front := filters_part (prop ps "filters") ++ select_part (prop ps "select")
               ++ order_part (prop ps "order") in
  buildUrl table "select" (JObj ps) s
  = (if options_coercible ps
     then Return (resource s table
                  +:+ query_suffix (front ++ limit_part (prop ps "limit")
                                    ++ offset_part (prop ps "offset")))
     else Throw not_primitive,
     s, [])
  /\ (forall n, n <> 0 ->
      limit_part (JNum n) = [("limit", Number_toString n)]
      /\ offset_part (JNum n) = [("offset", Number_toString n)]
      /\ ToString (JNum n) = Return (Number_toString n)
      /\ (safe_integer n = true -> Number_toString n = decimal n))
  /\ (forall v, truthy v = true -> coercible v = true ->
      limit_part v = [("limit", text v)] /\ offset_part v = [("offset", text v)]
      /\ ToString v = Return (text v))
  /\ (forall v, In v [JUndefined; JNull; JNum 0; JStr EmptyString; JBool false] ->
      limit_part v = [] /\ offset_part v = [])
  /\ (lookup_prop "limit" ps = None -> limit_part (prop ps "limit") = [])
  /\ (lookup_prop "offset" ps = None -> offset_part (prop ps "offset") = []).
Proof.
  intros front. split; [|split; [|split; [|split; [|split]]]].
  - rewrite buildUrl_select_object. subst front. by rewrite <- !app_assoc.
  - intros n Hn. unfold limit_part, offset_part. cbn [truthy text].
    apply Z.eqb_neq in Hn. rewrite Hn. repeat split. apply Number_toString_safe.
  - intros v Hv Hc. unfold limit_part, offset_part. rewrite Hv.
    repeat split. by apply ToString_coercible.
  - intros v Hv. cbn [In] in Hv. by destruct Hv as [<-|[<-|[<-|[<-|[<-|[]]]]]].
  - intros Hl. unfold prop. by rewrite Hl.
  - intros Hl. unfold prop. by rewrite Hl.
Qed.

Lemma buildUrl_limit_offset_witness :
  let ps := [("limit", JNum 50); ("offset", JNum 0)] in
  (50 <> 0 /\ safe_integer 50 = true /\ limit_part (JNum 50) = [("limit", "50")])
  /\ (truthy (JStr "20") = true /\ coercible (JStr "20") = true
      /\ offset_part (JStr "20") = [("offset", "20")])
  /\ (In (JNum 0) [JUndefined; JNull; JNum 0; JStr EmptyString; JBool false]
      /\ offset_part (JNum 0) = [])
  /\ (lookup_prop "limit" [("offset", JNum 20)] = None
      /\ limit_part (prop [("offset", JNum 20)] "limit") = [])
  /\ (lookup_prop "offset" [("limit", JNum 50)] = None
      /\ offset_part (prop [("limit", JNum 50)] "offset") = [])
  /\ buildUrl "trips" "select" (JObj ps) test_client
     = (Return "https://test.supabase.co/rest/v1/trips?limit=50", test_client, []).
Proof.
  intros ps.
  destruct (buildUrl_limit_offset "trips" [("offset", JNum 20)] test_client)
    as (_ & Hnum & Htrue & Hfalse & Hlim & _).
  destruct (buildUrl_limit_offset "trips" [("limit", JNum 50)] test_client)
    as (_ & _ & _ & _ & _ & Hoff).
  destruct (buildUrl_limit_offset "trips" ps test_client) as (Hurl & _).
  assert (50 <> 0) as H50 by discriminate.
  assert (In (JNum 0) [JUndefined; JNull; JNum 0; JStr EmptyString; JBool false]) as Hin
    by (right; right; left; reflexivity).
  destruct (Hnum 50 H50) as (Hl50 & _ & _ & Hdec).
  split; [split; [exact H50|]; split; [reflexivity|];
          rewrite Hl50, (Hdec eq_refl); reflexivity|].
  split; [split; [reflexivity|]; split; [reflexivity|];
          exact (proj1 (proj2 (Htrue (JStr "20") eq_refl eq_refl)))|].
  split; [split; [exact Hin|exact (proj2 (Hfalse _ Hin))]|].
  split; [split; [reflexivity|exact (Hlim eq_refl)]|].
  split; [split; [reflexivity|exact (Hoff eq_refl)]|].
  rewrite Hurl. reflexivity.
Defined.

End RequestBuilder.

(* ===================================================================== *)
(** * The CRUD surface *)
(* ===================================================================== *)

(** Proves that the keys of a literal object are pairwise distinct. *)
Ltac solve_distinct_keys :=
  repeat (apply NoDup_cons_2;
          [ let H := fresh in
            intros H;
            repeat (apply elem_of_cons in H as [H|H]; [discriminate H|]);
            by apply elem_of_nil in H
          | ]);
  apply NoDup_nil_2.

(** Unfolds the monad of method bodies. *)
Ltac run_method :=
  cbv [SupabaseClient.try_catch SupabaseClient.bind SupabaseClient.ret
       SupabaseClient.throw SupabaseClient.lift SupabaseClient.get_this
       SupabaseClient.set_this SupabaseClient.deref SupabaseClient.alloc
       SupabaseClient.assign SupabaseClient.console_error
       SupabaseClient.console_warn SupabaseClient.await_json
       SupabaseClient.await_fetch Js.obind Spec.round_trip Spec.classify
       Spec.resource Spec.stored_headers
       SupabaseClient.init_method SupabaseClient.init_headers
       SupabaseClient.init_body].

(** Splits on the answer of the backend and on the parsed body. *)
Ltac split_response :=
  match goal with
  | |- context [match ?fetch ?req with
                  | SupabaseClient.Resolved _ => _
                  | SupabaseClient.Rejected _ => _
                  end] =>
      destruct (fetch req) as [[[] ? [?|?]]|?];
      cbn [SupabaseClient.ok SupabaseClient.json SupabaseClient.statusText negb app];
      try reflexivity
  end.

(** Splits on a property read of the parsed body and on the coercion of
    what was read. *)
Ltac split_get :=
  repeat match goal with
         | |- context [Js.Get ?b ?k] => destruct (Js.Get b k)
         end;
  repeat match goal with
         | |- context [Js.ToString ?v] => destruct (Js.ToString v)
         end;
  try reflexivity.

Section Crud.
Import Js SupabaseClient Spec Fixtures.

Variable fetch : Request -> FetchResult.
Variable JSON_stringify : JsVal -> JsVal.
Variable StringToNumber_positive : string -> bool.

Lemma default_arg_idem v d : default_arg (default_arg v d) d = default_arg v d.
Proof. destruct v; try reflexivity. destruct d; reflexivity. Qed.

Lemma read_round_trip table options s :
  read fetch table options s
  = round_trip fetch (log_label (Read table options))
      (descriptor JSON_stringify (Read table options) s) s.
Proof.
  unfold read, buildUrl, descriptor, log_label. rewrite default_arg_idem. run_method.
  cbn [String.eqb Ascii.eqb Bool.eqb].
  destruct (select_params (default_arg options (JObj []))) as [params|e]; [|reflexivity].
  rewrite query_suffix_correct. split_response.
  split_get.
Qed.

Lemma query_round_trip table filters options s :
  query fetch table filters options s
  = round_trip fetch (log_label (Query table filters options))
      (descriptor JSON_stringify (Query table filters options) s) s.
Proof.
  unfold query, buildUrl, descriptor, log_label, with_filters. run_method.
  cbn [String.eqb Ascii.eqb Bool.eqb default_arg].
  destruct (select_params _) as [params|e]; [|reflexivity].
  rewrite query_suffix_correct. split_response.
  split_get.
Qed.

Lemma insert_round_trip table data s :
  insert fetch JSON_stringify table data s
  = round_trip fetch (log_label (Insert table data))
      (descriptor JSON_stringify (Insert table data) s) s.
Proof.
  unfold insert, descriptor, log_label. run_method. split_response.
  split_get.
Qed.

Lemma insertMany_round_trip table dataArray s :
  insertMany fetch JSON_stringify table dataArray s
  = round_trip fetch (log_label (InsertMany table dataArray))
      (descriptor JSON_stringify (InsertMany table dataArray) s) s.
Proof.
  unfold insertMany, descriptor, log_label. run_method. split_response.
  split_get.
Qed.

Lemma update_round_trip table filters data s :
  update fetch JSON_stringify table filters data s
  = round_trip fetch (log_label (Update table filters data))
      (descriptor JSON_stringify (Update table filters data) s) s.
Proof.
  unfold update, descriptor, log_label. run_method.
  destruct (Object_entries filters) as [entries|e]; [|reflexivity].
  destruct (filter_params entries) as [params|e]; [|reflexivity].
  rewrite query_suffix_correct. split_response.
  split_get.
Qed.

Lemma delete_round_trip table filters s :
  delete fetch table filters s
  = round_trip fetch (log_label (Delete table filters))
      (descriptor JSON_stringify (Delete table filters) s) s.
Proof.
  unfold delete, descriptor, log_label. run_method.
  destruct (Object_entries filters) as [entries|e]; [|reflexivity].
  destruct (filter_params entries) as [params|e]; [|reflexivity].
  rewrite query_suffix_correct. split_response.
  split_get.
Qed.

(** Every CRUD method other than [getById] is one round trip on its
    request descriptor. *)
Lemma crud_round_trip c s :
  is_crud c = true -> (forall table id options, c <> GetById table id options) ->
  invoke fetch JSON_stringify StringToNumber_positive c s
  = round_trip fetch (log_label c) (descriptor JSON_stringify c s) s.
Proof.
  intros Hcrud Hget. destruct c; try discriminate; cbn [invoke].
  - apply read_round_trip.
  - apply query_round_trip.
  - by destruct (Hget table id options).
  - apply insert_round_trip.
  - apply insertMany_round_trip.
  - apply update_round_trip.
  - unfold updateById. apply (update_round_trip table (by_id id) data s).
  - apply delete_round_trip.
  - unfold deleteById. apply (delete_round_trip table (by_id id) s).
Qed.

Lemma round_trip_label label label' built s :
  outcome_of (round_trip fetch label built s) = outcome_of (round_trip fetch label' built s)
  /\ state_of (round_trip fetch label built s) = state_of (round_trip fetch label' built s)
  /\ requests (events_of (round_trip fetch label built s))
     = requests (events_of (round_trip fetch label' built s)).
Proof.
  unfold round_trip. destruct built as [req|e]; [|done].
  by destruct (classify (fetch req)).
Qed.

Lemma getById_query table id options s :
  getById fetch StringToNumber_positive table id options s
  = match query fetch table (by_id id) (with_limit_one options) s with
    | (Return results, s', t) =>
        match Get results "length" with
        | Return length =>
            match gt_zero StringToNumber_positive length with
            | Return true =>
                match Get results "0" with
                | Return row => (Return row, s', t)
                | Throw e =>
                    (Throw e, s',
                     t ++ [EvConsole LError (log_label (GetById table id options)) (Some e)])
                end
            | Return false => (Return JNull, s', t)
            | Throw e =>
                (Throw e, s',
                 t ++ [EvConsole LError (log_label (GetById table id options)) (Some e)])
            end
        | Throw e =>
            (Throw e, s',
             t ++ [EvConsole LError (log_label (GetById table id options)) (Some e)])
        end
    | (Throw e, s', t) =>
        (Throw e, s',
         t ++ [EvConsole LError (log_label (GetById table id options)) (Some e)])
    end.
Proof.
  unfold getById, with_limit_one, by_id, log_label. run_method.
  destruct (query _ _ _ _ _) as [[[results|e] s'] t]; [|reflexivity].
  destruct (Get results "length") as [length|e]; [|by rewrite app_nil_r].
  destruct (gt_zero _ length) as [[]|e]; [|by rewrite !app_nil_r..].
  destruct (Get results "0"); by rewrite !app_nil_r.
Qed.

(** C3: for every table, id and options, [getById(table, id, options)]
    runs [query(table, {id: id}, options with limit = 1)] and, when the
    query returns a sequence, returns its first element if it is
    non-empty and [null] if it is empty, with the state and the request
    of the query; a zero-row result is not an error.  When the query
    fails, [getById] fails with the same error (and logs it once
    more). *)
Theorem getById_refines_query table id options s :
  let run := query fetch table (by_id id) (with_limit_one options) s in
  (forall rows s' t, run = (Return (JArr rows), s', t) ->
     getById fetch StringToNumber_positive table id options s
     = (Return (first_or_absent rows), s', t))
  /\ (forall s' t, run = (Return (JArr []), s', t) ->
     getById fetch StringToNumber_positive table id options s = (Return JNull, s', t))
  /\ (forall e s' t, run = (Throw e, s', t) ->
     getById fetch StringToNumber_positive table id options s
     = (Throw e, s',
        t ++ [EvConsole LError (log_label (GetById table id options)) (Some e)])).
Proof.
  intros run. subst run.
  assert (forall rows s' t,
             query fetch table (by_id id) (with_limit_one options) s
             = (Return (JArr rows), s', t) ->
             getById fetch StringToNumber_positive table id options s
             = (Return (first_or_absent rows), s', t)) as Hrows.
  { intros rows s' t Hq. rewrite getById_query, Hq. cbn [Get String.eqb Ascii.eqb Bool.eqb].
    destruct rows as [|row rows]; [reflexivity|].
    unfold gt_zero. cbn [ToPrimitive obind length first_or_absent].
    replace (0 <? Z.of_nat (S (length rows))) with true by (symmetry; apply Z.ltb_lt; lia).
    reflexivity. }
  split; [exact Hrows|]. split.
  - intros s' t Hq. exact (Hrows [] s' t Hq).
  - intros e s' t Hq. by rewrite getById_query, Hq.
Qed.

(** The request of a by-id form. *)
Lemma by_id_descriptor method table id body s :
  (let? entries := Object_entries (JObj [("id", id)]) in
   let? params := filter_params entries in
   Return (mkRequest method (resource s table +:+ query_suffix params)
             (stored_headers s) body))
  = if coercible id
    then Return (mkRequest method
                   (resource s table +:+ "?id="
                    +:+ URLSearchParams.urlencode ("eq." +:+ text id))
                   (stored_headers s) body)
    else Throw not_primitive.
Proof.
  cbn [Object_entries obind]. rewrite filter_params_eq.
  change (own_enumerable (JObj [("id", id)])) with [("id", id)].
  cbn [forallb snd andb]. rewrite andb_true_r.
  destruct (coercible id); [|reflexivity]. reflexivity.
Qed.

(** C4: for every table, id and patch, [updateById(table, id, patch)] is
    [update(table, {id: id}, patch)], and [deleteById(table, id)] is
    [delete(table, {id: id})]: the same result, state and effects.  When
    the id can be string-coerced, each sends one request, a [PATCH] (with
    the serialized patch) or a [DELETE] of the resource filtered by
    [id=eq.<id>] with the stored headers, and its result is the
    classification of the answer; when it cannot, each raises the
    [TypeError] of the coercion and sends nothing.  The by-id forms have
    no edge case of their own. *)
Theorem by_id_forms_are_general_forms table id patch s :
  let target :=
    resource s table +:+ "?id=" +:+ URLSearchParams.urlencode ("eq." +:+ text id) in
  let patch_request :=
    mkRequest "PATCH" target (stored_headers s) (JSON_stringify patch) in
  let delete_request := mkRequest "DELETE" target (stored_headers s) JUndefined in
  updateById fetch JSON_stringify table id patch s
  = update fetch JSON_stringify table (JObj [("id", id)]) patch s
  /\ deleteById fetch table id s = delete fetch table (JObj [("id", id)]) s
  /\ (coercible id = true ->
      requests (events_of (updateById fetch JSON_stringify table id patch s))
      = [patch_request]
      /\ outcome_of (updateById fetch JSON_stringify table id patch s)
         = classify (fetch patch_request)
      /\ state_of (updateById fetch JSON_stringify table id patch s) = s
      /\ requests (events_of (deleteById fetch table id s)) = [delete_request]
      /\ outcome_of (deleteById fetch table id s) = classify (fetch delete_request)
      /\ state_of (deleteById fetch table id s) = s)
  /\ (coercible id = false ->
      updateById fetch JSON_stringify table id patch s
      = (Throw not_primitive, s,
         [EvConsole LError ("Error updating " +:+ table +:+ ":") (Some not_primitive)])
      /\ deleteById fetch table id s
         = (Throw not_primitive, s,
            [EvConsole LError ("Error deleting from " +:+ table +:+ ":")
               (Some not_primitive)])).
Proof.
  intros target patch_request delete_request.
  split; [reflexivity|]. split; [reflexivity|].
  unfold updateById, deleteById.
  rewrite update_round_trip, delete_round_trip. cbn [descriptor log_label].
  rewrite !by_id_descriptor. fold target. fold patch_request delete_request.
  split; intros ->.
  - unfold round_trip, outcome_of, state_of, events_of.
    destruct (classify (fetch patch_request)), (classify (fetch delete_request));
      repeat split.
  - split; reflexivity.
Qed.

(** The error a failing call raises does not say which table or operation
    failed: the same answer gives the same error to an insert into one
    table and a delete from another.  And a failure body that does not
    parse surfaces as the parse error, in which the status text does not
    occur.  So C8, as stated, fails. *)
Lemma crud_error_carries_no_context :
  let rejected := backend (status false "Bad Request"
                             (JObj [("message", JStr "duplicate nickname")])) in
  let garbled := backend (unparseable false "Bad Gateway") in
  let e := new_Error "Supabase Error: duplicate nickname" in
  outcome_of (insert rejected any_serializer "users" (JObj [("nickname", JStr "alice")])
                test_client) = Throw e
  /\ outcome_of (delete rejected "comments" (JObj [("id", JNum 7)]) test_client) = Throw e
  /\ contains "users" (message e) = false
  /\ contains "insert" (message e) = false
  /\ (exists e', outcome_of (read garbled "users" JUndefined test_client) = Throw e'
                 /\ contains "Bad Gateway" (message e') = false).
Proof.
  repeat split; try (vm_compute; reflexivity).
  eexists. split; vm_compute; reflexivity.
Qed.

(** C8 (amended): every CRUD call leaves the client state as it was and
    sends at most one request, the one of its descriptor.  When the
    backend answers with a success status and a body that parses, the
    call returns the parsed body ([getById] returns the first row of the
    parsed sequence, or [null]).  When it answers with a failure status
    and a body that parses to a value other than [null], the call raises
    an error whose message is ["Supabase Error: "] followed by the body's
    [message] field, or by the status text when the body has no (truthy)
    [message], provided that field can be string-coerced.  A failure body
    that parses to [null], or whose [message] cannot be coerced, raises a
    [TypeError]; a body that does not parse raises the parser's error;
    and a failure at the transport level is raised unchanged.  The raised
    error carries no table or operation context: that context is in the
    console line written for every raised error. *)
Theorem crud_response_classification c s :
  is_crud c = true ->
  let '(o, s', t) := invoke fetch JSON_stringify StringToNumber_positive c s in
  s' = s
  /\ (forall e, o = Throw e -> In (EvConsole LError (log_label c) (Some e)) t)
  /\ match descriptor JSON_stringify c s with
     | Throw e => requests t = [] /\ o = Throw e
     | Return req =>
         requests t = [req]
         /\ match fetch req with
            | Rejected e => o = Throw e
            | Resolved r =>
                match json r with
                | Throw e => o = Throw e
                | Return body =>
                    if ok r then returned c body o
                    else if nullish body
                    then o = Throw (mkError "TypeError"
                                      ("Cannot read properties of " +:+ text body
                                       +:+ " (reading 'message')"))
                    else
                      let reason := js_or (field body "message") (JStr (statusText r)) in
                      o = if coercible reason
                          then Throw (new_Error ("Supabase Error: " +:+ text reason))
                          else Throw not_primitive
                end
            end
     end.
Proof.
  intros Hcrud.
  assert (forall r body,
             ok r = false -> json r = Return body ->
             classify (Resolved r)
             = if nullish body
               then Throw (mkError "TypeError"
                             ("Cannot read properties of " +:+ text body
                              +:+ " (reading 'message')"))
               else if coercible (js_or (field body "message") (JStr (statusText r)))
                    then Throw (new_Error
                                  ("Supabase Error: "
                                   +:+ text (js_or (field body "message")
                                               (JStr (statusText r)))))
                    else Throw not_primitive) as Hfail.
  { intros r body Hok Hjs. unfold classify. rewrite Hjs, Hok. cbn [obind].
    destruct (nullish body) eqn:Hn.
    - destruct body; try discriminate Hn; reflexivity.
    - rewrite (Get_not_nullish body _ Hn). cbn [obind]. rewrite ToString_text.
      by destruct (coercible _). }
  assert ((forall table id options, c <> GetById table id options)
          \/ exists table id options, c = GetById table id options) as [Hother|Hget].
  { destruct c; try (left; discriminate). right. eauto. }
  - rewrite (crud_round_trip c s Hcrud Hother). unfold round_trip.
    assert (forall body, returned c body (Return body)) as Hret.
    { intros body. destruct c; try reflexivity. by destruct (Hother table id options). }
    destruct (descriptor JSON_stringify c s) as [req|e].
    + destruct (fetch req) as [[okr st [body|e]]|e] eqn:Hf.
      * destruct okr.
        -- cbn [classify obind ok json]. split; [done|]. split; [done|]. split; [done|].
           apply Hret.
        -- rewrite (Hfail (mkResponse false st (Return body)) body eq_refl eq_refl).
           cbn [ok json statusText].
           destruct (nullish body).
           ++ split; [done|]. split; [intros e [= <-]; right; by left|]. by split.
           ++ destruct (coercible _);
                (split; [done|]; split; [intros e [= <-]; right; by left|]; by split).
      * cbn [classify obind ok json].
        split; [done|]. split; [intros e' [= <-]; right; by left|]. by split.
      * cbn [classify].
        split; [done|]. split; [intros e' [= <-]; right; by left|]. by split.
    + split; [done|]. split; [intros e' [= <-]; by left|]. by split.
  - destruct Hget as (table & id & options & ->). cbn [invoke].
    rewrite getById_query, query_round_trip.
    change (descriptor JSON_stringify (GetById table id options) s)
      with (descriptor JSON_stringify (Query table (by_id id) (with_limit_one options)) s).
    unfold round_trip.
    destruct (descriptor JSON_stringify (Query table (by_id id) (with_limit_one options)) s)
      as [req|e].
    + destruct (fetch req) as [[okr st [body|e]]|e] eqn:Hf.
      * destruct okr.
        -- cbn [classify obind ok json].
           destruct (Get body "length") as [len|e] eqn:El.
           ++ destruct (gt_zero StringToNumber_positive len) as [[]|e] eqn:Eg.
              ** destruct (Get body "0") as [row|e] eqn:E0.
                 --- split; [done|]. split; [done|]. split; [done|].
                     intros rows ->. cbn in El, E0.
                     injection El as <-. injection E0 as <-.
                     destruct rows; [discriminate Eg|reflexivity].
                 --- split; [done|].
                     split; [intros e' [= <-]; apply in_app_iff; right; by left|].
                     split; [done|]. intros rows ->. discriminate E0.
              ** split; [done|]. split; [done|]. split; [done|].
                 intros rows ->. cbn in El. injection El as <-.
                 destruct rows as [|row rows]; [reflexivity|].
                 unfold gt_zero in Eg. cbn [ToPrimitive obind length] in Eg.
                 injection Eg as Eg. apply Z.ltb_ge in Eg. lia.
              ** split; [done|].
                 split; [intros e' [= <-]; apply in_app_iff; right; by left|].
                 split; [done|]. intros rows ->. cbn in El. injection El as <-.
                 discriminate Eg.
           ++ split; [done|].
              split; [intros e' [= <-]; apply in_app_iff; right; by left|].
              split; [done|]. intros rows ->. discriminate El.
        -- rewrite (Hfail (mkResponse false st (Return body)) body eq_refl eq_refl).
           cbn [ok json statusText].
           destruct (nullish body).
           ++ split; [done|].
              split; [intros e' [= <-]; apply in_app_iff; right; by left|]. by split.
           ++ destruct (coercible _);
                (split; [done|];
                 split; [intros e' [= <-]; apply in_app_iff; right; by left|]; by split).
      * cbn [classify obind ok json].
        split; [done|]. split; [intros e' [= <-]; apply in_app_iff; right; by left|].
        by split.
      * cbn [classify].
        split; [done|]. split; [intros e' [= <-]; apply in_app_iff; right; by left|].
        by split.
    + split; [done|]. split; [intros e' [= <-]; apply in_app_iff; right; by left|].
      by split.
Qed.

(** C9: for every table, filter set [F] and options record [O],
    [query(table, F, O)] behaves as [read(table, O')] where [O'] is [O]
    with its [filters] entry set to [F]: the same request descriptor, the
    same request sent, the same outcome and state.  In [O'] the [filters]
    entry is [F] whatever [O] held under that key, and every other option
    of [O] reads as it does in [O]. *)
Theorem query_is_read_with_filters table F O s :
  let O' := with_filters O F in
  descriptor JSON_stringify (Query table F O) s
  = descriptor JSON_stringify (Read table O') s
  /\ requests (events_of (query fetch table F O s))
     = requests (events_of (read fetch table O' s))
  /\ outcome_of (query fetch table F O s) = outcome_of (read fetch table O' s)
  /\ state_of (query fetch table F O s) = state_of (read fetch table O' s)
  /\ Get O' "filters" = Return (default_arg F (JObj []))
  /\ (forall ps k, O = JObj ps -> wf_props ps -> k <> "filters" ->
      Get O' k = Get O k).
Proof.
  intros O'. subst O'.
  assert (descriptor JSON_stringify (Query table F O) s
          = descriptor JSON_stringify (Read table (with_filters O F)) s) as Hd by reflexivity.
  rewrite query_round_trip, read_round_trip, <- Hd.
  destruct (round_trip_label (log_label (Query table F O))
              (log_label (Read table (with_filters O F)))
              (descriptor JSON_stringify (Query table F O) s) s) as (Ho & Hs & Hr).
  split; [done|]. split; [done|]. split; [done|]. split; [done|]. split.
  - unfold with_filters. cbn [Get]. by rewrite prop_set_prop_eq.
  - intros ps k -> Hwf Hk. unfold with_filters. cbn [Get default_arg spread own_enumerable].
    rewrite prop_set_prop_ne by done. by rewrite prop_own_entries.
Qed.

End Crud.

Section CrudExamples.
Import Js SupabaseClient Spec Fixtures.

Lemma query_is_read_with_filters_witness :
  let ps := [("filters", JObj [("stale", JNum 1)]); ("limit", JNum 10)] in
  (wf_props ps /\ "limit" <> "filters")
  /\ Get (with_filters (JObj ps) (JObj [("user_id", JNum 1)])) "limit"
     = Get (JObj ps) "limit".
Proof.
  intros ps.
  assert (wf_props ps) as Hwf by (unfold wf_props, ps; cbn [map fst]; solve_distinct_keys).
  assert ("limit" <> "filters") as Hne by discriminate.
  split; [by split|].
  exact (proj2 (proj2 (proj2 (proj2 (proj2
           (query_is_read_with_filters (backend network_down) any_serializer "trips"
              (JObj [("user_id", JNum 1)]) (JObj ps) test_client))))) ps "limit" eq_refl
           Hwf Hne).
Defined.

Lemma getById_refines_query_witness :
  let row := JObj [("id", JNum 1); ("name", JStr "Test Trip")] in
  let found := backend (status true "OK" (JArr [row])) in
  let missing := backend (status true "OK" (JArr [])) in
  getById found no_numeric_strings "trips" (JNum 1) JUndefined test_client
  = (Return row, test_client,
     events_of (query found "trips" (by_id (JNum 1)) (with_limit_one JUndefined)
                  test_client))
  /\ getById missing no_numeric_strings "trips" (JNum 999) JUndefined test_client
     = (Return JNull, test_client,
        events_of (query missing "trips" (by_id (JNum 999)) (with_limit_one JUndefined)
                     test_client))
  /\ outcome_of (getById (backend network_down) no_numeric_strings "trips" (JNum 1)
                   JUndefined test_client)
     = Throw (mkError "TypeError" "Failed to fetch").
Proof.
  intros row found missing.
  destruct (getById_refines_query found no_numeric_strings "trips" (JNum 1) JUndefined
              test_client) as (Hrows & _ & _).
  destruct (getById_refines_query missing no_numeric_strings "trips" (JNum 999) JUndefined
              test_client) as (_ & Hnone & _).
  destruct (getById_refines_query (backend network_down) no_numeric_strings "trips"
              (JNum 1) JUndefined test_client) as (_ & _ & Hfail).
  split; [exact (Hrows [row] _ _ eq_refl)|].
  split; [exact (Hnone _ _ eq_refl)|].
  unfold outcome_of. by rewrite (Hfail _ _ _ eq_refl).
Defined.

Lemma by_id_forms_are_general_forms_witness :
  let answers := backend (status true "OK" (JArr [])) in
  let patch := JObj [("name", JStr "Kyoto")] in
  let opaque := JObj [("toString", JNum 1)] in
  (coercible (JNum 7) = true
   /\ requests (events_of (updateById answers any_serializer "trips" (JNum 7) patch
                             test_client))
      = [mkRequest "PATCH" (resource test_client "trips" +:+ "?id=eq.7")
           (stored_headers test_client) (any_serializer patch)])
  /\ (coercible opaque = false
      /\ deleteById answers "trips" opaque test_client
         = (Throw not_primitive, test_client,
            [EvConsole LError "Error deleting from trips:" (Some not_primitive)])).
Proof.
  intros answers patch opaque.
  pose proof (by_id_forms_are_general_forms answers any_serializer "trips" (JNum 7) patch
                test_client) as (_ & _ & Hsent & _).
  pose proof (by_id_forms_are_general_forms answers any_serializer "trips" opaque patch
                test_client) as (_ & _ & _ & Hrefused).
  split.
  - split; [reflexivity|]. exact (proj1 (Hsent eq_refl)).
  - split; [reflexivity|]. exact (proj2 (Hrefused eq_refl)).
Defined.

Lemma crud_response_classification_witness :
  let rejected := backend (status false "Bad Request"
                             (JObj [("message", JStr "duplicate nickname")])) in
  let c := Insert "users" (JObj [("nickname", JStr "alice")]) in
  is_crud c = true
  /\ outcome_of (invoke rejected any_serializer no_numeric_strings c test_client)
     = Throw (new_Error "Supabase Error: duplicate nickname")
  /\ state_of (invoke rejected any_serializer no_numeric_strings c test_client) = test_client.
Proof.
  intros rejected c. split; [reflexivity|].
  pose proof (crud_response_classification rejected any_serializer no_numeric_strings c
                test_client eq_refl) as H.
  destruct (invoke rejected any_serializer no_numeric_strings c test_client) as [[o s'] t].
  destruct H as (Hs & _ & _ & H). split; [|exact Hs].
  exact H.
Defined.

End CrudExamples.

(* ===================================================================== *)
(** * Authentication and the bearer token *)
(* ===================================================================== *)

Section Auth.
Import Js SupabaseClient Spec Fixtures.

Variable fetch : Request -> FetchResult.
Variable JSON_stringify : JsVal -> JsVal.
Variable StringToNumber_positive : string -> bool.

Lemma lookup_fresh (st : list Props) (o : Props) : (st ++ [o]) !! length st = Some o.
Proof. by apply list_lookup_middle. Qed.

Lemma alter_fresh (f : Props -> Props) (st : list Props) (o : Props) :
  alter f (length st) (st ++ [o]) = st ++ [f o].
Proof. rewrite <- (Nat.add_0_r (length st)) at 1. by rewrite alter_app_r. Qed.

(** [signOut], path by path. *)
Lemma signOut_anatomy accessToken s :
  signOut fetch accessToken s
  = if truthy accessToken && negb (coercible accessToken)
    then
      (Throw not_primitive, after_alloc s,
       [EvAlloc (length (store s)) (own_entries (stored_headers s));
        EvConsole LError "Error signing out:" (Some not_primitive)])
    else
      let req := logout_request s accessToken in
      let sent := copy_events s accessToken ++ [EvFetch req] in
      let failed e :=
        (Throw e, after_copy s accessToken,
         sent ++ [EvConsole LError "Error signing out:" (Some e)]) in
      match fetch req with
      | Rejected e => failed e
      | Resolved r =>
          match logout_answer r with
          | Throw e => failed e
          | Return warned =>
              (Return JUndefined, reset (after_copy s accessToken),
               sent
               ++ match warned with
                  | Some body => [EvConsole LWarn (logout_warning r body) None]
                  | None => []
                  end
               ++ [EvWrite (headers (this s)) "Authorization" (anon_bearer s)])
          end
      end.
Proof.
  unfold signOut, logout_request, after_copy, after_alloc, copy_events, logout_answer,
    reset, anon_bearer, logout_warning, logout_reason, field, logout_headers.
  destruct (truthy accessToken); cbn [andb].
  - rewrite (ToString_text accessToken).
    destruct (coercible accessToken); cbn [negb]; run_method; cbn [this store];
      [|reflexivity].
    rewrite alter_fresh, lookup_fresh. cbn [default app].
    destruct (fetch _) as [[[] st [body|e]]|e];
      cbn [ok json statusText negb app obind this store]; try reflexivity.
    destruct (Get body "msg") as [msg|e] eqn:Emsg; [|reflexivity].
    destruct (Get body "message") as [m|e] eqn:Em.
    + cbn [this store app obind]. rewrite ToString_text.
      destruct (coercible _); cbv beta match zeta; rewrite ?Emsg, ?Em; reflexivity.
    + exfalso. destruct body; discriminate.
  - run_method; cbn [this store]. rewrite lookup_fresh. cbn [default app].
    destruct (fetch _) as [[[] st [body|e]]|e];
      cbn [ok json statusText negb app obind this store]; try reflexivity.
    destruct (Get body "msg") as [msg|e] eqn:Emsg; [|reflexivity].
    destruct (Get body "message") as [m|e] eqn:Em.
    + cbn [this store app obind]. rewrite ToString_text.
      destruct (coercible _); cbv beta match zeta; rewrite ?Emsg, ?Em; reflexivity.
    + exfalso. destruct body; discriminate.
Qed.

Lemma wf_state_live s : wf_state s -> (headers (this s) < length (store s))%nat.
Proof. intros (h & Hh & _). by apply lookup_lt_Some in Hh. Qed.

Lemma wf_state_props s : wf_state s -> wf_props (stored_headers s).
Proof. intros (h & Hh & Hwf). unfold stored_headers. by rewrite Hh. Qed.

(** Making the copy leaves the stored header map as it was. *)
Lemma stored_after_copy s accessToken :
  wf_state s -> stored_headers (after_copy s accessToken) = stored_headers s.
Proof.
  intros Hwf. unfold stored_headers, after_copy. cbn [this store].
  rewrite lookup_app_l by by apply wf_state_live. done.
Qed.


(** The reset writes the anon key into the stored header map. *)
Lemma stored_after_reset s accessToken :
  wf_state s ->
  stored_headers (reset (after_copy s accessToken))
  = set_prop (stored_headers s) "Authorization" (anon_bearer s).
Proof.
  intros Hwf. pose proof (wf_state_live s Hwf) as Hlive.
  destruct Hwf as (h & Hh & _).
  unfold stored_headers, reset, after_copy, anon_bearer. cbn [this store].
  rewrite list_lookup_alter_eq, lookup_app_l by done. rewrite Hh. reflexivity.
Qed.

Lemma writes_of_copy s accessToken :
  wf_state s -> writes_to (headers (this s)) (copy_events s accessToken) = [].
Proof.
  intros Hwf. apply wf_state_live in Hwf. unfold copy_events, writes_to.
  destruct (truthy accessToken); simpl; [|done].
  destruct (Nat.eqb_spec (length (store s)) (headers (this s))); [lia|done].
Qed.

Lemma requests_of_copy s accessToken : requests (copy_events s accessToken) = [].
Proof. unfold copy_events, requests. by destruct (truthy accessToken). Qed.


Lemma authorization_after_reset s accessToken :
  wf_state s -> authorization (reset (after_copy s accessToken)) = anon_bearer s.
Proof.
  intros Hwf. unfold authorization. rewrite stored_after_reset by done.
  apply prop_set_prop_eq.
Qed.




(** C10, as stated, fails in its last part: when [signOut(t)] is called
    with the token the client holds and the logout call fails at the
    transport level, the stored [Authorization] header afterwards is
    still [Bearer t], not [Bearer <API key>]. *)
Lemma explicit_token_survives_transport_failure :
  let t := JStr "user-jwt" in
  let '(o, s', ev) := signOut (backend network_down) t signed_in_client in
  authorization s' = JStr ("Bearer " +:+ text t)
  /\ authorization s' <> JStr ("Bearer " +:+ supabaseKey (this s')).
Proof. vm_compute. split; [reflexivity|discriminate]. Qed.

(** C10 (amended): for every call [signOut(t)] with an explicit token
    [t] that can be string-coerced (a token that cannot raises the
    [TypeError] of the coercion before anything is sent, see
    [signOut_anatomy]), the logout request is sent with
    [Authorization: Bearer t] and
    with every other stored header unchanged; the substitution is made on
    a fresh copy of the header map, so the only write [signOut] ever makes
    to the stored map is the reset of [Authorization] to
    [Bearer <API key>], and no other stored header changes; whenever the
    call completes without raising, the stored [Authorization] header
    afterwards is [Bearer <API key>]. *)
Theorem signOut_explicit_token t s :
  wf_state s -> truthy t = true -> coercible t = true ->
  let req := logout_request s t in
  let '(o, s', ev) := signOut fetch t s in
  requests ev = [req]
  /\ bearer_of req = JStr ("Bearer " +:+ text t)
  /\ (forall k, k <> "Authorization" ->
      prop (req_headers req) k = prop (stored_headers s) k)
  /\ (exists rest,
        ev = EvAlloc (length (store s)) (own_entries (stored_headers s))
             :: EvWrite (length (store s)) "Authorization"
                  (JStr ("Bearer " +:+ text t))
             :: EvFetch req :: rest)
  /\ length (store s) <> headers (this s)
  /\ (forall k v, In (k, v) (writes_to (headers (this s)) ev) ->
      k = "Authorization" /\ v = anon_bearer s)
  /\ (forall k, k <> "Authorization" ->
      prop (stored_headers s') k = prop (stored_headers s) k)
  /\ (authorization s' = authorization s \/ authorization s' = anon_bearer s)
  /\ (o = Return JUndefined -> authorization s' = anon_bearer s).
Proof.
  intros Hwf Ht Hc req. rewrite signOut_anatomy, Ht, Hc. cbn [andb negb]. cbv zeta.
  fold req.
  pose proof (wf_state_live s Hwf) as Hlive.
  pose proof (wf_state_props s Hwf) as Hprops.
  pose proof (requests_of_copy s t) as Hreq.
  pose proof (writes_of_copy s t Hwf) as Hwr.
  pose proof (authorization_after_reset s t Hwf) as Hauth.
  pose proof (stored_after_copy s t Hwf) as Hcopy.
  pose proof (stored_after_reset s t Hwf) as Hreset.
  assert (bearer_of req = JStr ("Bearer " +:+ text t)) as Hbearer.
  { unfold bearer_of, req, logout_request, logout_headers. cbn [req_headers].
    rewrite Ht. apply prop_set_prop_eq. }
  assert (forall k, k <> "Authorization" ->
            prop (req_headers req) k = prop (stored_headers s) k) as Hframe.
  { intros k Hk. unfold req, logout_request, logout_headers. cbn [req_headers].
    rewrite Ht, prop_set_prop_ne by done. by apply prop_own_entries. }
  assert (copy_events s t
          = [EvAlloc (length (store s)) (own_entries (stored_headers s));
             EvWrite (length (store s)) "Authorization"
               (JStr ("Bearer " +:+ text t))]) as Hev.
  { unfold copy_events. by rewrite Ht. }
  assert (writes_to (headers (this s))
            [EvWrite (headers (this s)) "Authorization" (anon_bearer s)]
          = [("Authorization", anon_bearer s)]) as Hlast.
  { unfold writes_to. simpl. by rewrite Nat.eqb_refl. }
  assert (forall e,
             let ev := (copy_events s t ++ [EvFetch req])
                       ++ [EvConsole LError "Error signing out:" (Some e)] in
             requests ev = [req]
             /\ (exists rest,
                   ev = EvAlloc (length (store s)) (own_entries (stored_headers s))
                        :: EvWrite (length (store s)) "Authorization"
                             (JStr ("Bearer " +:+ text t))
                        :: EvFetch req :: rest)
             /\ (forall k v, In (k, v) (writes_to (headers (this s)) ev) ->
                 k = "Authorization" /\ v = anon_bearer s)) as Hfailed.
  { intros e ev. subst ev. split; [|split].
    - unfold requests in *. rewrite !omap_app, Hreq. reflexivity.
    - rewrite Hev. eexists. reflexivity.
    - intros k v. unfold writes_to in *. rewrite !omap_app, Hwr. by intros []. }
  assert (forall warned,
             let ev := (copy_events s t ++ [EvFetch req])
                       ++ warned
                       ++ [EvWrite (headers (this s)) "Authorization" (anon_bearer s)] in
             writes_to (headers (this s)) warned = [] -> requests warned = [] ->
             requests ev = [req]
             /\ (exists rest,
                   ev = EvAlloc (length (store s)) (own_entries (stored_headers s))
                        :: EvWrite (length (store s)) "Authorization"
                             (JStr ("Bearer " +:+ text t))
                        :: EvFetch req :: rest)
             /\ (forall k v, In (k, v) (writes_to (headers (this s)) ev) ->
                 k = "Authorization" /\ v = anon_bearer s)) as Hdone.
  { intros warned ev Hw Hr. subst ev. split; [|split].
    - unfold requests in *. rewrite !omap_app, Hreq, Hr. reflexivity.
    - rewrite Hev. eexists. reflexivity.
    - intros k v. unfold writes_to in *. rewrite !omap_app, Hwr, Hw, Hlast.
      intros [[= <- <-]|[]]. done. }
  assert (forall e (rest : list Event),
             let result := (Throw e : Outcome JsVal, after_copy s t, rest) in
             (forall k, k <> "Authorization" ->
                prop (stored_headers (after_copy s t)) k = prop (stored_headers s) k)
             /\ (authorization (after_copy s t) = authorization s
                 \/ authorization (after_copy s t) = anon_bearer s)
             /\ (Throw e = Return JUndefined ->
                 authorization (after_copy s t) = anon_bearer s)) as Hkept.
  { intros e rest result. unfold authorization. rewrite Hcopy.
    split; [done|]. split; [by left|done]. }
  assert ((forall k, k <> "Authorization" ->
             prop (stored_headers (reset (after_copy s t))) k = prop (stored_headers s) k)
          /\ (authorization (reset (after_copy s t)) = authorization s
              \/ authorization (reset (after_copy s t)) = anon_bearer s)
          /\ (Return JUndefined = Return JUndefined ->
              authorization (reset (after_copy s t)) = anon_bearer s)) as Hwritten.
  { split; [|split; [by right|done]].
    intros k Hk. rewrite Hreset. apply prop_set_prop_ne. congruence. }
  assert (length (store s) <> headers (this s)) as Hfresh by lia.
  destruct (fetch req) as [r|e].
  - destruct (logout_answer r) as [[body|]|e].
    + destruct (Hdone [EvConsole LWarn (logout_warning r body) None] eq_refl eq_refl)
        as (H1 & H2 & H3).
      destruct Hwritten as (H4 & H5 & H6). done.
    + destruct (Hdone [] eq_refl eq_refl) as (H1 & H2 & H3).
      destruct Hwritten as (H4 & H5 & H6). done.
    + destruct (Hfailed e) as (H1 & H2 & H3).
      destruct (Hkept e []) as (H4 & H5 & H6). done.
  - destruct (Hfailed e) as (H1 & H2 & H3).
    destruct (Hkept e []) as (H4 & H5 & H6). done.
Qed.

(** ** Sign-in and the requests that follow *)

Lemma signIn_success email password s result s' t :
  signIn fetch JSON_stringify email password s = (Return result, s', t) ->
  forall token, Get result "access_token" = Return token ->
  (truthy token = true -> coercible token = true)
  /\ s' = if truthy token then with_token s token else s.
Proof.
  unfold signIn, setAuthToken, with_token. run_method.
  destruct (fetch _) as [[[] st [body|e]]|e];
    cbn [ok json statusText negb app]; try discriminate.
  - destruct (Get body "access_token") as [token'|e] eqn:Et; [|discriminate].
    destruct (truthy token') eqn:Etr.
    + rewrite (ToString_text token').
      destruct (coercible token') eqn:Ec; run_method; cbn [this store];
        [|discriminate].
      intros [= <- <- <-] token; rewrite Et; intros [= <-]. by rewrite Etr.
    + run_method; cbn [this store].
      intros [= <- <- <-] token; rewrite Et; intros [= <-]. by rewrite Etr.
  - destruct (Get body "error_description"); [|discriminate].
    destruct (Get body "msg"); [|discriminate].
    destruct (Get body "message"); [|discriminate].
    destruct (ToString _); discriminate.
Qed.

Lemma authorization_with_token s token :
  wf_state s ->
  wf_state (with_token s token)
  /\ authorization (with_token s token) = JStr ("Bearer " +:+ text token).
Proof.
  intros (h & Hh & Hwf). unfold wf_state, authorization, stored_headers, with_token.
  cbn [this store]. rewrite list_lookup_alter_eq, Hh. cbn [fmap option_fmap option_map default].
  split.
  - eexists. split; [reflexivity|]. by apply wf_props_set_prop.
  - apply prop_set_prop_eq.
Qed.

(** A sign-in answered with a success status and an access token returns
    the parsed body and writes the token, once, into the stored header
    map. *)
Lemma signIn_granted email password s req r body token :
  descriptor JSON_stringify (SignIn email password) s = Return req ->
  fetch req = Resolved r -> ok r = true -> json r = Return body ->
  Get body "access_token" = Return token -> truthy token = true ->
  signIn fetch JSON_stringify email password s
  = if coercible token
    then
      (Return body, with_token s token,
       [EvFetch req;
        EvWrite (headers (this s)) "Authorization" (JStr ("Bearer " +:+ text token))])
    else
      (Throw not_primitive, s,
       [EvFetch req; EvConsole LError "Error signing in:" (Some not_primitive)]).
Proof.
  cbn [descriptor]. intros [= <-] Hfetch Hok Hjson Htoken Htruthy.
  unfold signIn, setAuthToken, with_token. run_method.
  unfold stored_headers in Hfetch. rewrite Hfetch.
  destruct r as [okr st js]. cbn [ok json statusText] in *. subst okr js.
  cbn [negb]. rewrite Htoken, Htruthy, (ToString_text token).
  destruct (coercible token); run_method; destruct s as [[] ?]; reflexivity.
Qed.

(** Every call sends at most one request: the one of its descriptor. *)
Lemma invoke_requests c s :
  requests (events_of (invoke fetch JSON_stringify StringToNumber_positive c s))
  = match descriptor JSON_stringify c s with
    | Return req => [req]
    | Throw _ => []
    end.
Proof.
  assert (forall label built,
             requests (events_of (round_trip fetch label built s))
             = match built with Return req => [req] | Throw _ => [] end) as Hrt.
  { intros label [req|e]; [|done]. unfold round_trip.
    by destruct (classify (fetch req)). }
  destruct c; cbn [invoke].
  - rewrite (read_round_trip fetch JSON_stringify). apply Hrt.
  - rewrite (query_round_trip fetch JSON_stringify). apply Hrt.
  - rewrite getById_query, (query_round_trip fetch JSON_stringify).
    change (descriptor JSON_stringify (GetById table id options) s)
      with (descriptor JSON_stringify (Query table (by_id id) (with_limit_one options)) s).
    specialize (Hrt (log_label (Query table (by_id id) (with_limit_one options)))
                  (descriptor JSON_stringify
                     (Query table (by_id id) (with_limit_one options)) s)).
    destruct (round_trip _ _ _ _) as [[[results|e] s'] t];
      [destruct (Get results "length") as [len|e];
       [destruct (gt_zero _ len) as [[]|e]; [destruct (Get results "0")| |]|]|];
      unfold events_of, requests in *; cbn [snd] in *;
      rewrite ?omap_app, Hrt; cbn; by rewrite ?app_nil_r.
  - rewrite insert_round_trip. apply Hrt.
  - rewrite insertMany_round_trip. apply Hrt.
  - rewrite update_round_trip. apply Hrt.
  - unfold updateById. rewrite update_round_trip. apply Hrt.
  - rewrite (delete_round_trip fetch JSON_stringify). apply Hrt.
  - unfold deleteById. rewrite (delete_round_trip fetch JSON_stringify). apply Hrt.
  - unfold signUp, descriptor. run_method.
    destruct (fetch _) as [[[] st [body|e]]|e];
      cbn [ok json statusText negb app]; try reflexivity.
    split_get.
  - unfold signIn, setAuthToken, descriptor. run_method.
    destruct (fetch _) as [[[] st [body|e]]|e];
      cbn [ok json statusText negb app]; try reflexivity.
    + destruct (Get body "access_token") as [token|e]; [|reflexivity].
      destruct (truthy token); [destruct (ToString token)|]; reflexivity.
    + split_get.
  - rewrite signOut_anatomy. cbn [descriptor].
    destruct (truthy accessToken) eqn:Etr; cbn [andb];
      [rewrite (ToString_text accessToken); destruct (coercible accessToken);
       cbn [negb obind]; [|reflexivity]|cbn [obind]]; cbv zeta.
    all: pose proof (requests_of_copy s accessToken) as Hreq.
    all: destruct (fetch _) as [r|e].
    all: try (destruct (logout_answer r) as [warned|e]; unfold events_of, requests in *;
              cbn [snd]; rewrite !omap_app, Hreq; [by destruct warned|done]).
    all: unfold events_of, requests in *; cbn [snd]; by rewrite !omap_app, Hreq.
Qed.

(** A call other than [signIn] and [signOut] leaves the state as it
    was. *)
Lemma invoke_keeps_state c s :
  keeps_credentials c = true ->
  state_of (invoke fetch JSON_stringify StringToNumber_positive c s) = s.
Proof.
  assert (forall label built, state_of (round_trip fetch label built s) = s) as Hrt.
  { intros label [req|e]; [|done]. unfold round_trip.
    by destruct (classify (fetch req)). }
  intros Hk. destruct c; try discriminate; cbn [invoke].
  - rewrite (read_round_trip fetch JSON_stringify). apply Hrt.
  - rewrite (query_round_trip fetch JSON_stringify). apply Hrt.
  - rewrite getById_query, (query_round_trip fetch JSON_stringify).
    specialize (Hrt (log_label (Query table (by_id id) (with_limit_one options)))
                  (descriptor JSON_stringify
                     (Query table (by_id id) (with_limit_one options)) s)).
    destruct (round_trip _ _ _ _) as [[[results|e] s'] t]; unfold state_of in *;
      cbn [fst snd] in *; [|done].
    destruct (Get results "length") as [len|e]; [|done].
    destruct (gt_zero _ len) as [[]|e]; [|done..]. by destruct (Get results "0").
  - rewrite insert_round_trip. apply Hrt.
  - rewrite insertMany_round_trip. apply Hrt.
  - rewrite update_round_trip. apply Hrt.
  - unfold updateById. rewrite update_round_trip. apply Hrt.
  - rewrite (delete_round_trip fetch JSON_stringify). apply Hrt.
  - unfold deleteById. rewrite (delete_round_trip fetch JSON_stringify). apply Hrt.
  - unfold signUp. run_method.
    destruct (fetch _) as [[[] st [body|e]]|e];
      cbn [ok json statusText negb app]; try reflexivity.
    split_get.
Qed.

(** A request built from the stored header map carries the stored
    [Authorization] header. *)
Lemma descriptor_bearer c s req :
  wf_state s -> uses_stored_headers c = true ->
  descriptor JSON_stringify c s = Return req ->
  bearer_of req = authorization s.
Proof.
  intros Hwf Huse. unfold bearer_of, authorization.
  destruct c; cbn [descriptor]; unfold obind;
    repeat match goal with
           | |- context [match ?o with Return _ => _ | Throw _ => _ end] => destruct o
           end;
    try discriminate; try (by intros [= <-]).
  intros [= <-]. cbn [uses_stored_headers] in Huse. apply negb_true_iff in Huse.
  unfold logout_request, logout_headers. cbn [req_headers]. rewrite Huse.
  apply prop_own_entries. by apply wf_state_props.
Qed.

End Auth.

Section Sessions.
Import Js SupabaseClient Spec Fixtures.

Variable JSON_stringify : JsVal -> JsVal.
Variable StringToNumber_positive : string -> bool.

Lemma session_app calls calls' s :
  session JSON_stringify StringToNumber_positive (calls ++ calls') s
  = let '(s1, t1) := session JSON_stringify StringToNumber_positive calls s in
    let '(s2, t2) := session JSON_stringify StringToNumber_positive calls' s1 in
    (s2, t1 ++ t2).
Proof.
  revert s. induction calls as [|[fetch c] calls IH]; intros s; cbn [session app].
  - by destruct (session _ _ calls' s).
  - destruct (invoke fetch _ _ c s) as [[o s1] t1]. rewrite IH.
    destruct (session _ _ calls s1) as [s2 t2].
    destruct (session _ _ calls' s2) as [s3 t3]. by rewrite app_assoc.
Qed.

(** The requests of one call made from the stored header map carry the
    stored [Authorization] header. *)
Lemma invoke_bearer fetch c s req :
  wf_state s -> uses_stored_headers c = true ->
  In req (requests (events_of (invoke fetch JSON_stringify StringToNumber_positive c s))) ->
  bearer_of req = authorization s.
Proof.
  intros Hwf Huse. rewrite invoke_requests.
  destruct (descriptor JSON_stringify c s) as [req'|e] eqn:Ed; [|by intros []].
  intros [<-|[]]. by apply (descriptor_bearer JSON_stringify c s).
Qed.

(** Calls that keep the credentials leave the state as it was, and each
    of their requests carries the stored [Authorization] header. *)
Lemma session_keeps calls s :
  wf_state s ->
  Forall (fun fc => keeps_credentials (snd fc) = true) calls ->
  fst (session JSON_stringify StringToNumber_positive calls s) = s
  /\ forall req,
       In req (requests (snd (session JSON_stringify StringToNumber_positive calls s))) ->
       bearer_of req = authorization s.
Proof.
  intros Hwf Hall. induction Hall as [|[fetch c] calls Hc _ IH]; cbn [session].
  - split; [done|]. by intros req [].
  - cbn [snd] in Hc.
    pose proof (invoke_keeps_state fetch JSON_stringify StringToNumber_positive c s Hc) as Hs.
    assert (uses_stored_headers c = true) as Huse by by destruct c.
    pose proof (invoke_bearer fetch c s) as Hb.
    destruct (invoke fetch _ _ c s) as [[o s1] t1]. unfold state_of, events_of in *.
    cbn [fst snd] in *. subst s1.
    destruct (session _ _ calls s) as [s2 t2]. cbn [fst snd] in *.
    destruct IH as [-> IH]. split; [done|].
    intros req. unfold requests in *. rewrite omap_app, in_app_iff.
    intros [Hin|Hin]; [by apply Hb|by apply IH].
Qed.

(** C2, as stated, fails: after a sign-in that returned the token
    [user-jwt], a [signOut] given another token sends its logout request
    with that other token, not with the returned one. *)
Lemma signOut_request_carries_explicit_token :
  let granted := backend (status true "OK" (JObj [("access_token", JStr "user-jwt")])) in
  let '(o, s1, _) := signIn granted any_serializer (JStr "a@b.c") (JStr "pw") test_client in
  let '(_, _, t) := signOut granted (JStr "other-jwt") s1 in
  o = Return (JObj [("access_token", JStr "user-jwt")])
  /\ authorization s1 = JStr "Bearer user-jwt"
  /\ map bearer_of (requests t) = [JStr "Bearer other-jwt"]
  /\ map bearer_of (requests t) <> [JStr "Bearer user-jwt"].
Proof. vm_compute. repeat split. discriminate. Qed.

(** C2 (amended): the stored [Authorization] header is [Bearer <API key>]
    at client construction; after every [signIn] that succeeds with a
    (truthy) access token, which a success answer carrying a token that
    can be string-coerced gives, it is [Bearer <returned token>], written
    once; and from then on, for as long as the calls made are CRUD calls
    or [signUp], every request, and the request of whatever call comes
    next that sends the stored header map (any CRUD call, [signUp],
    [signIn], or [signOut] without a token), carries
    [Authorization: Bearer <returned token>].  A [signOut] given an
    explicit token sends that token instead.  A token that cannot be
    string-coerced makes [signIn] raise the [TypeError] of the coercion
    after its request, with nothing written, and makes [signOut] raise it
    with nothing sent. *)
Theorem bearer_token_lifecycle :
  (forall supabaseUrl supabaseKey st,
     authorization (fst (constructor supabaseUrl supabaseKey st))
     = JStr ("Bearer " +:+ supabaseKey)
     /\ wf_state (fst (constructor supabaseUrl supabaseKey st)))
  /\ (forall fetch email password s result s' t token,
      wf_state s ->
      signIn fetch JSON_stringify email password s = (Return result, s', t) ->
      Get result "access_token" = Return token ->
      truthy token = true ->
      coercible token = true
      /\ authorization s' = JStr ("Bearer " +:+ text token)
      /\ forall calls fetch' next,
           Forall (fun fc => keeps_credentials (snd fc) = true) calls ->
           uses_stored_headers next = true ->
           forall req,
             In req (requests
                       (snd (session JSON_stringify StringToNumber_positive
                               (calls ++ [(fetch', next)]) s'))) ->
             bearer_of req = JStr ("Bearer " +:+ text token))
  /\ (forall fetch email password s req r body token,
      descriptor JSON_stringify (SignIn email password) s = Return req ->
      fetch req = Resolved r -> ok r = true -> json r = Return body ->
      Get body "access_token" = Return token -> truthy token = true ->
      signIn fetch JSON_stringify email password s
      = if coercible token
        then
          (Return body, with_token s token,
           [EvFetch req;
            EvWrite (headers (this s)) "Authorization"
              (JStr ("Bearer " +:+ text token))])
        else
          (Throw not_primitive, s,
           [EvFetch req; EvConsole LError "Error signing in:" (Some not_primitive)]))
  /\ (forall fetch accessToken s,
      truthy accessToken = true ->
      map bearer_of
        (requests (events_of (invoke fetch JSON_stringify StringToNumber_positive
                                (SignOut accessToken) s)))
      = if coercible accessToken
        then [JStr ("Bearer " +:+ text accessToken)]
        else []).
Proof.
  split; [|split; [|split]]; [| |intros; by eapply signIn_granted|].
  - intros url key st. unfold authorization, stored_headers, wf_state, constructor.
    cbn [fst this store headers]. rewrite lookup_fresh. cbn [default]. split; [reflexivity|].
    eexists. split; [reflexivity|]. unfold wf_props. cbn [map fst].
    solve_distinct_keys.
  - intros fetch email password s result s' t token Hwf Hin Htok Htruthy.
    pose proof (signIn_success fetch JSON_stringify email password s result s' t Hin
                  token Htok) as [Hc ->].
    rewrite Htruthy. split; [by apply Hc|].
    destruct (authorization_with_token s token Hwf) as [Hwf' Hauth].
    split; [done|].
    intros calls fetch' next Hkeep Huse req. rewrite session_app.
    destruct (session_keeps calls (with_token s token) Hwf' Hkeep) as [Hs Hreqs].
    destruct (session _ _ calls (with_token s token)) as [s1 t1]. cbn [fst snd] in *.
    subst s1. cbn [session].
    pose proof (invoke_bearer fetch' next (with_token s token)) as Hb.
    destruct (invoke fetch' _ _ next (with_token s token)) as [[o s2] t2].
    unfold events_of in Hb. cbn [snd] in *.
    unfold requests in *. rewrite !omap_app, app_nil_r, in_app_iff.
    intros [Hr|Hr]; rewrite <- Hauth; [by apply Hreqs|by apply Hb].
  - intros fetch accessToken s Htruthy. rewrite invoke_requests. cbn [descriptor].
    rewrite Htruthy, (ToString_text accessToken).
    destruct (coercible accessToken); cbn [obind map]; [|reflexivity].
    unfold bearer_of, logout_request, logout_headers. cbn [req_headers].
    rewrite Htruthy. by rewrite prop_set_prop_eq.
Qed.

End Sessions.

Section AuthExamples.
Import Js SupabaseClient Spec Fixtures.

Lemma wf_test_client : wf_state test_client.
Proof.
  eexists. split; [reflexivity|]. unfold wf_props. cbn [map fst]. solve_distinct_keys.
Qed.

Lemma wf_signed_in_client : wf_state signed_in_client.
Proof.
  eexists. split; [reflexivity|]. unfold wf_props. cbn [map fst]. solve_distinct_keys.
Qed.


Lemma signOut_explicit_token_witness :
  let t := JStr "user-jwt" in
  (wf_state signed_in_client /\ truthy t = true /\ coercible t = true)
  /\ map bearer_of (requests (events_of (signOut (backend (status true "OK" JNull)) t
                                           signed_in_client)))
     = [JStr "Bearer user-jwt"]
  /\ authorization (state_of (signOut (backend (status true "OK" JNull)) t
                                signed_in_client))
     = JStr "Bearer test-key".
Proof.
  intros t. split; [split; [exact wf_signed_in_client|by split]|].
  pose proof (signOut_explicit_token (backend (status true "OK" JNull)) t signed_in_client
                wf_signed_in_client eq_refl eq_refl) as H.
  cbv zeta in H.
  destruct (signOut (backend (status true "OK" JNull)) t signed_in_client) as [[o s'] ev]
    eqn:E.
  destruct H as (Hreq & Hbearer & _ & _ & _ & _ & _ & _ & Hdone).
  unfold events_of, state_of. cbn [fst snd]. split.
  - rewrite Hreq. cbn [map]. rewrite Hbearer. reflexivity.
  - apply Hdone. vm_compute in E. by injection E as <- _ _.
Defined.

Lemma bearer_token_lifecycle_witness :
  let granted := backend (status true "OK" (JObj [("access_token", JStr "user-jwt")])) in
  let listing := backend (status true "OK" (JArr [])) in
  let result := JObj [("access_token", JStr "user-jwt")] in
  let s' := state_of (signIn granted any_serializer (JStr "a@b.c") (JStr "pw") test_client) in
  (wf_state test_client
   /\ outcome_of (signIn granted any_serializer (JStr "a@b.c") (JStr "pw") test_client)
      = Return result
   /\ Get result "access_token" = Return (JStr "user-jwt")
   /\ truthy (JStr "user-jwt") = true)
  /\ authorization s' = JStr "Bearer user-jwt"
  /\ (forall req,
        In req (requests
                  (snd (session any_serializer no_numeric_strings
                          ([(listing, Read "comments" JUndefined);
                            (listing, SignUp (JStr "c@d.e") (JStr "pw") JUndefined)]
                           ++ [(listing, Insert "comments" (JObj [("content", JStr "hi")]))])
                          s'))) ->
        bearer_of req = JStr "Bearer user-jwt")
  /\ (truthy (JStr "other-jwt") = true
      /\ map bearer_of
           (requests (events_of (invoke listing any_serializer no_numeric_strings
                                   (SignOut (JStr "other-jwt")) s')))
         = [JStr "Bearer other-jwt"]).
Proof.
  intros granted listing result s'.
  destruct (bearer_token_lifecycle any_serializer no_numeric_strings)
    as (_ & Hin & _ & Hout).
  assert (signIn granted any_serializer (JStr "a@b.c") (JStr "pw") test_client
          = (Return result, s',
             events_of (signIn granted any_serializer (JStr "a@b.c") (JStr "pw") test_client)))
    as Hrun by (vm_compute; reflexivity).
  destruct (Hin granted (JStr "a@b.c") (JStr "pw") test_client result s' _ (JStr "user-jwt")
              wf_test_client Hrun eq_refl eq_refl) as (_ & Hauth & Hnext).
  split; [split; [exact wf_test_client|split; [vm_compute; reflexivity|by split]]|].
  split; [exact Hauth|]. split.
  - apply Hnext; [|reflexivity]. by repeat constructor.
  - split; [reflexivity|]. exact (Hout listing (JStr "other-jwt") s' eq_refl).
Defined.

End AuthExamples.

(* ===================================================================== *)
(** * Escaping user text *)
(* ===================================================================== *)

Section Markup.
Import Js Comments Observations.

Lemma append_assoc (a b c : string) : (a +:+ b) +:+ c = a +:+ (b +:+ c).
Proof. induction a as [|x a IH]; [done|]. simpl. by rewrite IH. Qed.

Lemma chars_app a b : chars (a +:+ b) = chars a ++ chars b.
Proof. unfold chars. induction a as [|x a IH]; [done|]. simpl. by rewrite IH. Qed.

Lemma replace_all_app c by_ a b :
  replace_all c by_ (a +:+ b) = replace_all c by_ a +:+ replace_all c by_ b.
Proof.
  induction a as [|x a IH]; [done|]. simpl. by rewrite IH, append_assoc.
Qed.

(** The five replacements, applied to one character, give its entity:
    the ampersands the later replacements meet are those of the text,
    already rewritten. *)
Lemma replacements_on_char c :
  replace_all "'" "&#039;"
    (replace_all dquote "&quot;"
       (replace_all ">" "&gt;"
          (replace_all "<" "&lt;"
             (replace_all "&" "&amp;" (String c EmptyString)))))
  = entity c.
Proof. destruct c as [[] [] [] [] [] [] [] []]; vm_compute; reflexivity. Qed.

Lemma replacements_are_one_pass s :
  replace_all "'" "&#039;"
    (replace_all dquote "&quot;"
       (replace_all ">" "&gt;"
          (replace_all "<" "&lt;"
             (replace_all "&" "&amp;" s))))
  = escaped s.
Proof.
  induction s as [|c s IH]; [done|].
  change (String c s) with (String c EmptyString +:+ s).
  rewrite !replace_all_app, IH, replacements_on_char. reflexivity.
Qed.

Lemma entity_has_no_raw_markup c :
  forallb (fun d => negb (raw_markup d)) (chars (entity c)) = true.
Proof. destruct c as [[] [] [] [] [] [] [] []]; vm_compute; reflexivity. Qed.

(** A character is one of the five, or its own entity. *)
Lemma entity_cases c :
  (markup_char c = false /\ entity c = String c EmptyString)
  \/ (c = "&"%char \/ c = "<"%char \/ c = ">"%char \/ c = dquote \/ c = "'"%char).
Proof.
  destruct c as [[] [] [] [] [] [] [] []];
    first [left; split; vm_compute; reflexivity
          | right; vm_compute; auto 6].
Qed.

(** Entities are read off the front of a text unambiguously. *)
Lemma entity_head c r c' r' :
  entity c +:+ r = entity c' +:+ r' -> c = c' /\ r = r'.
Proof.
  destruct (entity_cases c) as [[Hc ->]|Hc], (entity_cases c') as [[Hc' ->]|Hc'].
  - simpl. by intros [= -> ->].
  - destruct Hc' as [-> | [-> | [-> | [-> | ->]]]]; simpl; intros [= -> _]; discriminate Hc.
  - destruct Hc as [-> | [-> | [-> | [-> | ->]]]]; simpl; intros [= <- _]; discriminate Hc'.
  - destruct Hc as [-> | [-> | [-> | [-> | ->]]]], Hc' as [-> | [-> | [-> | [-> | ->]]]];
      simpl; intros H; try discriminate H; by injection H as ->.
Qed.

Lemma escaped_injective s s' : escaped s = escaped s' -> s = s'.
Proof.
  revert s'. induction s as [|c s IH]; intros [|c' s']; simpl.
  - done.
  - intros H. symmetry in H. apply append_empty_inv in H as [H _].
    destruct (entity_cases c') as [[_ E]|[-> | [-> | [-> | [-> | ->]]]]];
      [rewrite E in H|..]; discriminate H.
  - intros H. apply append_empty_inv in H as [H _].
    destruct (entity_cases c) as [[_ E]|[-> | [-> | [-> | [-> | ->]]]]];
      [rewrite E in H|..]; discriminate H.
  - intros H. apply entity_head in H as [-> H]. by rewrite (IH s' H).
Qed.

Lemma escapeHtml_string s : escapeHtml (JStr s) = Return (escaped s).
Proof.
  unfold escapeHtml. cbn [truthy]. destruct (String.eqb_spec s EmptyString) as [->|_].
  - reflexivity.
  - cbn [negb]. by rewrite replacements_are_one_pass.
Qed.

Lemma escaped_plain s :
  forallb (fun c => negb (markup_char c)) (chars s) = true -> escaped s = s.
Proof.
  induction s as [|c s IH]; [done|]. unfold chars. simpl.
  intros [Hc Hs]%andb_true_iff. apply negb_true_iff in Hc.
  destruct (entity_cases c) as [[_ ->]|Hm].
  - simpl. by rewrite (IH Hs).
  - destruct Hm as [-> | [-> | [-> | [-> | ->]]]]; discriminate Hc.
Qed.

Lemma escaped_has_no_raw_markup s :
  forallb (fun d => negb (raw_markup d)) (chars (escaped s)) = true.
Proof.
  induction s as [|c s IH]; [done|]. simpl.
  rewrite chars_app, forallb_app, entity_has_no_raw_markup, IH. reflexivity.
Qed.

(** X1: the five chained replacements of [escapeHtml] amount to one pass
    over the text in which each of [&], [<], [>], the double quote and
    ['] becomes its entity and every other character stays: an ampersand
    written by a replacement is never escaped again.  A text without
    these five characters is returned as it is. *)
Theorem escapeHtml_one_pass s :
  escapeHtml (JStr s) = Return (escaped s)
  /\ (forallb (fun c => negb (markup_char c)) (chars s) = true ->
      escapeHtml (JStr s) = Return s).
Proof.
  split; [apply escapeHtml_string|].
  intros H. by rewrite escapeHtml_string, (escaped_plain s H).
Qed.

Lemma escapeHtml_one_pass_witness :
  forallb (fun c => negb (markup_char c)) (chars "Shop Owner 42") = true
  /\ escapeHtml (JStr "Shop Owner 42") = Return "Shop Owner 42".
Proof.
  split; [reflexivity|].
  exact (proj2 (escapeHtml_one_pass "Shop Owner 42") eq_refl).
Defined.

(** X2: whatever [escapeHtml] returns contains none of [<], [>], the
    double quote and [']: escaped text cannot open a tag or leave an
    attribute value. *)
Theorem escapeHtml_no_raw_markup text out :
  escapeHtml text = Return out ->
  Forall (fun c => raw_markup c = false) (chars out).
Proof.
  intros H.
  assert (forallb (fun d => negb (raw_markup d)) (chars out) = true) as Hb.
  { unfold escapeHtml in H. destruct (truthy text) eqn:Et; cbn [negb] in H.
    - destruct text; try discriminate H. injection H as <-.
      rewrite replacements_are_one_pass. apply escaped_has_no_raw_markup.
    - by injection H as <-. }
  rewrite forallb_forall in Hb. apply Forall_forall. intros c Hc.
  apply list_elem_of_In in Hc. apply Hb in Hc. by apply negb_true_iff in Hc.
Qed.

Lemma escapeHtml_no_raw_markup_witness :
  escapeHtml (JStr "<img src='x' onerror=alert(1)>")
  = Return "&lt;img src=&#039;x&#039; onerror=alert(1)&gt;"
  /\ Forall (fun c => raw_markup c = false)
       (chars "&lt;img src=&#039;x&#039; onerror=alert(1)&gt;").
Proof.
  assert (escapeHtml (JStr "<img src='x' onerror=alert(1)>")
          = Return "&lt;img src=&#039;x&#039; onerror=alert(1)&gt;") as H
    by (vm_compute; reflexivity).
  split; [exact H|].
  exact (escapeHtml_no_raw_markup _ _ H).
Defined.

(** X3: [escapeHtml] loses nothing: two texts with the same escaped form
    are the same text. *)
Theorem escapeHtml_injective s s' :
  escapeHtml (JStr s) = escapeHtml (JStr s') -> s = s'.
Proof.
  rewrite !escapeHtml_string. intros [= H]. by apply escaped_injective.
Qed.

Lemma escapeHtml_injective_witness :
  escapeHtml (JStr "a & b") = escapeHtml (JStr "a & b") /\ "a & b" = "a & b".
Proof.
  split; [reflexivity|].
  exact (escapeHtml_injective "a & b" "a & b" eq_refl).
Defined.

End Markup.

(* ===================================================================== *)
(** * Credentials and the header map *)
(* ===================================================================== *)

Section Credentials.
Import Js SupabaseClient Spec Fixtures Observations.

Variable JSON_stringify : JsVal -> JsVal.
Variable StringToNumber_positive : string -> bool.

Lemma set_prop_set_prop ps k v v' : set_prop (set_prop ps k v) k v' = set_prop ps k v'.
Proof.
  induction ps as [|[k0 v0] ps IH]; simpl.
  - by rewrite String.eqb_refl.
  - destruct (String.eqb_spec k0 k) as [->|Hne]; simpl.
    + by rewrite String.eqb_refl.
    + apply String.eqb_neq in Hne. by rewrite Hne, IH.
Qed.

Lemma set_prop_same ps k v : lookup_prop k ps = Some v -> set_prop ps k v = ps.
Proof.
  induction ps as [|[k0 v0] ps IH]; simpl; [done|].
  destruct (String.eqb_spec k0 k) as [->|Hne].
  - by intros [= ->].
  - intros H. by rewrite (IH H).
Qed.

Lemma setAuthToken_run token s :
  setAuthToken token s
  = if coercible token
    then
      (Return JUndefined, with_token s token,
       [EvWrite (headers (this s)) "Authorization"
          (JStr ("Bearer " +:+ text token))])
    else (Throw not_primitive, s, []).
Proof.
  unfold setAuthToken, with_token. run_method. rewrite (ToString_text token).
  destruct (coercible token); reflexivity.
Qed.

Lemma stored_with_token s token :
  wf_state s ->
  stored_headers (with_token s token)
  = set_prop (stored_headers s) "Authorization" (JStr ("Bearer " +:+ text token)).
Proof.
  intros (h & Hh & _). unfold stored_headers, with_token. cbn [this store].
  rewrite list_lookup_alter_eq, Hh. reflexivity.
Qed.

Lemma wf_after_copy s accessToken : wf_state s -> wf_state (after_copy s accessToken).
Proof.
  intros Hwf. pose proof (wf_state_live s Hwf) as Hlive.
  destruct Hwf as (h & Hh & Hwf). exists h.
  unfold after_copy. cbn [this store]. by rewrite lookup_app_l.
Qed.

Lemma wf_after_alloc s : wf_state s -> wf_state (after_alloc s).
Proof.
  intros Hwf. pose proof (wf_state_live s Hwf) as Hlive.
  destruct Hwf as (h & Hh & Hwf). exists h.
  unfold after_alloc. cbn [this store]. by rewrite lookup_app_l.
Qed.

Lemma wf_reset s : wf_state s -> wf_state (reset s).
Proof.
  intros (h & Hh & Hwf). unfold wf_state, reset. cbn [this store].
  rewrite list_lookup_alter_eq, Hh. eexists. split; [reflexivity|].
  by apply wf_props_set_prop.
Qed.

(** The states a call can leave behind. *)
Lemma invoke_state_cases fetch c s :
  let s' := state_of (invoke fetch JSON_stringify StringToNumber_positive c s) in
  s' = s
  \/ (exists token, s' = with_token s token)
  \/ (exists token, s' = after_copy s token)
  \/ (exists token, s' = reset (after_copy s token))
  \/ s' = after_alloc s.
Proof.
  destruct (keeps_credentials c) eqn:Hk.
  - left. by apply invoke_keeps_state.
  - destruct c; try discriminate Hk; cbn [invoke].
    + unfold signIn, setAuthToken, with_token. run_method.
      destruct (fetch _) as [[[] st [body|e]]|e];
        cbn [ok json statusText negb app]; try (by left).
      * destruct (Get body "access_token") as [token|e]; [|by left].
        destruct (truthy token); [|by left].
        rewrite (ToString_text token). destruct (coercible token); [|by left].
        right. left. by exists token.
      * repeat match goal with
               | |- context [Js.Get ?b ?k] => destruct (Js.Get b k)
               end; try (by left).
        destruct (ToString _); by left.
    + rewrite signOut_anatomy.
      destruct (truthy accessToken && negb (coercible accessToken));
        [by do 4 right|].
      cbv zeta.
      destruct (fetch _) as [r|e].
      * destruct (logout_answer r) as [warned|e].
        -- right. right. right. left. by exists accessToken.
        -- right. right. left. by exists accessToken.
      * right. right. left. by exists accessToken.
Qed.

(** A request differs from the stored header map in [Authorization] at
    most. *)
Lemma descriptor_headers c s req :
  wf_state s ->
  descriptor JSON_stringify c s = Return req ->
  forall k, k <> "Authorization" -> prop (req_headers req) k = prop (stored_headers s) k.
Proof.
  intros Hwf Hd k Hk.
  destruct c; cbn [descriptor] in Hd; unfold obind in Hd;
    repeat match type of Hd with
           | context [match ?o with Return _ => _ | Throw _ => _ end] => destruct o
           end;
    try discriminate Hd; try (by injection Hd as <-).
  injection Hd as <-. unfold logout_request, logout_headers. cbn [req_headers].
  pose proof (wf_state_props s Hwf) as Hp.
  destruct (truthy accessToken).
  - rewrite prop_set_prop_ne by congruence. by apply prop_own_entries.
  - by apply prop_own_entries.
Qed.

(** Every request goes to the base URL of the instance. *)
Lemma descriptor_url c s req :
  descriptor JSON_stringify c s = Return req ->
  exists path, req_url req = supabaseUrl (this s) +:+ path.
Proof.
  intros Hd.
  destruct c; cbn [descriptor] in Hd; unfold obind, resource in Hd;
    repeat match type of Hd with
           | context [match ?o with Return _ => _ | Throw _ => _ end] => destruct o
           end;
    try discriminate Hd; injection Hd as <-; cbn [req_url logout_request];
    rewrite ?append_assoc; eexists; reflexivity.
Qed.

(** X5: [setAuthToken(token)] writes [Bearer <token>] (the token
    string-coerced, without any other check) into the stored
    [Authorization] header and touches nothing else: the instance fields
    and every other stored header stay, no request is sent, and the
    request of the next call that sends the stored header map carries
    that bearer.  A token that cannot be string-coerced raises the
    [TypeError] of the coercion, and nothing is written. *)
Theorem setAuthToken_frame token s :
  wf_state s ->
  let '(o, s', t) := setAuthToken token s in
  this s' = this s /\ wf_state s'
  /\ requests t = []
  /\ (forall k, k <> "Authorization" ->
      prop (stored_headers s') k = prop (stored_headers s) k)
  /\ if coercible token
     then
       o = Return JUndefined
       /\ writes_to (headers (this s)) t
          = [("Authorization", JStr ("Bearer " +:+ text token))]
       /\ authorization s' = JStr ("Bearer " +:+ text token)
       /\ (forall fetch c req,
             uses_stored_headers c = true ->
             In req (requests (events_of (invoke fetch JSON_stringify
                                            StringToNumber_positive c s'))) ->
             bearer_of req = JStr ("Bearer " +:+ text token))
     else o = Throw not_primitive /\ s' = s /\ t = [].
Proof.
  intros Hwf. rewrite setAuthToken_run.
  destruct (coercible token); [|done].
  destruct (authorization_with_token s token Hwf) as [Hwf' Hauth].
  split; [done|]. split; [done|]. split; [done|]. split.
  { intros k Hk. rewrite stored_with_token by done. apply prop_set_prop_ne. congruence. }
  split; [done|]. split.
  { unfold writes_to. simpl. by rewrite Nat.eqb_refl. }
  split; [done|].
  intros fetch c req Huse Hin. rewrite <- Hauth.
  by apply (invoke_bearer JSON_stringify StringToNumber_positive fetch c).
Qed.

(** X6: a sign-out that completes undoes [setAuthToken]: on a client
    whose stored [Authorization] header is [Bearer <API key>], setting a
    token (one that can be string-coerced, so that it is written) and
    then signing out (with or without an explicit token) leaves the
    stored header map, and the instance fields, exactly as they were. *)
Theorem signOut_restores_header_map fetch token accessToken s :
  wf_state s -> coercible token = true ->
  lookup_prop "Authorization" (stored_headers s) = Some (anon_bearer s) ->
  setAuthToken token s
  = (Return JUndefined, with_token s token,
     [EvWrite (headers (this s)) "Authorization" (JStr ("Bearer " +:+ text token))])
  /\ let '(o, s2, _) := signOut fetch accessToken (with_token s token) in
     o = Return JUndefined ->
     stored_headers s2 = stored_headers s /\ this s2 = this s.
Proof.
  intros Hwf Hc Hanon. split; [by rewrite setAuthToken_run, Hc|].
  destruct (authorization_with_token s token Hwf) as [Hwf' _].
  rewrite signOut_anatomy.
  destruct (truthy accessToken && negb (coercible accessToken)); [discriminate|].
  cbv zeta.
  assert (stored_headers (reset (after_copy (with_token s token) accessToken))
          = stored_headers s) as Hback.
  { rewrite stored_after_reset, stored_with_token by done.
    rewrite set_prop_set_prop. unfold anon_bearer, with_token. cbn [this].
    by apply set_prop_same. }
  destruct (fetch _) as [r|e]; [|discriminate].
  destruct (logout_answer r) as [warned|e]; [|discriminate].
  intros _. by split.
Qed.

Lemma own_entries_header_map key bearer :
  own_entries (header_map key bearer) = header_map key bearer.
Proof. apply own_entries_no_index. by repeat constructor. Qed.

Lemma canonical_wf s : canonical s -> wf_state s.
Proof.
  intros [bearer Hb]. eexists. split; [exact Hb|].
  unfold wf_props, header_map. cbn [map fst]. solve_distinct_keys.
Qed.

Lemma canonical_with_token s token : canonical s -> canonical (with_token s token).
Proof.
  intros [bearer Hb]. unfold canonical, with_token. cbn [this store].
  rewrite list_lookup_alter_eq, Hb. eexists. reflexivity.
Qed.

Lemma canonical_after_copy s token : canonical s -> canonical (after_copy s token).
Proof.
  intros Hc. pose proof (wf_state_live s (canonical_wf s Hc)) as Hlive.
  destruct Hc as [bearer Hb]. exists bearer.
  unfold after_copy. cbn [this store]. by rewrite lookup_app_l.
Qed.

Lemma canonical_after_alloc s : canonical s -> canonical (after_alloc s).
Proof.
  intros Hc. pose proof (wf_state_live s (canonical_wf s Hc)) as Hlive.
  destruct Hc as [bearer Hb]. exists bearer.
  unfold after_alloc. cbn [this store]. by rewrite lookup_app_l.
Qed.

Lemma canonical_reset s : canonical s -> canonical (reset s).
Proof.
  intros [bearer Hb]. unfold canonical, reset. cbn [this store].
  rewrite list_lookup_alter_eq, Hb. eexists. reflexivity.
Qed.

Lemma descriptor_canonical c s req :
  canonical s ->
  descriptor JSON_stringify c s = Return req ->
  exists bearer, req_headers req = header_map (supabaseKey (this s)) bearer.
Proof.
  intros [bearer Hb] Hd.
  assert (stored_headers s = header_map (supabaseKey (this s)) bearer) as Hs.
  { unfold stored_headers. by rewrite Hb. }
  destruct c; cbn [descriptor] in Hd; unfold obind in Hd;
    repeat match type of Hd with
           | context [match ?o with Return _ => _ | Throw _ => _ end] => destruct o
           end;
    try discriminate Hd; try (injection Hd as <-; cbn [req_headers]; by eauto).
  injection Hd as <-. unfold logout_request, logout_headers. cbn [req_headers].
  rewrite Hs, own_entries_header_map. destruct (truthy accessToken); eexists; reflexivity.
Qed.

(** X7: [setCredentials(url, key)] points the instance at a new header
    map, [apikey: key] and [Authorization: Bearer key] with the two fixed
    headers, whatever token was stored before; the objects already in the
    store, the previous header map among them, are left as they were.
    The request of the call made next, whichever it is, goes to [url]
    with [apikey: key], and with [Bearer key] when it sends the stored
    header map. *)
Theorem setCredentials_replaces_header_map url key s :
  let '(o, s', t) := setCredentials url key s in
  o = Return JUndefined
  /\ this s' = mkInstance url key (length (store s))
  /\ (forall l h, store s !! l = Some h -> store s' !! l = Some h)
  /\ stored_headers s' = header_map key (JStr ("Bearer " +:+ key))
  /\ requests t = []
  /\ (forall fetch c req,
        In req (requests (events_of (invoke fetch JSON_stringify
                                       StringToNumber_positive c s'))) ->
        prop (req_headers req) "apikey" = JStr key
        /\ (uses_stored_headers c = true ->
            bearer_of req = JStr ("Bearer " +:+ key))
        /\ exists path, req_url req = url +:+ path).
Proof.
  unfold setCredentials. run_method. cbn [this store].
  set (s' := mkState (mkInstance url key (length (store s)))
               (store s ++ [[("apikey", JStr key);
                             ("Authorization", JStr ("Bearer " +:+ key));
                             ("Content-Type", JStr "application/json");
                             ("Prefer", JStr "return=representation")]])).
  assert (stored_headers s' = header_map key (JStr ("Bearer " +:+ key)))
    as Hstored.
  { unfold stored_headers, s'. cbn [this store headers]. by rewrite lookup_fresh. }
  assert (canonical s') as Hcan.
  { exists (JStr ("Bearer " +:+ key)). unfold s'. cbn [this store headers supabaseKey].
    apply lookup_fresh. }
  split; [done|]. split; [done|]. split.
  { intros l h Hl. apply lookup_app_l_Some. exact Hl. }
  split; [exact Hstored|]. split; [done|].
  intros fetch c req. rewrite invoke_requests.
  destruct (descriptor JSON_stringify c s') as [req'|e] eqn:Hd; [|by intros []].
  intros [<-|[]]. split; [|split].
  - rewrite (descriptor_headers c s' req' (canonical_wf s' Hcan) Hd) by discriminate.
    by rewrite Hstored.
  - intros Huse.
    rewrite (descriptor_bearer JSON_stringify c s' req' (canonical_wf s' Hcan) Huse Hd).
    unfold authorization. by rewrite Hstored.
  - apply (descriptor_url c s' req' Hd).
Qed.

(** X8: the stored header map always consists of the four headers
    [apikey], [Authorization], [Content-Type] and [Prefer], in this
    order, with the API key of the instance: the constructor and
    [setCredentials] establish this shape and [setAuthToken] and every
    asynchronous method keep it.  Hence every request any method sends
    carries exactly these four headers, with [apikey: <API key>],
    [Content-Type: application/json] and
    [Prefer: return=representation]. *)
Theorem header_map_invariant :
  (forall supabaseUrl supabaseKey st,
     canonical (fst (constructor supabaseUrl supabaseKey st)))
  /\ (forall supabaseUrl supabaseKey s,
      canonical (state_of (setCredentials supabaseUrl supabaseKey s)))
  /\ (forall token s, canonical s -> canonical (state_of (setAuthToken token s)))
  /\ (forall fetch c s,
      canonical s ->
      canonical (state_of (invoke fetch JSON_stringify StringToNumber_positive c s)))
  /\ (forall fetch c s req,
      canonical s ->
      In req (requests (events_of (invoke fetch JSON_stringify
                                     StringToNumber_positive c s))) ->
      exists bearer, req_headers req = header_map (supabaseKey (this s)) bearer).
Proof.
  split; [|split; [|split; [|split]]].
  - intros url key st. eexists. unfold constructor. cbn [fst this store headers supabaseKey].
    apply lookup_fresh.
  - intros url key s. eexists. unfold setCredentials, state_of. run_method.
    cbn [fst snd this store headers supabaseKey]. apply lookup_fresh.
  - intros token s Hc. rewrite setAuthToken_run.
    destruct (coercible token); [by apply canonical_with_token|done].
  - intros fetch c s Hc.
    destruct (invoke_state_cases fetch c s) as [->|[[tok ->]|[[tok ->]|[[tok ->]| ->]]]].
    + done.
    + by apply canonical_with_token.
    + by apply canonical_after_copy.
    + by apply canonical_reset, canonical_after_copy.
    + by apply canonical_after_alloc.
  - intros fetch c s req Hc. rewrite invoke_requests.
    destruct (descriptor JSON_stringify c s) as [req'|e] eqn:Hd; [|by intros []].
    intros [<-|[]]. by apply (descriptor_canonical c s).
Qed.

(** X9: after a [signOut] that completes, for as long as the calls made
    are CRUD calls or [signUp], every request, and the request of
    whatever call comes next that sends the stored header map, carries
    [Authorization: Bearer <API key>]. *)
Theorem requests_after_signOut fetch accessToken s s' t :
  wf_state s ->
  signOut fetch accessToken s = (Return JUndefined, s', t) ->
  forall calls fetch' next,
    Forall (fun fc => keeps_credentials (snd fc) = true) calls ->
    uses_stored_headers next = true ->
    forall req,
      In req (requests (snd (session JSON_stringify StringToNumber_positive
                               (calls ++ [(fetch', next)]) s'))) ->
      bearer_of req = anon_bearer s.
Proof.
  intros Hwf Hrun calls fetch' next Hkeep Huse req.
  assert (s' = reset (after_copy s accessToken)) as ->.
  { rewrite signOut_anatomy in Hrun.
    destruct (truthy accessToken && negb (coercible accessToken));
      [discriminate Hrun|].
    cbv zeta in Hrun.
    destruct (fetch _) as [r|e]; [|discriminate Hrun].
    destruct (logout_answer r) as [warned|e]; [|discriminate Hrun].
    by injection Hrun as <- _. }
  pose proof (wf_reset _ (wf_after_copy s accessToken Hwf)) as Hwf'.
  pose proof (authorization_after_reset s accessToken Hwf) as Hauth.
  rewrite session_app.
  destruct (session_keeps JSON_stringify StringToNumber_positive calls _ Hwf' Hkeep)
    as [Hs Hreqs].
  destruct (session _ _ calls _) as [s1 t1]. cbn [fst snd] in *. subst s1.
  cbn [session].
  pose proof (invoke_bearer JSON_stringify StringToNumber_positive fetch' next
                (reset (after_copy s accessToken))) as Hb.
  destruct (invoke fetch' _ _ next _) as [[o s2] t2].
  unfold events_of in Hb. cbn [snd] in *.
  unfold requests in *. rewrite !omap_app, app_nil_r, in_app_iff.
  intros [Hr|Hr]; rewrite <- Hauth; [by apply Hreqs|by apply Hb].
Qed.

End Credentials.

(* ===================================================================== *)
(** * Sign-up and failed sign-in *)
(* ===================================================================== *)

Section Registration.
Import Js SupabaseClient Spec Fixtures Observations.

Variable fetch : Request -> FetchResult.
Variable JSON_stringify : JsVal -> JsVal.

(** X10: [signUp] never changes the credentials: whatever the backend
    answers, even a session with an access token, the state afterwards is
    the state before and nothing is written to any header map.  It sends
    one [POST] to [/auth/v1/signup] with the stored headers.  A success
    answer whose body parses returns the parsed body; a transport failure
    and a body that does not parse are raised as they are; a failure
    answer whose body is [null] raises the [TypeError] of reading its
    [msg]; any other failure answer raises ["Supabase Auth Error: "]
    followed by the first truthy of the body's [msg], its [message] and
    the status text, or the [TypeError] of the coercion when that value
    cannot be string-coerced.  Every raised error is logged once. *)
Theorem signUp_never_authenticates email password data s :
  let '(o, s', t) := signUp fetch JSON_stringify email password data s in
  s' = s
  /\ (forall l, writes_to l t = [])
  /\ (forall e, o = Throw e -> console t = [(LError, "Error signing up:", Some e)])
  /\ exists req,
       descriptor JSON_stringify (SignUp email password data) s = Return req
       /\ requests t = [req]
       /\ match fetch req with
          | Rejected e => o = Throw e
          | Resolved r =>
              match json r with
              | Throw e => o = Throw e
              | Return body =>
                  if ok r then o = Return body
                  else if nullish body
                  then o = Throw (mkError "TypeError"
                                    ("Cannot read properties of " +:+ text body
                                     +:+ " (reading 'msg')"))
                  else
                    let reason :=
                      js_or (js_or (field body "msg") (field body "message"))
                        (JStr (statusText r)) in
                    o = if coercible reason
                        then Throw (new_Error ("Supabase Auth Error: " +:+ text reason))
                        else Throw not_primitive
              end
          end.
Proof.
  unfold signUp. cbn [descriptor]. run_method.
  destruct (fetch _) as [[okr st [body|e]]|e] eqn:Hf;
    cbn [ok json statusText negb app]; cbv beta iota zeta.
  - destruct okr; cbn [negb]; cbv beta iota zeta.
    + split; [done|]. split; [done|]. split; [done|].
      eexists. split; [reflexivity|]. split; [done|].
      rewrite Hf. by cbn [ok json].
    + destruct (nullish body) eqn:Hn.
      * assert (Get body "msg"
                = Throw (mkError "TypeError"
                           ("Cannot read properties of " +:+ text body
                            +:+ " (reading 'msg')"))) as He
          by (destruct body; try discriminate Hn; reflexivity).
        rewrite He. cbv beta iota zeta.
        split; [done|]. split; [done|]. split; [by intros ? [= <-]|].
        eexists. split; [reflexivity|]. split; [done|].
        rewrite Hf. cbn [ok json]. by rewrite Hn.
      * rewrite !(Get_not_nullish body _ Hn), ToString_text. cbv beta iota zeta.
        destruct (coercible _) eqn:Ec; cbv beta iota zeta;
          (split; [done|]; split; [done|]; split; [by intros ? [= <-]|];
           eexists; split; [reflexivity|]; split; [done|];
           rewrite Hf; cbn [ok json statusText]; by rewrite Hn, Ec).
  - destruct okr; cbn [negb]; cbv beta iota zeta;
      (split; [done|]); (split; [done|]); (split; [by intros ? [= <-]|]);
      (eexists; split; [reflexivity|]; split; [done|]);
      rewrite Hf; by cbn [ok json].
  - split; [done|]. split; [done|]. split; [by intros ? [= <-]|].
    eexists. split; [reflexivity|]. split; [done|]. by rewrite Hf.
Qed.

(** X11: a [signIn] that raises leaves the credentials as they were and
    logs the error once; so does a [signIn] that succeeds with a body
    holding no (truthy) [access_token].  It raises on a transport
    failure and on a body that does not parse (the error as it is), on a
    body that is [null] (the [TypeError] of reading its field), on a
    success answer whose token cannot be string-coerced (the [TypeError]
    of the coercion), and on every failure answer:
    ["Supabase Auth Error: "] followed by the first truthy of the body's
    [error_description], [msg], [message] and the status text, or the
    [TypeError] of the coercion when that value cannot be
    string-coerced.  Every other answer returns the parsed body. *)
Theorem signIn_failure_keeps_token email password s :
  let '(o, s', t) := signIn fetch JSON_stringify email password s in
  (forall e, o = Throw e ->
     s' = s /\ console t = [(LError, "Error signing in:", Some e)]
     /\ forall l, writes_to l t = [])
  /\ (forall result, o = Return result ->
      truthy (field result "access_token") = false -> s' = s)
  /\ exists req,
       descriptor JSON_stringify (SignIn email password) s = Return req
       /\ match fetch req with
          | Rejected e => o = Throw e
          | Resolved r =>
              match json r with
              | Throw e => o = Throw e
              | Return body =>
                  if nullish body
                  then o = Throw (mkError "TypeError"
                                    ("Cannot read properties of " +:+ text body
                                     +:+ " (reading '"
                                     +:+ (if ok r then "access_token"
                                          else "error_description")
                                     +:+ "')"))
                  else if ok r
                  then
                    let token := field body "access_token" in
                    o = if truthy token && negb (coercible token)
                        then Throw not_primitive
                        else Return body
                  else
                    let reason :=
                      js_or (js_or (js_or (field body "error_description")
                                      (field body "msg"))
                               (field body "message"))
                        (JStr (statusText r)) in
                    o = if coercible reason
                        then Throw (new_Error ("Supabase Auth Error: " +:+ text reason))
                        else Throw not_primitive
              end
          end.
Proof.
  unfold signIn, setAuthToken. cbn [descriptor]. run_method.
  destruct (fetch _) as [[okr st [body|e]]|e] eqn:Hf;
    cbn [ok json statusText negb app]; cbv beta iota zeta.
  - destruct okr; cbn [negb]; cbv beta iota zeta.
    + destruct (nullish body) eqn:Hn.
      * assert (Get body "access_token"
                = Throw (mkError "TypeError"
                           ("Cannot read properties of " +:+ text body
                            +:+ " (reading 'access_token')"))) as He
          by (destruct body; try discriminate Hn; reflexivity).
        rewrite He. cbv beta iota zeta.
        split; [by intros ? [= <-]|]. split; [done|].
        eexists. split; [reflexivity|]. rewrite Hf. cbn [ok json]. by rewrite Hn.
      * rewrite (Get_not_nullish body _ Hn). cbv beta iota zeta.
        destruct (truthy (field body "access_token")) eqn:Ht.
        -- rewrite ToString_text.
           destruct (coercible (field body "access_token")) eqn:Ec; run_method;
             cbv beta iota zeta.
           ++ split; [done|]. split; [intros ? [= <-]; by rewrite Ht|].
              eexists. split; [reflexivity|]. rewrite Hf. cbn [ok json].
              by rewrite Hn, Ht, Ec.
           ++ split; [by intros ? [= <-]|]. split; [done|].
              eexists. split; [reflexivity|]. rewrite Hf. cbn [ok json].
              by rewrite Hn, Ht, Ec.
        -- run_method; cbv beta iota zeta. split; [done|]. split; [done|].
           eexists. split; [reflexivity|]. rewrite Hf. cbn [ok json].
           by rewrite Hn, Ht.
    + destruct (nullish body) eqn:Hn.
      * assert (Get body "error_description"
                = Throw (mkError "TypeError"
                           ("Cannot read properties of " +:+ text body
                            +:+ " (reading 'error_description')"))) as He
          by (destruct body; try discriminate Hn; reflexivity).
        rewrite He. cbv beta iota zeta.
        split; [by intros ? [= <-]|]. split; [done|].
        eexists. split; [reflexivity|]. rewrite Hf.
        cbn [ok json]. by rewrite Hn.
      * rewrite !(Get_not_nullish body _ Hn), ToString_text. cbv beta iota zeta.
        destruct (coercible _) eqn:Ec; cbv beta iota zeta;
          (split; [by intros ? [= <-]|]; split; [done|];
           eexists; split; [reflexivity|]; rewrite Hf;
           cbn [ok json statusText]; by rewrite Hn, Ec).
  - destruct okr; cbn [negb]; cbv beta iota zeta;
      (split; [by intros ? [= <-]|]); (split; [done|]);
      (eexists; split; [reflexivity|]); rewrite Hf; by cbn [ok json].
  - split; [by intros ? [= <-]|]. split; [done|].
    eexists. split; [reflexivity|]. by rewrite Hf.
Qed.

End Registration.

(* ===================================================================== *)
(** * More on the query string *)
(* ===================================================================== *)

Section QueryString.
Import Js SupabaseClient Spec Fixtures Observations.

Lemma occurrences_app c a b : occurrences c (a +:+ b) = (occurrences c a + occurrences c b)%nat.
Proof. unfold occurrences. by rewrite chars_app, List.filter_app, length_app. Qed.

Lemma encode_unit_chars c :
  forallb encoded_char (chars (URLSearchParams.encode_unit c)) = true.
Proof. destruct c as [[] [] [] [] [] [] [] []]; vm_compute; reflexivity. Qed.

Lemma urlencode_chars s : forallb encoded_char (chars (URLSearchParams.urlencode s)) = true.
Proof.
  induction s as [|c s IH]; [done|]. simpl.
  by rewrite chars_app, forallb_app, encode_unit_chars, IH.
Qed.

Lemma encoded_is_query_char c : encoded_char c = true -> query_char c = true.
Proof.
  unfold encoded_char, query_char. intros H.
  apply orb_true_iff in H as [H|H]; [apply orb_true_iff in H as [H|H]|];
    rewrite H, ?orb_true_r; reflexivity.
Qed.

Lemma no_separator_in_encoded c l :
  encoded_char c = false -> forallb encoded_char l = true ->
  length (List.filter (Ascii.eqb c) l) = 0%nat.
Proof.
  intros Hc. induction l as [|d l IH]; [done|]. simpl.
  intros [Hd Hl]%andb_true_iff.
  destruct (Ascii.eqb_spec c d) as [->|_]; [congruence|]. by apply IH.
Qed.

Lemma occurrences_urlencode c s :
  encoded_char c = false -> occurrences c (URLSearchParams.urlencode s) = 0%nat.
Proof. intros Hc. apply no_separator_in_encoded; [done|apply urlencode_chars]. Qed.

Lemma encode_pair_chars p :
  forallb query_char (chars (URLSearchParams.encode_pair p)) = true.
Proof.
  assert (forall s, forallb query_char (chars (URLSearchParams.urlencode s)) = true) as H.
  { intros s. pose proof (urlencode_chars s) as He. rewrite forallb_forall in *.
    intros c Hc. by apply encoded_is_query_char, He. }
  unfold URLSearchParams.encode_pair. by rewrite !chars_app, !forallb_app, !H.
Qed.

Lemma encode_pair_equals p : occurrences "=" (URLSearchParams.encode_pair p) = 1%nat.
Proof.
  unfold URLSearchParams.encode_pair.
  rewrite !occurrences_app, !occurrences_urlencode by reflexivity. reflexivity.
Qed.

Lemma encode_pair_ampersands p : occurrences "&" (URLSearchParams.encode_pair p) = 0%nat.
Proof.
  unfold URLSearchParams.encode_pair.
  rewrite !occurrences_app, !occurrences_urlencode by reflexivity. reflexivity.
Qed.

Lemma toString_cons p q params :
  URLSearchParams.toString (p :: q :: params)
  = URLSearchParams.encode_pair p +:+ "&" +:+ URLSearchParams.toString (q :: params).
Proof. reflexivity. Qed.

(** X12: [buildUrl] on an options object raises the [TypeError] of the
    coercion when a filter value or an appended option cannot be
    string-coerced, and returns the resource URL with its query string
    otherwise.  That query string is made of unreserved characters, [+],
    [%], [=] and [&] only, with exactly one [=] per parameter and one [&]
    between two parameters: whatever a filter key, a filter value or an
    option holds, it cannot add a parameter, start a fragment or end the
    URL. *)
Theorem query_string_is_closed table ps s :
  let params := filters_part (prop ps "filters") ++ select_part (prop ps "select")
                ++ order_part (prop ps "order") ++ limit_part (prop ps "limit")
                ++ offset_part (prop ps "offset") in
  let q := URLSearchParams.toString params in
  buildUrl table "select" (JObj ps) s
  = (if options_coercible ps
     then Return (resource s table
                  +:+ (if q =? EmptyString then EmptyString else "?" +:+ q))%string
     else Throw not_primitive,
     s, [])
  /\ Forall (fun c => query_char c = true) (chars q)
  /\ occurrences "=" q = length params
  /\ occurrences "&" q = Nat.pred (length params).
Proof.
  intros params q. split.
  - rewrite buildUrl_select_object. fold params. unfold query_suffix. subst q.
    destruct (options_coercible ps); [|reflexivity].
    destruct params as [|p params']; [reflexivity|].
    destruct (String.eqb_spec (URLSearchParams.toString (p :: params')) EmptyString)
      as [H|_]; [|reflexivity].
    by apply toString_empty_inv in H.
  - subst q. generalize params. clear. intros params.
    assert (forallb query_char (chars (URLSearchParams.toString params)) = true
            /\ occurrences "=" (URLSearchParams.toString params) = length params
            /\ occurrences "&" (URLSearchParams.toString params)
               = Nat.pred (length params)) as (Hc & He & Ha).
    { induction params as [|p [|p' params] IH].
      - done.
      - unfold URLSearchParams.toString. cbn [map join length Nat.pred].
        by rewrite encode_pair_chars, encode_pair_equals, encode_pair_ampersands.
      - destruct IH as (IHc & IHe & IHa). rewrite toString_cons.
        rewrite !chars_app, !forallb_app, !occurrences_app, encode_pair_chars, IHc,
          encode_pair_equals, encode_pair_ampersands, IHe, IHa.
        cbn [length Nat.pred]. done. }
    split; [|done]. apply Forall_forall. intros c Hin.
    rewrite forallb_forall in Hc. apply Hc. by apply list_elem_of_In.
Qed.

(** X13: the URL [buildUrl] gives does not depend on the order in which
    the options were written: two well-formed options objects with the
    same properties give the same URL, the parameters always coming as
    filters, select, order, limit, offset; and [read] then sends the same
    request and has the same result. *)
Theorem buildUrl_ignores_option_order fetch table ps qs s :
  wf_props ps -> Permutation ps qs ->
  buildUrl table "select" (JObj ps) s = buildUrl table "select" (JObj qs) s
  /\ read fetch table (JObj ps) s = read fetch table (JObj qs) s.
Proof.
  intros Hwf Hperm.
  assert (forall k, prop qs k = prop ps k) as Hprop.
  { intros k. unfold prop. by rewrite (lookup_prop_perm k ps qs). }
  assert (select_params (JObj ps) = select_params (JObj qs)) as Hsel.
  { rewrite !select_params_object. unfold options_coercible. by rewrite !Hprop. }
  split.
  - rewrite !buildUrl_select_object. unfold options_coercible. by rewrite !Hprop.
  - rewrite !(read_round_trip fetch (fun v => v)). cbn [descriptor default_arg log_label].
    by rewrite Hsel.
Qed.

End QueryString.

(* ===================================================================== *)
(** * More on the CRUD surface *)
(* ===================================================================== *)

Section Writes.
Import Js SupabaseClient Spec Fixtures Observations.

Variable fetch : Request -> FetchResult.
Variable JSON_stringify : JsVal -> JsVal.
Variable StringToNumber_positive : string -> bool.

Lemma round_trip_requests label req s :
  requests (events_of (round_trip fetch label (Return req) s)) = [req].
Proof. unfold round_trip. by destruct (classify (fetch req)). Qed.

(** X14: [insertMany] does what [insert] does on the same payload: one
    [POST] of the serialized payload to the resource URL with the stored
    headers, an empty array or a value that is no array included, and
    the same outcome and state; only the console label of a failure
    differs. *)
Theorem insertMany_as_insert table payload s :
  requests (events_of (insertMany fetch JSON_stringify table payload s))
  = [mkRequest "POST" (resource s table) (stored_headers s) (JSON_stringify payload)]
  /\ requests (events_of (insert fetch JSON_stringify table payload s))
     = [mkRequest "POST" (resource s table) (stored_headers s) (JSON_stringify payload)]
  /\ outcome_of (insertMany fetch JSON_stringify table payload s)
     = outcome_of (insert fetch JSON_stringify table payload s)
  /\ state_of (insertMany fetch JSON_stringify table payload s)
     = state_of (insert fetch JSON_stringify table payload s).
Proof.
  rewrite insertMany_round_trip, insert_round_trip. cbn [descriptor].
  rewrite !round_trip_requests.
  destruct (round_trip_label fetch (log_label (InsertMany table payload))
              (log_label (Insert table payload))
              (Return (mkRequest "POST" (resource s table) (stored_headers s)
                         (JSON_stringify payload))) s) as (Ho & Hs & _).
  done.
Qed.

(** X15: [update] and [delete] with a filter that has no entry, the empty
    object first of all, address the whole table: the request goes to
    the bare resource URL, without a query string. *)
Theorem unfiltered_write_addresses_table table filters data s :
  nullish filters = false -> own_enumerable filters = [] ->
  requests (events_of (update fetch JSON_stringify table filters data s))
  = [mkRequest "PATCH" (resource s table) (stored_headers s) (JSON_stringify data)]
  /\ requests (events_of (delete fetch table filters s))
     = [mkRequest "DELETE" (resource s table) (stored_headers s) JUndefined].
Proof.
  intros Hn He.
  assert (Object_entries filters = Return []) as Hentries.
  { unfold Object_entries. rewrite He. by destruct filters. }
  rewrite update_round_trip, (delete_round_trip fetch JSON_stringify).
  cbn [descriptor]. rewrite Hentries. unfold filter_params.
  cbn [ofold obind map query_suffix].
  rewrite append_empty_r. by rewrite !round_trip_requests.
Qed.

(** X16: [update] and [delete] without a filter ([undefined] or [null])
    send nothing: they raise a [TypeError], log it and leave the state as
    it was.  [query] with such a filter does send its request, the one of
    a query with the empty filter. *)
Theorem missing_filter_sends_nothing table filters data options s :
  nullish filters = true ->
  let e := mkError "TypeError" "Cannot convert undefined or null to object" in
  update fetch JSON_stringify table filters data s
  = (Throw e, s, [EvConsole LError (log_label (Update table filters data)) (Some e)])
  /\ delete fetch table filters s
     = (Throw e, s, [EvConsole LError (log_label (Delete table filters)) (Some e)])
  /\ query fetch table filters options s = query fetch table (JObj []) options s.
Proof.
  intros Hn e.
  rewrite update_round_trip, (delete_round_trip fetch JSON_stringify).
  rewrite !(query_round_trip fetch JSON_stringify).
  destruct filters; try discriminate Hn; cbn [descriptor Object_entries obind round_trip].
  - done.
  - split; [done|]. split; [done|].
    assert (select_params (with_filters options JNull)
            = select_params (with_filters options (JObj []))) as Hsel.
    { unfold with_filters. cbn [default_arg]. rewrite !select_params_object.
      unfold options_coercible.
      rewrite !prop_set_prop_eq, !prop_set_prop_ne by discriminate. reflexivity. }
    cbn [log_label]. by rewrite Hsel.
Qed.

(** X17: [update] and [delete] encode their filter as [buildUrl] encodes
    the [filters] option of a select: when every filter value can be
    string-coerced, each sends one request, to the URL
    [buildUrl(table, "select", {filters})] gives; when one cannot, all
    three raise the [TypeError] of the coercion and nothing is sent. *)
Theorem filter_encoding_agrees table filters data s :
  nullish filters = false ->
  let url := resource s table +:+ query_suffix (map eq_param (own_enumerable filters)) in
  let coerced := forallb (fun e => coercible (snd e)) (own_enumerable filters) in
  buildUrl table "select" (JObj [("filters", filters)]) s
  = (if coerced then Return url else Throw not_primitive, s, [])
  /\ map req_url (requests (events_of (update fetch JSON_stringify table filters data s)))
     = (if coerced then [url] else [])
  /\ map req_url (requests (events_of (delete fetch table filters s)))
     = (if coerced then [url] else [])
  /\ (coerced = false ->
      outcome_of (update fetch JSON_stringify table filters data s) = Throw not_primitive
      /\ outcome_of (delete fetch table filters s) = Throw not_primitive).
Proof.
  intros Hn url coerced.
  assert (Object_entries filters = Return (own_enumerable filters)) as Hentries
    by by destruct filters.
  assert (filters_part filters = map eq_param (own_enumerable filters)) as Hpart.
  { unfold filters_part. destruct filters as [| |[]|n|str| |]; try done.
    - cbn [truthy]. by destruct (n =? 0) eqn:E; [apply Z.eqb_eq in E as ->|].
    - cbn [truthy]. by destruct (String.eqb_spec str EmptyString) as [->|]. }
  assert (options_coercible [("filters", filters)] = coerced) as Hopt.
  { unfold options_coercible, filters_coercible, option_coercible, order_coercible, prop.
    cbn [lookup_prop String.eqb Ascii.eqb Bool.eqb default truthy negb orb andb].
    rewrite !andb_true_r. subst coerced.
    destruct filters as [| |[]|n|str| |]; try done.
    - cbn [truthy]. by destruct (n =? 0) eqn:E; [apply Z.eqb_eq in E as ->|].
    - cbn [truthy]. by destruct (String.eqb_spec str EmptyString) as [->|]. }
  split.
  { rewrite buildUrl_select_object, Hopt.
    unfold prop. cbn [lookup_prop String.eqb Ascii.eqb Bool.eqb default].
    unfold select_part, order_part, limit_part, offset_part. cbn [truthy].
    by rewrite Hpart, !app_nil_r. }
  rewrite update_round_trip, (delete_round_trip fetch JSON_stringify).
  cbn [descriptor]. rewrite Hentries. cbn [obind].
  rewrite filter_params_eq. fold coerced.
  destruct coerced; cbn [obind].
  - rewrite !round_trip_requests. cbn [map req_url]. done.
  - done.
Qed.

(** X18: options that are no object: [read(table, null)] raises a
    [TypeError] before any request is sent, while [query] and [getById]
    take [null] options as no options at all; a number or a boolean
    passed as options is ignored by all three. *)
Theorem options_that_are_no_object table F id options s :
  let e := mkError "TypeError" "Cannot read properties of null (reading 'filters')" in
  read fetch table JNull s
  = (Throw e, s, [EvConsole LError (log_label (Read table JNull)) (Some e)])
  /\ query fetch table F JNull s = query fetch table F JUndefined s
  /\ getById fetch StringToNumber_positive table id JNull s
     = getById fetch StringToNumber_positive table id JUndefined s
  /\ (number_or_boolean options = true ->
      read fetch table options s = read fetch table JUndefined s
      /\ query fetch table F options s = query fetch table F JUndefined s
      /\ getById fetch StringToNumber_positive table id options s
         = getById fetch StringToNumber_positive table id JUndefined s).
Proof.
  intros e. split; [reflexivity|]. split; [reflexivity|]. split; [reflexivity|].
  intros Hp. destruct options; try discriminate Hp; repeat split; reflexivity.
Qed.

Lemma prop_with_limit_one ps k :
  wf_props ps ->
  prop (set_prop (own_entries ps) "limit" (JNum 1)) k
  = if String.eqb k "limit" then JNum 1 else prop ps k.
Proof.
  intros Hwf. destruct (String.eqb_spec k "limit") as [->|Hne].
  - apply prop_set_prop_eq.
  - rewrite prop_set_prop_ne by congruence. by apply prop_own_entries.
Qed.

(** X19: the request of [getById(table, id, options)] always filters on
    [id=eq.<id>] alone and always carries [limit=1], whatever [filters]
    or [limit] the caller put in [options]; the [select], [order] and
    [offset] options pass through.  The request is sent when the id and
    those three options can be string-coerced; when one of them cannot,
    nothing is sent. *)
Theorem getById_request_shape table id ps s :
  wf_props ps ->
  requests (events_of (getById fetch StringToNumber_positive table id (JObj ps) s))
  = if coercible id && option_coercible (prop ps "select")
       && order_coercible (prop ps "order") && option_coercible (prop ps "offset")
    then
      [mkRequest "GET"
         (resource s table
          +:+ query_suffix ([("id", "eq." +:+ text id)]
                            ++ select_part (prop ps "select")
                            ++ order_part (prop ps "order")
                            ++ [("limit", "1")]
                            ++ offset_part (prop ps "offset")))
         (stored_headers s) JUndefined]
    else [].
Proof.
  intros Hwf.
  change (getById fetch StringToNumber_positive table id (JObj ps) s)
    with (invoke fetch JSON_stringify StringToNumber_positive
            (GetById table id (JObj ps)) s).
  rewrite invoke_requests. cbn [descriptor].
  unfold with_filters, with_limit_one, by_id.
  cbn [default_arg spread own_enumerable].
  rewrite select_params_object. unfold options_coercible.
  assert (wf_props (set_prop (own_entries ps) "limit" (JNum 1))) as Hwf'
    by by apply wf_props_set_prop, wf_props_own_entries.
  rewrite !prop_set_prop_eq.
  rewrite !prop_set_prop_ne by discriminate.
  rewrite !(prop_own_entries _ _ Hwf'), !(prop_with_limit_one ps _ Hwf).
  cbn [String.eqb Ascii.eqb Bool.eqb].
  unfold filters_coercible at 1. cbn [truthy negb orb own_enumerable].
  change (own_entries [("id", id)]) with [("id", id)]. cbn [forallb snd].
  change (option_coercible (JNum 1)) with true.
  rewrite !andb_true_r.
  destruct (coercible id && _ && _ && _); reflexivity.
Qed.

(** X20: [getById] on a success body that is no sequence: a number, a
    boolean or an object without [length] counts as no row and gives
    [null]; a [null] body raises a [TypeError], which [getById] logs and
    rethrows with the state and the request of the query. *)
Theorem getById_on_other_bodies table id options s :
  let run := query fetch table (by_id id) (with_limit_one options) s in
  (forall body s' t,
     run = (Return body, s', t) -> lengthless body = true ->
     getById fetch StringToNumber_positive table id options s = (Return JNull, s', t))
  /\ (forall s' t,
      run = (Return JNull, s', t) ->
      let e := mkError "TypeError" "Cannot read properties of null (reading 'length')" in
      getById fetch StringToNumber_positive table id options s
      = (Throw e, s',
         t ++ [EvConsole LError (log_label (GetById table id options)) (Some e)])).
Proof.
  intros run. subst run. split.
  - intros body s' t Hq Hl. rewrite getById_query, Hq.
    destruct body as [| |b|n|str|items|o]; try discriminate Hl; cbn [Get]; try reflexivity.
    unfold prop. cbn [lengthless] in Hl.
    destruct (lookup_prop "length" o); [discriminate Hl|reflexivity].
  - intros s' t Hq e. by rewrite getById_query, Hq.
Qed.

End Writes.

(* ===================================================================== *)
(** * The comment board *)
(* ===================================================================== *)

(** Unfolds the monad of the handlers. *)
Ltac run_handler :=
  cbv [CommentBoard.pret CommentBoard.pthrow CommentBoard.pbind CommentBoard.ptry
       CommentBoard.plift CommentBoard.effect CommentBoard.await
       CommentBoard.read_currentUser CommentBoard.write_currentUser
       CommentBoard.localStorage_setItem CommentBoard.localStorage_removeItem
       CommentBoard.closeLoginForm CommentBoard.closeRegisterForm
       CommentBoard.updateUIForLoggedInUser CommentBoard.updateUIForLoggedOutUser
       CommentBoard.has_rows].

(** Splits on the next test or property read of a handler. *)
Ltac step_handler :=
  match goal with
  | |- context [if Js.truthy ?v then _ else _] => destruct (Js.truthy v) eqn:?
  | |- context [match Js.Get ?b ?k with Js.Return _ => _ | Js.Throw _ => _ end] =>
      destruct (Js.Get b k) eqn:?
  | |- context [match SupabaseClient.gt_zero ?f ?v with
                | Js.Return _ => _
                | Js.Throw _ => _
                end] =>
      destruct (SupabaseClient.gt_zero f v) as [[]|?] eqn:?
  | |- context [match Js.ToString ?v with Js.Return _ => _ | Js.Throw _ => _ end] =>
      destruct (Js.ToString v) eqn:?
  end; cbv beta iota zeta.

Section Board.
Import Js SupabaseClient Spec Fixtures Comments CommentBoard Observations.

Variable fetch : Request -> FetchResult.
Variable JSON_stringify : JsVal -> JsVal.
Variable StringToNumber_positive : string -> bool.
Variable now : string.
Variable toLocaleDateString : JsVal -> string.
Variable value : string -> string.

(** The request of [query("users", {nickname, password})]. *)
Lemma login_descriptor nickname password s :
  descriptor JSON_stringify
    (Query "users" (JObj [("nickname", JStr nickname); ("password", JStr password)])
       JUndefined) s
  = Return (mkRequest "GET"
              (resource s "users"
               +:+ "?nickname=eq." +:+ URLSearchParams.urlencode nickname
               +:+ "&password=eq." +:+ URLSearchParams.urlencode password)
              (stored_headers s) JUndefined).
Proof.
  cbn [descriptor]. unfold with_filters. cbn [default_arg spread own_enumerable].
  rewrite select_params_object.
  change (options_coercible _) with true. cbn [obind].
  set (params := _ ++ _).
  assert (params = [("nickname", "eq." +:+ nickname); ("password", "eq." +:+ password)])
    as -> by reflexivity.
  unfold query_suffix, URLSearchParams.toString. cbn [map join].
  unfold URLSearchParams.encode_pair. cbn [fst snd]. rewrite !urlencode_app.
  change (URLSearchParams.urlencode "nickname") with "nickname".
  change (URLSearchParams.urlencode "password") with "password".
  change (URLSearchParams.urlencode "eq.") with "eq.".
  rewrite !append_assoc. reflexivity.
Qed.

Lemma truthy_not_nullish v : truthy v = true -> nullish v = false.
Proof. by destruct v. Qed.

Lemma page_eta p : mkPage (supabase p) (currentUser p) (tripPlannerUser p) = p.
Proof. by destruct p. Qed.

(** X21: [handleLogin] never raises and always ends with exactly one
    alert.  It sends one request, a [GET] to the [users] resource whose
    query string holds the nickname and the password as typed
    ([nickname=eq.<nickname>&password=eq.<password>], form-encoded), and
    it leaves the Supabase client, its credentials included, as it
    was. *)
Theorem handleLogin_request p :
  let run := handleLogin fetch JSON_stringify StringToNumber_positive value p in
  result_of run = Return JUndefined
  /\ supabase (page_of run) = supabase p
  /\ sent (effects_of run)
     = [mkRequest "GET"
          (resource (supabase p) "users"
           +:+ "?nickname=eq." +:+ URLSearchParams.urlencode (value "loginNickname")
           +:+ "&password=eq." +:+ URLSearchParams.urlencode (value "loginPassword"))
          (stored_headers (supabase p)) JUndefined]
  /\ length (alerts (effects_of run)) = 1%nat.
Proof.
  intros run. subst run. unfold handleLogin. run_handler.
  rewrite (query_round_trip fetch JSON_stringify), login_descriptor.
  unfold round_trip.
  destruct (classify (fetch _)) as [users|e]; cbv beta iota zeta;
    cbn [supabase currentUser tripPlannerUser map app];
    repeat step_handler; repeat split; reflexivity.
Qed.

(** X22: what [handleLogin] makes of the answer to its query.  A failed
    query changes nothing on the page and is reported as
    ["Login failed: <message>"]; so is an answer whose [length] cannot be
    brought to a primitive.  An answer without rows changes nothing and
    is reported as invalid.  An answer with rows makes its first element
    the current user and stores its serialization (unless that cannot be
    string-coerced), and the login is reported as successful when that
    element is an object whose [nickname] can be string-coerced;
    otherwise the user is still written and the failure of the greeting
    is reported. *)
Theorem handleLogin_decision p :
  let nickname := value "loginNickname" in
  let password := value "loginPassword" in
  let run := handleLogin fetch JSON_stringify StringToNumber_positive value p in
  let answer :=
    outcome_of (query fetch "users"
                  (JObj [("nickname", JStr nickname); ("password", JStr password)])
                  JUndefined (supabase p)) in
  (forall e, answer = Throw e ->
     page_of run = p /\ alerts (effects_of run) = ["Login failed: " +:+ message e])
  /\ (forall users, answer = Return users ->
      countable users = false ->
      page_of run = p
      /\ alerts (effects_of run) = ["Login failed: Cannot convert object to primitive value"])
  /\ (forall users, answer = Return users ->
      countable users = true ->
      holds_rows StringToNumber_positive users = false ->
      page_of run = p /\ alerts (effects_of run) = ["Invalid nickname or password"])
  /\ (forall users, answer = Return users ->
      countable users = true ->
      holds_rows StringToNumber_positive users = true ->
      let user := field users "0" in
      let stored := JSON_stringify user in
      currentUser (page_of run) = user
      /\ tripPlannerUser (page_of run)
         = (if coercible stored then Some (text stored) else tripPlannerUser p)
      /\ alerts (effects_of run)
         = [if negb (coercible stored)
            then "Login failed: Cannot convert object to primitive value"
            else if nullish user
            then "Login failed: Cannot read properties of "
                 +:+ text user +:+ " (reading 'nickname')"
            else if coercible (field user "nickname")
            then "Login successful!"
            else "Login failed: Cannot convert object to primitive value"]).
Proof.
  intros nickname password run answer. subst run answer nickname password.
  unfold handleLogin. run_handler.
  rewrite (query_round_trip fetch JSON_stringify), login_descriptor.
  unfold round_trip, outcome_of, holds_rows, countable.
  destruct (classify (fetch _)) as [users|e]; cbv beta iota zeta;
    cbn [fst snd supabase currentUser tripPlannerUser map app].
  2: { split; [|split; [|split]; by intros ? [=]].
       intros e' [= <-]. rewrite page_eta. split; reflexivity. }
  split; [by intros ? [=]|].
  destruct (truthy users) eqn:Ht; cbn [andb negb orb]; cbv beta iota zeta.
  2: { rewrite page_eta.
       split; [by intros ? [= <-]; rewrite Ht|].
       split; [intros ? [= <-] _ _; split; reflexivity|].
       intros ? [= <-]. by rewrite Ht. }
  rewrite (Get_not_nullish users _ (truthy_not_nullish users Ht)), gt_zero_above.
  cbv beta iota zeta.
  destruct (coercible (field users "length")) eqn:Hc; cbv beta iota zeta.
  2: { rewrite page_eta.
       split; [intros ? [= <-] _; split; reflexivity|].
       split; intros ? [= <-]; by rewrite Ht, Hc. }
  destruct (above_zero StringToNumber_positive (field users "length")) eqn:Hrows;
    cbv beta iota zeta.
  2: { rewrite page_eta.
       split; [intros ? [= <-]; by rewrite Ht, Hc|].
       split; [intros ? [= <-] _ _; split; reflexivity|].
       intros ? [= <-]. by rewrite Ht, Hrows. }
  split; [intros ? [= <-]; by rewrite Ht, Hc|].
  split; [intros ? [= <-]; by rewrite Ht, Hrows|].
  intros ? [= <-] _ _.
  rewrite (Get_not_nullish users "0" (truthy_not_nullish users Ht)), ToString_text.
  cbv beta iota zeta. cbn [fst snd supabase currentUser tripPlannerUser map app].
  destruct (coercible (JSON_stringify (field users "0"))) eqn:Hs; cbv beta iota zeta;
    cbn [negb fst snd supabase currentUser tripPlannerUser map app];
    [|repeat split; reflexivity].
  destruct (nullish (field users "0")) eqn:Hn.
  - destruct (field users "0"); try discriminate Hn; repeat split; reflexivity.
  - rewrite (Get_not_nullish _ "nickname" Hn), ToString_text. cbv beta iota zeta.
    destruct (coercible (field (field users "0") "nickname")); repeat split; reflexivity.
Qed.

(** The request of [query("users", {nickname})]. *)
Lemma lookup_descriptor nickname s :
  descriptor JSON_stringify (Query "users" (JObj [("nickname", JStr nickname)]) JUndefined) s
  = Return (mkRequest "GET"
              (resource s "users" +:+ "?nickname=eq." +:+ URLSearchParams.urlencode nickname)
              (stored_headers s) JUndefined).
Proof.
  cbn [descriptor]. unfold with_filters. cbn [default_arg spread own_enumerable].
  rewrite select_params_object.
  change (options_coercible _) with true. cbn [obind].
  set (params := _ ++ _).
  assert (params = [("nickname", "eq." +:+ nickname)]) as -> by reflexivity.
  unfold query_suffix, URLSearchParams.toString. cbn [map join].
  unfold URLSearchParams.encode_pair. cbn [fst snd]. rewrite !urlencode_app.
  change (URLSearchParams.urlencode "nickname") with "nickname".
  change (URLSearchParams.urlencode "eq.") with "eq.".
  rewrite ?append_assoc. reflexivity.
Qed.

(** X23: [handleRegister] never raises and leaves the page state (the
    client, the current user, the stored item) as it was.  It first looks
    the nickname up; when the lookup fails, finds rows, or gives an
    answer whose [length] cannot be brought to a primitive, nothing is
    inserted; otherwise one [POST] to [users] follows, whose body holds
    the password as typed and a [business_name] that is [null] unless the
    account type is ["business"].  The single alert tells the endings
    apart. *)
Theorem handleRegister_checks_then_inserts p :
  let nickname := value "nickname" in
  let type := value "accountType" in
  let lookup :=
    mkRequest "GET"
      (resource (supabase p) "users" +:+ "?nickname=eq." +:+ URLSearchParams.urlencode nickname)
      (stored_headers (supabase p)) JUndefined in
  let newUser :=
    JObj [("nickname", JStr nickname);
          ("email", JStr (value "email"));
          ("password", JStr (value "password"));
          ("role", JStr type);
          ("business_name",
           if String.eqb type "business" then JStr (value "businessName") else JNull);
          ("created_at", JStr now)] in
  let post :=
    mkRequest "POST" (resource (supabase p) "users") (stored_headers (supabase p))
      (JSON_stringify newUser) in
  let uncountable := "Registration failed: Cannot convert object to primitive value" in
  let run := handleRegister fetch JSON_stringify StringToNumber_positive now value p in
  result_of run = Return JUndefined
  /\ page_of run = p
  /\ match outcome_of (query fetch "users" (JObj [("nickname", JStr nickname)]) JUndefined
                         (supabase p)) with
     | Throw e =>
         sent (effects_of run) = [lookup]
         /\ alerts (effects_of run) = ["Registration failed: " +:+ message e]
     | Return existing =>
         if negb (countable existing)
         then sent (effects_of run) = [lookup]
              /\ alerts (effects_of run) = [uncountable]
         else if holds_rows StringToNumber_positive existing
         then sent (effects_of run) = [lookup]
              /\ alerts (effects_of run) = ["Nickname already taken"]
         else sent (effects_of run) = [lookup; post]
              /\ alerts (effects_of run)
                 = [match outcome_of (insert fetch JSON_stringify "users" newUser
                                        (supabase p)) with
                    | Throw e => "Registration failed: " +:+ message e
                    | Return result =>
                        if negb (countable result) then uncountable
                        else if holds_rows StringToNumber_positive result
                        then "Registration successful! Please login."
                        else "Registration request sent. Please try logging in."
                    end]
     end.
Proof.
  intros nickname type lookup newUser post uncountable run.
  subst run. unfold handleRegister. fold nickname type newUser. run_handler.
  rewrite !(query_round_trip fetch JSON_stringify), lookup_descriptor.
  fold nickname lookup. unfold round_trip, outcome_of, holds_rows, countable.
  destruct (classify (fetch lookup)) as [existing|e]; cbv beta iota zeta;
    cbn [fst snd supabase currentUser tripPlannerUser map app].
  2: { rewrite page_eta. repeat split; reflexivity. }
  destruct (truthy existing) eqn:Ht; cbn [andb negb orb]; cbv beta iota zeta;
    cbn [fst snd supabase currentUser tripPlannerUser map app].
  - rewrite (Get_not_nullish existing _ (truthy_not_nullish existing Ht)), gt_zero_above.
    cbv beta iota zeta.
    destruct (coercible (field existing "length")) eqn:Hc; cbn [negb];
      cbv beta iota zeta;
      cbn [fst snd supabase currentUser tripPlannerUser map app].
    2: { rewrite page_eta. repeat split; reflexivity. }
    destruct (above_zero StringToNumber_positive (field existing "length")) eqn:Hrows;
      cbv beta iota zeta; cbn [fst snd supabase currentUser tripPlannerUser map app].
    1: { rewrite page_eta. repeat split; reflexivity. }
    rewrite !(insert_round_trip fetch JSON_stringify). cbn [descriptor].
    fold post. unfold round_trip.
    destruct (classify (fetch post)) as [result|e]; cbv beta iota zeta;
      cbn [fst snd supabase currentUser tripPlannerUser map app];
      try (rewrite page_eta; repeat split; reflexivity).
    destruct (truthy result) eqn:Hr; cbn [andb negb orb]; cbv beta iota zeta;
      rewrite ?(Get_not_nullish result _ (truthy_not_nullish result Hr)), ?gt_zero_above;
      cbv beta iota zeta;
      try destruct (coercible (field result "length")); cbn [negb];
      cbv beta iota zeta;
      try destruct (above_zero StringToNumber_positive (field result "length"));
      cbv beta iota zeta; cbn [fst snd supabase currentUser tripPlannerUser map app];
      rewrite ?page_eta; repeat split; reflexivity.
  - rewrite !(insert_round_trip fetch JSON_stringify). cbn [descriptor].
    fold post. unfold round_trip.
    destruct (classify (fetch post)) as [result|e]; cbv beta iota zeta;
      cbn [fst snd supabase currentUser tripPlannerUser map app];
      try (rewrite page_eta; repeat split; reflexivity).
    destruct (truthy result) eqn:Hr; cbn [andb negb orb]; cbv beta iota zeta;
      rewrite ?(Get_not_nullish result _ (truthy_not_nullish result Hr)), ?gt_zero_above;
      cbv beta iota zeta;
      try destruct (coercible (field result "length")); cbn [negb];
      cbv beta iota zeta;
      try destruct (above_zero StringToNumber_positive (field result "length"));
      cbv beta iota zeta; cbn [fst snd supabase currentUser tripPlannerUser map app];
      rewrite ?page_eta; repeat split; reflexivity.
Qed.

Lemma trimStart_empty s : trimStart s = EmptyString <-> blank s = true.
Proof.
  unfold blank, chars. induction s as [|c s IH]; [done|].
  cbn [trimStart list_ascii_of_string forallb].
  destruct (is_space c); cbn [andb]; [exact IH|]. split; discriminate.
Qed.

Lemma trimEnd_empty s : trimEnd s = EmptyString <-> blank s = true.
Proof.
  unfold blank, chars. induction s as [|c s IH]; [done|].
  cbn [trimEnd list_ascii_of_string forallb].
  destruct (trimEnd s) as [|d kept].
  - destruct (is_space c); cbn [andb].
    + split; [intros _; by apply IH|done].
    + split; discriminate.
  - split; [discriminate|]. intros [_ H]%andb_true_iff. apply IH in H. discriminate H.
Qed.

Lemma blank_trimStart s : blank (trimStart s) = blank s.
Proof.
  unfold blank, chars. induction s as [|c s IH]; [done|].
  cbn [trimStart]. destruct (is_space c) eqn:E; [|done].
  cbn [list_ascii_of_string forallb]. by rewrite E.
Qed.

(** A text trims to nothing exactly when it is white space only. *)
Lemma trim_empty s : trim s = EmptyString <-> blank s = true.
Proof. unfold trim. by rewrite trimEnd_empty, blank_trimStart. Qed.

Lemma truthy_trim s : truthy (JStr (trim s)) = negb (blank s).
Proof.
  cbn [truthy]. destruct (blank s) eqn:E.
  - apply trim_empty in E. by rewrite E.
  - destruct (trim s) eqn:T; [|done]. apply trim_empty in T. congruence.
Qed.

(** X24: [submitComment] never raises and leaves the page state as it
    was.  Without a (truthy) current user, or with a text of white space
    only, it sends nothing and shows one alert; otherwise it sends one
    [POST] to [comments] with the trimmed text and the [id], [nickname]
    and [role] of the current user, and it clears the text area and
    reloads the comments exactly when that insert succeeds. *)
Theorem submitComment_guards p :
  let user := currentUser p in
  let text := value "commentText" in
  let newComment :=
    JObj [("user_id", field user "id");
          ("user_nickname", field user "nickname");
          ("user_role", field user "role");
          ("content", JStr (trim text));
          ("created_at", JStr now)] in
  let run := submitComment fetch JSON_stringify now value p in
  result_of run = Return JUndefined
  /\ page_of run = p
  /\ (truthy user = false ->
      effects_of run = [Alert "Please login to post a comment"])
  /\ (truthy user = true -> blank text = true ->
      effects_of run = [Alert "Please write something!"])
  /\ (truthy user = true -> blank text = false ->
      sent (effects_of run)
      = [mkRequest "POST" (resource (supabase p) "comments") (stored_headers (supabase p))
           (JSON_stringify newComment)]
      /\ match outcome_of (insert fetch JSON_stringify "comments" newComment (supabase p)) with
         | Return _ =>
             alerts (effects_of run) = ["Comment posted!"]
             /\ In (Started "loadComments") (effects_of run)
             /\ In (Value "commentText" EmptyString) (effects_of run)
         | Throw e =>
             alerts (effects_of run) = ["Failed to post comment: " +:+ message e]
             /\ ~ In (Started "loadComments") (effects_of run)
             /\ ~ In (Value "commentText" EmptyString) (effects_of run)
         end).
Proof.
  intros user text newComment run. subst run. unfold submitComment. run_handler.
  fold user text. rewrite truthy_trim, negb_involutive.
  destruct (truthy user) eqn:Hu; cbn [negb]; cbv beta iota zeta.
  2: { repeat split; try reflexivity; discriminate. }
  destruct (blank text) eqn:Hb; cbv beta iota zeta.
  1: { repeat split; try reflexivity; discriminate. }
  rewrite !(Get_not_nullish user _ (truthy_not_nullish user Hu)). cbv beta iota zeta.
  fold newComment.
  rewrite !(insert_round_trip fetch JSON_stringify). cbn [descriptor].
  unfold round_trip, outcome_of.
  destruct (classify (fetch _)) as [result|e]; cbv beta iota zeta;
    cbn [fst snd supabase currentUser tripPlannerUser map app]; rewrite page_eta;
    (split; [reflexivity|]); (split; [reflexivity|]);
    (split; [discriminate|]); (split; [discriminate|]);
    intros _ _; unfold effects_of; cbn [snd In]; (split; [reflexivity|]);
    (split; [reflexivity|]).
  - split; auto.
  - split; intros H; repeat (destruct H as [H|H]; [discriminate H|]); exact H.
Qed.

(** ** Loading the comments *)

Lemma escapeHtml_text_like v :
  text_like v = true -> escapeHtml v = Return (escaped_text v).
Proof.
  destruct v as [| |b|n|s| |]; try done.
  - by destruct b.
  - unfold escapeHtml. cbn [text_like escaped_text]. by intros ->.
  - intros _. apply escapeHtml_string.
Qed.

Lemma escapeHtml_refuses v :
  text_like v = false -> exists e, escapeHtml v = Throw e.
Proof.
  unfold escapeHtml. destruct v as [| |b|n|s| |]; try done; cbn [text_like];
    intros ->%negb_false_iff; eexists; reflexivity.
Qed.

Lemma ToPrimitive_primitive_of v :
  ToPrimitive v = if coercible v then Return (primitive_of v) else Throw not_primitive.
Proof.
  destruct v; try reflexivity; unfold ToPrimitive, primitive_of;
    rewrite ToString_text; by destruct (coercible _).
Qed.

Lemma render_displayable comment p :
  displayable comment = true ->
  render toLocaleDateString comment p
  = (Return tt, p, [appended toLocaleDateString comment]).
Proof.
  unfold displayable.
  intros [[[Hn%negb_true_iff Hdate]%andb_true_iff Hnick]%andb_true_iff Hbody]%andb_true_iff.
  unfold render. run_handler. rewrite !(Get_not_nullish comment _ Hn).
  rewrite ToPrimitive_primitive_of, Hdate.
  rewrite (escapeHtml_text_like _ Hnick), (escapeHtml_text_like _ Hbody).
  unfold appended, card_of, badge_of. by destruct (field comment "user_role").
Qed.

Lemma render_refuses comment p :
  displayable comment = false ->
  exists e, render toLocaleDateString comment p = (Throw e, p, []).
Proof.
  unfold displayable, render. run_handler. intros H.
  destruct (nullish comment) eqn:Hn.
  - destruct (Get_nullish comment "created_at" Hn) as [e ->]. by eexists.
  - rewrite !(Get_not_nullish comment _ Hn). cbn [negb andb] in H.
    rewrite ToPrimitive_primitive_of.
    destruct (coercible (field comment "created_at")); [|by eexists].
    cbn [andb] in H.
    destruct (text_like (field comment "user_nickname")) eqn:Hnick.
    + cbn [andb] in H. rewrite (escapeHtml_text_like _ Hnick).
      destruct (escapeHtml_refuses _ H) as [e ->]. by eexists.
    + destruct (escapeHtml_refuses _ Hnick) as [e ->]. by eexists.
Qed.

Lemma forEach_render comments p :
  exists o,
    forEach (render toLocaleDateString) comments p
    = (o, p,
       map (appended toLocaleDateString) (displayable_prefix comments))
    /\ (forallb displayable comments = true ->
        o = Return tt /\ displayable_prefix comments = comments)
    /\ (forallb displayable comments = false -> exists e, o = Throw e).
Proof.
  induction comments as [|comment rest IH].
  - exists (Return tt). by repeat split.
  - cbn [forEach forallb displayable_prefix]. unfold pbind.
    destruct (displayable comment) eqn:Hd.
    + rewrite (render_displayable _ _ Hd).
      destruct IH as (o & -> & Hall & Hsome). exists o. cbn [andb map app].
      split; [by destruct o|]. split; [|exact Hsome].
      intros H. destruct (Hall H) as [-> ->]. done.
    + destruct (render_refuses _ p Hd) as [e ->]. exists (Throw e).
      split; [done|]. split; [done|]. intros _. by eexists.
Qed.

Lemma markup_count_app a b : markup_count (a +:+ b) = (markup_count a + markup_count b)%nat.
Proof. unfold markup_count. by rewrite chars_app, List.filter_app, length_app. Qed.

Lemma markup_count_escaped_text v : markup_count (escaped_text v) = 0%nat.
Proof.
  assert (forall s, markup_count (escaped s) = 0%nat) as H.
  { intros s. unfold markup_count. pose proof (escaped_has_no_raw_markup s) as Hs.
    induction (chars (escaped s)) as [|c l IH]; [done|].
    cbn [forallb] in Hs. apply andb_true_iff in Hs as [Hc Hl].
    cbn [List.filter]. apply negb_true_iff in Hc. rewrite Hc. by apply IH. }
  destruct v; try done. apply H.
Qed.

Lemma markup_count_card nickname badge date content :
  markup_count (card_html nickname badge date content)
  = (24 + markup_count nickname + markup_count badge + markup_count date
     + markup_count content)%nat.
Proof.
  unfold card_html. rewrite !markup_count_app.
  generalize (markup_count nickname) (markup_count badge) (markup_count date)
    (markup_count content).
  intros a b c d. vm_compute markup_count. lia.
Qed.

(** The request of [loadComments]. *)
Lemma comments_descriptor s :
  descriptor JSON_stringify (Read "comments" newest_first) s
  = Return (mkRequest "GET" (resource s "comments" +:+ "?order=created_at.desc&limit=50")
              (stored_headers s) JUndefined).
Proof.
  cbn [descriptor]. unfold newest_first. cbn [default_arg].
  rewrite select_params_object. reflexivity.
Qed.

Lemma shown_cards held comments rest :
  fold_left (shown_step "commentsList")
    (map (appended toLocaleDateString) comments ++ rest) held
  = fold_left (shown_step "commentsList") rest
      (held ++ map (card_of toLocaleDateString) comments).
Proof.
  revert held. induction comments as [|comment comments IH]; intros held.
  - by rewrite app_nil_r.
  - cbn [map app fold_left]. rewrite IH. unfold appended at 1. cbn [shown_step].
    by rewrite String.eqb_refl, <- app_assoc.
Qed.

Lemma sent_cards before comments rest :
  sent (before ++ map (appended toLocaleDateString) comments ++ rest)
  = sent before ++ sent rest.
Proof.
  unfold sent. rewrite omap_app. f_equal.
  induction comments as [|comment comments IH]; [done|exact IH].
Qed.

(** X25: [loadComments] never raises, leaves the page state as it was and
    sends one [GET] for the fifty newest comments.  The list then shows
    the error paragraph when the read fails, the "no comments" paragraph
    for a falsy answer or an empty array, and for a non-empty array one
    card per comment in order, provided every comment can be rendered:
    a single comment that is [null], whose date cannot be brought to a
    primitive, or whose nickname or content is a truthy non-string
    leaves the error paragraph alone in the list. *)
Theorem loadComments_view p :
  let run := loadComments fetch toLocaleDateString p in
  let answer := outcome_of (read fetch "comments" newest_first (supabase p)) in
  let failure := "<p>Error loading comments. Please try again later.</p>" in
  let nothing := "<p>No comments yet. Be the first to share!</p>" in
  result_of run = Return JUndefined
  /\ page_of run = p
  /\ sent (effects_of run)
     = [mkRequest "GET"
          (resource (supabase p) "comments" +:+ "?order=created_at.desc&limit=50")
          (stored_headers (supabase p)) JUndefined]
  /\ (forall e, answer = Throw e -> shown "commentsList" (effects_of run) = [failure])
  /\ (forall v, answer = Return v -> truthy v = false ->
      shown "commentsList" (effects_of run) = [nothing])
  /\ (forall comments, answer = Return (JArr comments) ->
      shown "commentsList" (effects_of run)
      = match comments with
        | [] => [nothing]
        | _ => if forallb displayable comments
               then map (card_of toLocaleDateString) comments
               else [failure]
        end).
Proof.
  intros run answer failure nothing. subst run answer.
  unfold loadComments. fold newest_first. run_handler.
  rewrite !(read_round_trip fetch JSON_stringify), comments_descriptor.
  unfold round_trip, outcome_of.
  destruct (classify (fetch _)) as [v|e]; cbv beta iota zeta;
    cbn [fst snd supabase currentUser tripPlannerUser map app].
  2: { rewrite page_eta. repeat split; try reflexivity; by intros ? [=]. }
  rewrite page_eta.
  destruct (truthy v) eqn:Ht; cbn [negb]; cbv beta iota zeta.
  2: { repeat split; try reflexivity; try (by intros ? [=]).
       intros comments [= ->]. discriminate Ht. }
  rewrite (Get_not_nullish v _ (truthy_not_nullish v Ht)). cbv beta iota zeta.
  destruct v as [| |b|n|s|comments|ps].
  6: { change (field (JArr comments) "length") with (JNum (Z.of_nat (length comments))).
       destruct comments as [|comment rest].
       - repeat split; try reflexivity; try (by intros ? [=]). by intros ? [= <-].
       - change (Z.of_nat (length (comment :: rest)))
           with (Z.pos (Pos.of_succ_nat (length rest))).
         cbv beta match zeta.
         destruct (forEach_render (comment :: rest) p) as (o & -> & Hall & Hsome).
         unfold result_of, page_of, effects_of.
         destruct (forallb displayable (comment :: rest)) eqn:Hd.
         + destruct (Hall eq_refl) as [-> ->]. cbn [fst snd app].
           split; [reflexivity|]. split; [reflexivity|].
           split; [exact (sent_cards [_; _; _] _ _)|].
           split; [by intros ? [=]|]. split; [by intros ? [= <-] [=]|].
           intros ? [= <-]. rewrite Hd. unfold shown.
           cbn [fold_left shown_step String.eqb Ascii.eqb Bool.eqb].
           by rewrite shown_cards.
         + destruct (Hsome eq_refl) as [e ->]. cbn [fst snd app].
           split; [reflexivity|]. split; [reflexivity|].
           split; [exact (sent_cards [_; _; _] _ _)|].
           split; [by intros ? [=]|]. split; [by intros ? [= <-] [=]|].
           intros ? [= <-]. rewrite Hd. unfold shown.
           cbn [fold_left shown_step String.eqb Ascii.eqb Bool.eqb].
           by rewrite shown_cards. }
  all: destruct (field _ "length") as [| | |[| |]| | |]; cbv beta iota zeta;
    repeat split; try reflexivity; try (by intros ? [=]);
    try (intros ? [= <-] Hf; congruence).
Qed.

Lemma children_cards before comments rest :
  children "commentsList" (before ++ map (appended toLocaleDateString) comments ++ rest)
  = children "commentsList" before ++ map (card_of toLocaleDateString) comments
    ++ children "commentsList" rest.
Proof.
  unfold children. rewrite !omap_app. do 2 f_equal.
  induction comments as [|comment comments IH]; [done|].
  cbn [map omap]. unfold appended at 1. cbn [String.eqb Ascii.eqb Bool.eqb].
  by rewrite <- IH.
Qed.

(** X26: the cards [loadComments] appends are those of the longest
    prefix of renderable comments of the answer (a comment is renderable
    when it is an object whose date can be brought to a primitive and
    whose nickname and content are strings or falsy), and user text adds
    no markup to a card: whatever the nickname and the content hold, the
    characters [<], [>] and the two quotes of a card are the 24 of the
    template, those of the badge and those of the formatted date. *)
Theorem loadComments_cards p :
  let run := loadComments fetch toLocaleDateString p in
  let answer := outcome_of (read fetch "comments" newest_first (supabase p)) in
  children "commentsList" (effects_of run)
  = map (card_of toLocaleDateString)
      match answer with
      | Return (JArr comments) => displayable_prefix comments
      | _ => []
      end
  /\ forall comment,
       markup_count (card_of toLocaleDateString comment)
       = (24 + markup_count (badge_of comment)
          + markup_count
              (toLocaleDateString (primitive_of (field comment "created_at"))))%nat.
Proof.
  intros run answer. split.
  2: { intros comment. unfold card_of.
       rewrite markup_count_card, !markup_count_escaped_text. lia. }
  subst run answer.
  unfold loadComments. fold newest_first. run_handler.
  rewrite !(read_round_trip fetch JSON_stringify), comments_descriptor.
  unfold round_trip, outcome_of.
  destruct (classify (fetch _)) as [v|e]; cbv beta iota zeta;
    cbn [fst snd supabase currentUser tripPlannerUser map app]; [|reflexivity].
  rewrite page_eta.
  destruct (truthy v) eqn:Ht; cbn [negb]; cbv beta iota zeta.
  2: { by destruct v as [| | | | |comments|]. }
  rewrite (Get_not_nullish v _ (truthy_not_nullish v Ht)). cbv beta iota zeta.
  destruct v as [| |b|n|s|comments|ps].
  6: { change (field (JArr comments) "length") with (JNum (Z.of_nat (length comments))).
       destruct comments as [|comment rest]; [reflexivity|].
       change (Z.of_nat (length (comment :: rest)))
         with (Z.pos (Pos.of_succ_nat (length rest))).
       cbv beta match zeta.
       destruct (forEach_render (comment :: rest) p) as (o & -> & _).
       unfold effects_of.
       destruct o as [[]|e]; cbn [snd app];
         (etrans; [exact (children_cards [_; _; _] _ _)|]);
         cbn [children omap app]; by rewrite app_nil_r. }
  all: destruct (field _ "length") as [| | |[| |]| | |]; cbv beta iota zeta; reflexivity.
Qed.

End Board.

(* ===================================================================== *)
(** * Further examples *)
(* ===================================================================== *)

Section MoreExamples.
Import Js SupabaseClient Spec Fixtures Comments CommentBoard Observations.

Lemma setAuthToken_frame_witness :
  let s' := state_of (setAuthToken (JStr "user-jwt") test_client) in
  let opaque := JObj [("toString", JNum 1)] in
  wf_state test_client
  /\ authorization s' = JStr "Bearer user-jwt"
  /\ prop (stored_headers s') "apikey" = JStr "test-key"
  /\ outcome_of (setAuthToken opaque signed_in_client) = Throw not_primitive
  /\ state_of (setAuthToken opaque signed_in_client) = signed_in_client.
Proof.
  intros s' opaque. subst s'. split; [exact wf_test_client|].
  pose proof (setAuthToken_frame any_serializer no_numeric_strings (JStr "user-jwt")
                test_client wf_test_client) as H.
  pose proof (setAuthToken_frame any_serializer no_numeric_strings opaque
                signed_in_client wf_signed_in_client) as H'.
  unfold state_of, outcome_of.
  destruct (setAuthToken (JStr "user-jwt") test_client) as [[o s'] t].
  destruct (setAuthToken opaque signed_in_client) as [[o2 s2] t2]. cbn [fst snd].
  destruct H as (_ & _ & _ & Hk & _ & _ & Ha & _).
  destruct H' as (_ & _ & _ & _ & Ho & Hs & _).
  split; [exact Ha|]. split; [rewrite Hk by discriminate; reflexivity|].
  split; [exact Ho|exact Hs].
Defined.

Lemma signOut_restores_header_map_witness :
  let answered := backend (status true "OK" JNull) in
  (wf_state test_client
   /\ coercible (JStr "user-jwt") = true
   /\ lookup_prop "Authorization" (stored_headers test_client)
      = Some (anon_bearer test_client))
  /\ stored_headers (state_of (signOut answered JUndefined signed_in_client))
     = stored_headers test_client.
Proof.
  intros answered. split; [split; [exact wf_test_client|by split]|].
  destruct (signOut_restores_header_map answered (JStr "user-jwt") JUndefined test_client
              wf_test_client eq_refl eq_refl) as [_ H].
  change (with_token test_client (JStr "user-jwt")) with signed_in_client in H.
  unfold state_of.
  destruct (signOut answered JUndefined signed_in_client) as [[o s2] t] eqn:E.
  cbn [fst snd]. apply H. vm_compute in E. by injection E as <- _ _.
Defined.

Lemma setCredentials_replaces_header_map_witness :
  let s' := state_of (setCredentials "https://other.supabase.co" "other-key"
                        signed_in_client) in
  let req := mkRequest "GET" "https://other.supabase.co/rest/v1/trips"
               (stored_headers s') JUndefined in
  In req (requests (events_of (invoke (backend network_down) any_serializer
                                 no_numeric_strings (Read "trips" JUndefined) s')))
  /\ bearer_of req = JStr "Bearer other-key"
  /\ authorization signed_in_client = JStr "Bearer user-jwt".
Proof.
  intros s' req.
  assert (In req (requests (events_of (invoke (backend network_down) any_serializer
                                         no_numeric_strings (Read "trips" JUndefined) s'))))
    as Hin by (left; reflexivity).
  split; [exact Hin|]. split; [|reflexivity].
  pose proof (setCredentials_replaces_header_map any_serializer no_numeric_strings
                "https://other.supabase.co" "other-key" signed_in_client) as H.
  subst s'. unfold state_of in *.
  destruct (setCredentials "https://other.supabase.co" "other-key" signed_in_client)
    as [[o s'] t].
  cbn [fst snd] in *. destruct H as (_ & _ & _ & _ & _ & H).
  destruct (H (backend network_down) (Read "trips" JUndefined) req Hin) as (_ & Hb & _).
  exact (Hb eq_refl).
Defined.

Lemma header_map_invariant_witness :
  let granted := backend (status true "OK" (JObj [("access_token", JStr "user-jwt")])) in
  canonical test_client
  /\ canonical (state_of (invoke granted any_serializer no_numeric_strings
                            (SignIn (JStr "a@b.c") (JStr "pw")) test_client)).
Proof.
  intros granted.
  destruct (header_map_invariant any_serializer no_numeric_strings)
    as (Hnew & _ & _ & Hcall & _).
  pose proof (Hnew "https://test.supabase.co" "test-key" []) as Hc.
  split; [exact Hc|]. exact (Hcall granted _ test_client Hc).
Defined.

Lemma requests_after_signOut_witness :
  let answered := backend (status true "OK" JNull) in
  let listing := backend (status true "OK" (JArr [])) in
  let s' := state_of (signOut answered JUndefined signed_in_client) in
  (wf_state signed_in_client
   /\ signOut answered JUndefined signed_in_client
      = (Return JUndefined, s', events_of (signOut answered JUndefined signed_in_client)))
  /\ forall req,
       In req (requests (snd (session any_serializer no_numeric_strings
                                ([(listing, Read "comments" JUndefined)]
                                 ++ [(listing, Insert "comments"
                                                 (JObj [("content", JStr "hi")]))])
                                s'))) ->
       bearer_of req = JStr "Bearer test-key".
Proof.
  intros answered listing s'.
  assert (signOut answered JUndefined signed_in_client
          = (Return JUndefined, s',
             events_of (signOut answered JUndefined signed_in_client))) as Hrun
    by (vm_compute; reflexivity).
  split; [split; [exact wf_signed_in_client|exact Hrun]|].
  apply (requests_after_signOut any_serializer no_numeric_strings answered JUndefined
           signed_in_client s' _ wf_signed_in_client Hrun
           [(listing, Read "comments" JUndefined)] listing
           (Insert "comments" (JObj [("content", JStr "hi")]))).
  - by repeat constructor.
  - reflexivity.
Defined.

Lemma signUp_never_authenticates_witness :
  let session := JObj [("access_token", JStr "new-jwt")] in
  let granted := backend (status true "OK" session) in
  let run := signUp granted any_serializer (JStr "a@b.c") (JStr "pw") JUndefined
               test_client in
  outcome_of run = Return session
  /\ state_of run = test_client.
Proof.
  intros session granted run.
  pose proof (signUp_never_authenticates granted any_serializer (JStr "a@b.c") (JStr "pw")
                JUndefined test_client) as H.
  subst run. unfold outcome_of, state_of.
  destruct (signUp granted any_serializer (JStr "a@b.c") (JStr "pw") JUndefined test_client)
    as [[o s'] t].
  cbn [fst snd]. destruct H as (Hs & _ & _ & req & _ & _ & Hf).
  split; [|exact Hs]. exact Hf.
Defined.

Lemma signIn_failure_keeps_token_witness :
  let answer := JObj [("error_description", JStr "Invalid login credentials")] in
  let refused := backend (status false "Bad Request" answer) in
  let run := signIn refused any_serializer (JStr "a@b.c") (JStr "wrong") test_client in
  outcome_of run = Throw (new_Error "Supabase Auth Error: Invalid login credentials")
  /\ state_of run = test_client.
Proof.
  intros answer refused run.
  pose proof (signIn_failure_keeps_token refused any_serializer (JStr "a@b.c") (JStr "wrong")
                test_client) as H.
  subst run. unfold outcome_of, state_of.
  destruct (signIn refused any_serializer (JStr "a@b.c") (JStr "wrong") test_client)
    as [[o s'] t].
  cbn [fst snd]. destruct H as (Hthrow & _ & req & _ & Hf).
  assert (o = Throw (new_Error "Supabase Auth Error: Invalid login credentials")) as Ho
    by exact Hf.
  split; [exact Ho|]. exact (proj1 (Hthrow _ Ho)).
Defined.

Lemma buildUrl_ignores_option_order_witness :
  let ps := [("limit", JNum 10); ("select", JStr "id")] in
  let qs := [("select", JStr "id"); ("limit", JNum 10)] in
  (wf_props ps /\ Permutation ps qs)
  /\ buildUrl "trips" "select" (JObj ps) test_client
     = buildUrl "trips" "select" (JObj qs) test_client.
Proof.
  intros ps qs.
  assert (wf_props ps) as Hwf by (unfold wf_props, ps; cbn [map fst]; solve_distinct_keys).
  assert (Permutation ps qs) as Hperm by apply perm_swap.
  split; [by split|].
  exact (proj1 (buildUrl_ignores_option_order (backend network_down) "trips" ps qs
                  test_client Hwf Hperm)).
Defined.

Lemma unfiltered_write_addresses_table_witness :
  (nullish (JObj []) = false /\ own_enumerable (JObj []) = [])
  /\ requests (events_of (delete (backend network_down) "trips" (JObj []) test_client))
     = [mkRequest "DELETE" "https://test.supabase.co/rest/v1/trips"
          (stored_headers test_client) JUndefined].
Proof.
  split; [by split|].
  exact (proj2 (unfiltered_write_addresses_table (backend network_down) any_serializer
                  "trips" (JObj []) JNull test_client eq_refl eq_refl)).
Defined.

Lemma missing_filter_sends_nothing_witness :
  nullish JNull = true
  /\ events_of (delete (backend network_down) "trips" JNull test_client)
     = [EvConsole LError "Error deleting from trips:"
          (Some (mkError "TypeError" "Cannot convert undefined or null to object"))].
Proof.
  split; [reflexivity|].
  destruct (missing_filter_sends_nothing (backend network_down) any_serializer "trips"
              JNull JNull JUndefined test_client eq_refl) as (_ & Hd & _).
  unfold events_of. by rewrite Hd.
Defined.

Lemma filter_encoding_agrees_witness :
  let filters := JObj [("owner", JStr "a b")] in
  let opaque := JObj [("owner", JObj [("toString", JNum 1)])] in
  let url := "https://test.supabase.co/rest/v1/trips?owner=eq.a+b" in
  (nullish filters = false
   /\ buildUrl "trips" "select" (JObj [("filters", filters)]) test_client
      = (Return url, test_client, [])
   /\ map req_url (requests (events_of (update (backend network_down) any_serializer
                                          "trips" filters JNull test_client)))
      = [url]
   /\ map req_url (requests (events_of (delete (backend network_down) "trips" filters
                                          test_client)))
      = [url])
  /\ (nullish opaque = false
      /\ requests (events_of (delete (backend network_down) "trips" opaque test_client))
         = []
      /\ outcome_of (delete (backend network_down) "trips" opaque test_client)
         = Throw not_primitive).
Proof.
  intros filters opaque url.
  destruct (filter_encoding_agrees (backend network_down) any_serializer "trips" filters
              JNull test_client eq_refl) as (Hb & Hu & Hd & _).
  destruct (filter_encoding_agrees (backend network_down) any_serializer "trips" opaque
              JNull test_client eq_refl) as (_ & _ & Hd' & Ho).
  split.
  - split; [reflexivity|]. split; [exact Hb|]. split; [exact Hu|exact Hd].
  - split; [reflexivity|]. split.
    + by destruct (requests (events_of (delete (backend network_down) "trips" opaque
                                          test_client))).
    + exact (proj2 (Ho eq_refl)).
Defined.

Lemma options_that_are_no_object_witness :
  number_or_boolean (JNum 5) = true
  /\ read (backend network_down) "trips" (JNum 5) test_client
     = read (backend network_down) "trips" JUndefined test_client.
Proof.
  split; [reflexivity|].
  destruct (options_that_are_no_object (backend network_down) no_numeric_strings "trips"
              JUndefined JNull (JNum 5) test_client) as (_ & _ & _ & H).
  exact (proj1 (H eq_refl)).
Defined.

Lemma getById_request_shape_witness :
  let ps := [("filters", JObj [("owner", JStr "bob")]); ("limit", JNum 50);
             ("select", JStr "id,name")] in
  wf_props ps
  /\ map req_url (requests (events_of (getById (backend network_down) no_numeric_strings
                                         "trips" (JNum 7) (JObj ps) test_client)))
     = ["https://test.supabase.co/rest/v1/trips?id=eq.7&select=id%2Cname&limit=1"].
Proof.
  intros ps.
  assert (wf_props ps) as Hwf by (unfold wf_props, ps; cbn [map fst]; solve_distinct_keys).
  split; [exact Hwf|].
  rewrite (getById_request_shape (backend network_down) any_serializer no_numeric_strings
             "trips" (JNum 7) ps test_client Hwf).
  reflexivity.
Defined.

Lemma getById_on_other_bodies_witness :
  let row := JObj [("id", JNum 1); ("name", JStr "Test Trip")] in
  let single := backend (status true "OK" row) in
  (query single "trips" (by_id (JNum 1)) (with_limit_one JUndefined) test_client
   = (Return row, test_client,
      events_of (query single "trips" (by_id (JNum 1)) (with_limit_one JUndefined)
                   test_client))
   /\ lengthless row = true)
  /\ outcome_of (getById single no_numeric_strings "trips" (JNum 1) JUndefined test_client)
     = Return JNull.
Proof.
  intros row single.
  assert (query single "trips" (by_id (JNum 1)) (with_limit_one JUndefined) test_client
          = (Return row, test_client,
             events_of (query single "trips" (by_id (JNum 1)) (with_limit_one JUndefined)
                          test_client))) as Hq by (vm_compute; reflexivity).
  split; [by split|].
  destruct (getById_on_other_bodies single no_numeric_strings "trips" (JNum 1) JUndefined
              test_client) as [H _].
  unfold outcome_of. by rewrite (H row _ _ Hq eq_refl).
Defined.

Lemma handleLogin_decision_witness :
  let row := JObj [("id", JNum 1); ("nickname", JStr "alice")] in
  let found := backend (status true "OK" (JArr [row])) in
  let form := fun id : string => if String.eqb id "loginNickname" then "alice" else "secret" in
  let visitor := mkPage test_client JNull None in
  let serializer := fun _ : JsVal => JStr "{}" in
  let run := handleLogin found serializer no_numeric_strings form visitor in
  (outcome_of (query found "users"
                 (JObj [("nickname", JStr (form "loginNickname"));
                        ("password", JStr (form "loginPassword"))])
                 JUndefined (supabase visitor))
   = Return (JArr [row])
   /\ countable (JArr [row]) = true
   /\ holds_rows no_numeric_strings (JArr [row]) = true)
  /\ currentUser (page_of run) = row
  /\ tripPlannerUser (page_of run) = Some "{}"
  /\ alerts (effects_of run) = ["Login successful!"].
Proof.
  intros row found form visitor serializer run.
  assert (outcome_of (query found "users"
                        (JObj [("nickname", JStr (form "loginNickname"));
                               ("password", JStr (form "loginPassword"))])
                        JUndefined (supabase visitor))
          = Return (JArr [row])) as Hq by (vm_compute; reflexivity).
  assert (countable (JArr [row]) = true) as Hcount by reflexivity.
  assert (holds_rows no_numeric_strings (JArr [row]) = true) as Hrows by reflexivity.
  split; [by split|].
  destruct (handleLogin_decision found serializer no_numeric_strings form visitor)
    as (_ & _ & _ & H).
  destruct (H (JArr [row]) Hq Hcount Hrows) as (Hu & Hs & Ha).
  split; [exact Hu|]. split; [exact Hs|exact Ha].
Defined.

Lemma submitComment_guards_witness :
  let member := mkPage test_client (JObj [("id", JNum 1); ("nickname", JStr "alice")]) None in
  let form := fun _ : string => "   " in
  (truthy (currentUser member) = true /\ blank (form "commentText") = true)
  /\ effects_of (submitComment (backend network_down) any_serializer
                   "2025-01-01T00:00:00.000Z" form member)
     = [Alert "Please write something!"].
Proof.
  intros member form. split; [by split|].
  destruct (submitComment_guards (backend network_down) any_serializer
              "2025-01-01T00:00:00.000Z" form member) as (_ & _ & _ & H & _).
  exact (H eq_refl eq_refl).
Defined.

Lemma loadComments_view_witness :
  let visitor := mkPage test_client JNull None in
  let dates := fun _ : JsVal => "1/1/2025" in
  outcome_of (read (backend network_down) "comments" newest_first (supabase visitor))
  = Throw (mkError "TypeError" "Failed to fetch")
  /\ shown "commentsList" (effects_of (loadComments (backend network_down) dates visitor))
     = ["<p>Error loading comments. Please try again later.</p>"].
Proof.
  intros visitor dates.
  assert (outcome_of (read (backend network_down) "comments" newest_first
                        (supabase visitor))
          = Throw (mkError "TypeError" "Failed to fetch")) as Hr by (vm_compute; reflexivity).
  split; [exact Hr|].
  destruct (loadComments_view (backend network_down) any_serializer dates visitor)
    as (_ & _ & _ & H & _).
  exact (H _ Hr).
Defined.

End MoreExamples.
